(** * CoMoE training engine: metrics, contrastive losses and the step loop

    A shallow embedding of [deit_utils/engine.py].

    - [SmoothedValue] and [MetricLogger] are modelled over exact rationals
      ([Q]) for the tracked values and [Z] for the integer [count].
    - The contrastive losses are modelled over the reals ([R]), with an
      explicit value for the [-inf] that [masked_fill_] writes.
    - [train_one_epoch] is modelled as a state and exception passing
      program over a world that records every call made on the optimizer,
      the loss scaler, the model and the metric logger.

    Python exceptions are values of [exn]; a computation that may raise
    returns a [result]. *)

From Stdlib Require Import ZArith QArith Reals Lia Lra String.
From stdpp Require Import base list strings.

Set Default Proof Using "Type".

(** ** Exceptions and results *)

Inductive exn : Set :=
| ZeroDivisionError   (* float division by zero *)
| IndexError          (* index out of range *)
| ValueError          (* max() of an empty sequence, non finite loss *)
| AttributeError      (* MetricLogger.__getattr__ *)
| RuntimeError.       (* torch.distributed used without a process group *)

Inductive result (A : Type) : Type :=
| Ok (a : A)
| Raise (e : exn).
Arguments Ok {A} a.
Arguments Raise {A} e.

Definition rbind {A B} (r : result A) (k : A -> result B) : result B :=
  match r with
  | Ok a => k a
  | Raise e => Raise e
  end.

Notation "'let?' x := r 'in' k" := (rbind r (fun x => k))
  (at level 10, x pattern, r at level 200, k at level 200).

(** What [tensor.item()] gives back in the rational model: a number, or
    the [nan] torch produces when it reduces an empty tensor. *)
Inductive scalar : Type :=
| Num (q : Q)
| NaN.

(** Python's [int(x)] on a float truncates toward zero. *)
Definition int (q : Q) : Z := Z.quot (Qnum q) (Zpos (Qden q)).

(** ** Collective operations of [torch.distributed]

    A process sees a collective through its own [rank] and through what
    the other processes contribute to the same call, listed in rank
    order ([peers], one entry per other process). *)
Module dist.

(** The contributions of every process, in rank order. *)
Definition contributions {A} (rank : nat) (peers : list A) (mine : A) : list A :=
  take rank peers ++ mine :: drop rank peers.

(** A tensor of two float64 entries, as built by
    [torch.tensor([self.count, self.total])]. *)
Abbreviation tensor2 := (Q * Q)%type.

Definition tensor2_add (a b : tensor2) : tensor2 :=
  ((fst a + fst b)%Q, (snd a + snd b)%Q).

(** [dist.all_reduce(t)] with the default reduction (sum). *)
Definition all_reduce (rank : nat) (peers : list tensor2) (t : tensor2) : tensor2 :=
  fold_left tensor2_add (contributions rank peers t) (0%Q, 0%Q).

(** The collectives a process enters, in order. *)
Inductive collective : Type :=
| Barrier
| AllReduce (t : tensor2).

End dist.

(** ** [collections.deque] with a [maxlen] *)
Module Deque.

Record t : Type := mk { items : list Q; maxlen : option nat }.

Definition empty (maxlen : option nat) : t := mk [] maxlen.

(** [deque.append(x)]: the item is appended on the right and, when the
    deque then exceeds [maxlen], one item is dropped on the left. *)
Definition append (x : Q) (d : t) : t :=
  let l := items d ++ [x] in
  mk (match maxlen d with
      | Some c => if (c <? length l)%nat then drop 1 l else l
      | None => l
      end)
     (maxlen d).

(** A sequence of appends, oldest first. *)
Definition appends (vs : list Q) (d : t) : t :=
  fold_left (fun d v => append v d) vs d.

End Deque.

(** ** [class SmoothedValue] *)
Module SmoothedValue.

Record t : Type := mk {
  deque : Deque.t;
  total : Q;
  count : Z;
  fmt : string
}.

Definition default_fmt : string := "{median:.4f} ({global_avg:.4f})".

(** [SmoothedValue(window_size=20, fmt=None)] *)
Definition __init__ (window_size : option nat) (fmt : option string) : t :=
  mk (Deque.empty window_size) 0%Q 0%Z
     (match fmt with None => default_fmt | Some f => f end).

Definition default : t := __init__ (Some 20%nat) None.

(** [update(value, n=1)] *)
Definition update (value : Q) (n : Z) (self : t) : t :=
  mk (Deque.append value (deque self))
     (total self + value * inject_Z n)%Q
     (count self + n)%Z
     (fmt self).

(** [synchronize_between_processes()]: the deque is not touched. *)
Definition synchronize_between_processes
    (rank : nat) (peers : list dist.tensor2) (self : t)
  : t * list dist.collective :=
  let t0 := (inject_Z (count self), total self) in
  let t1 := dist.all_reduce rank peers t0 in
  (mk (deque self) (snd t1) (int (fst t1)) (fmt self),
   [dist.Barrier; dist.AllReduce t0]).

(** Insertion sort, for the order statistics of [torch.median]. *)
Fixpoint insert_sorted (x : Q) (l : list Q) : list Q :=
  match l with
  | [] => [x]
  | y :: l' => if Qle_bool x y then x :: l else y :: insert_sorted x l'
  end.

Definition sort (l : list Q) : list Q := fold_right insert_sorted [] l.

Definition sum (l : list Q) : Q := fold_right Qplus 0%Q l.

(** [torch.tensor(list(self.deque)).median().item()]: the lower of the
    two middle values, and [nan] on an empty tensor. The values are kept
    as they are stored: the rounding to float32 that the tensor brings is
    written out in [median_float32]. *)
Definition median (self : t) : scalar :=
  let d := Deque.items (deque self) in
  match sort d !! ((length d - 1) / 2)%nat with
  | Some x => Num x
  | None => NaN
  end.

(** [torch.tensor(list(self.deque), dtype=torch.float32).mean().item()],
    as the exact mean: the rounding of the float32 arithmetic is not
    modelled. *)
Definition avg (self : t) : scalar :=
  match Deque.items (deque self) with
  | [] => NaN
  | d => Num (sum d / inject_Z (Z.of_nat (length d)))%Q
  end.

(** [self.total / self.count] *)
Definition global_avg (self : t) : result Q :=
  if (count self =? 0)%Z then Raise ZeroDivisionError
  else Ok (total self / inject_Z (count self))%Q.

(** [max(self.deque)]: the running maximum is replaced by an item that
    compares greater. *)
Definition max (self : t) : result Q :=
  match Deque.items (deque self) with
  | [] => Raise ValueError
  | x :: d =>
      Ok (fold_left (fun m y => if Qle_bool y m then m else y) d x)
  end.

(** [self.deque[-1]] *)
Definition value (self : t) : result Q :=
  match last (Deque.items (deque self)) with
  | Some x => Ok x
  | None => Raise IndexError
  end.

(** The keyword arguments [__str__] evaluates for [fmt.format], in the
    order they are written. *)
Record views : Type := mk_views {
  v_median : scalar; v_avg : scalar; v_global_avg : Q; v_max : Q; v_value : Q
}.

Definition __str__args (self : t) : result views :=
  let m := median self in
  let a := avg self in
  let? g := global_avg self in
  let? x := max self in
  let? v := value self in
  Ok (mk_views m a g x v).

(** A sequence of [update] calls, oldest first. *)
Definition updates (us : list (Q * Z)) (self : t) : t :=
  fold_left (fun s u => update (fst u) (snd u) s) us self.

End SmoothedValue.

(** ** [class MetricLogger] *)
Module MetricLogger.

(** The injected logger is an opaque object: a handle stands for it. *)
Definition logger : Type := nat.

(** [meters] is a [defaultdict(SmoothedValue)]: a dict keeps its keys in
    insertion order, and [synchronize_between_processes] walks it in
    that order, so it is an association list with unique keys. *)
Record t : Type := mk {
  meters : list (string * SmoothedValue.t);
  delimiter : string;
  log : option logger
}.

(** [MetricLogger(delimiter, log=None)] *)
Definition __init__ (delimiter : string) (log : option logger) : t :=
  mk [] delimiter log.

(** [k in d] and [d[k]] on a dict that has the key. *)
Fixpoint dict_get {V} (k : string) (d : list (string * V)) : option V :=
  match d with
  | [] => None
  | (k', v) :: d' => if String.eqb k k' then Some v else dict_get k d'
  end.

(** [d[k] = v]: an existing key keeps its position, a new one goes last. *)
Fixpoint dict_set {V} (k : string) (v : V) (d : list (string * V))
  : list (string * V) :=
  match d with
  | [] => [(k, v)]
  | (k', v') :: d' =>
      if String.eqb k k' then (k, v) :: d' else (k', v') :: dict_set k v d'
  end.

(** [self.meters[k]] on the [defaultdict]: a missing key is created with
    [SmoothedValue()]. *)
Definition meters_getitem (k : string) (self : t) : SmoothedValue.t * t :=
  match dict_get k (meters self) with
  | Some m => (m, self)
  | None =>
      (SmoothedValue.default,
       mk (dict_set k SmoothedValue.default (meters self))
          (delimiter self) (log self))
  end.

(** [update] on its keyword arguments, in the order they are passed,
    the values already unwrapped to numbers. *)
Definition update (kwargs : list (string * Q)) (self : t) : t :=
  fold_left
    (fun s kv =>
       let '(m, s') := meters_getitem (fst kv) s in
       mk (dict_set (fst kv) (SmoothedValue.update (snd kv) 1 m) (meters s'))
          (delimiter s') (log s'))
    kwargs self.

(** [add_meter(name, meter)] *)
Definition add_meter (name : string) (meter : SmoothedValue.t) (self : t) : t :=
  mk (dict_set name meter (meters self)) (delimiter self) (log self).

(** What an attribute access on a [MetricLogger] evaluates to. *)
Inductive attr_value : Type :=
| AMeter (m : SmoothedValue.t)
| AMeters (ms : list (string * SmoothedValue.t))
| ADelimiter (d : string)
| ALog (l : option logger)
| AClassAttr (name : string).

(** [self.__dict__]: the attributes [__init__] sets. *)
Definition __dict__ (self : t) : list (string * attr_value) :=
  [("meters", AMeters (meters self));
   ("delimiter", ADelimiter (delimiter self));
   ("log", ALog (log self))]%string.

(** [__getattr__(attr)] *)
Definition __getattr__ (attr : string) (self : t) : result attr_value :=
  match dict_get attr (meters self) with
  | Some m => Ok (AMeter m)
  | None =>
      match dict_get attr (__dict__ self) with
      | Some v => Ok v
      | None => Raise AttributeError
      end
  end.

(** The names bound in the body of [class MetricLogger]. *)
Definition class_dict : list string :=
  ["__init__"; "update"; "__getattr__"; "__str__";
   "synchronize_between_processes"; "add_meter"; "log_every"]%string.

(** The names every instance inherits from [object]. *)
Definition object_dict : list string :=
  ["__class__"; "__delattr__"; "__dict__"; "__dir__"; "__doc__"; "__eq__";
   "__format__"; "__ge__"; "__getattribute__"; "__getstate__"; "__gt__";
   "__hash__"; "__init_subclass__"; "__le__"; "__lt__"; "__module__";
   "__ne__"; "__new__"; "__reduce__"; "__reduce_ex__"; "__repr__";
   "__setattr__"; "__sizeof__"; "__subclasshook__"; "__weakref__"]%string.

Definition in_names (attr : string) (names : list string) : bool :=
  existsb (String.eqb attr) names.

(** The expression [logger.attr]. Python first looks the name up in the
    instance [__dict__] and in the class and its bases, and calls
    [__getattr__] only when that lookup finds nothing. *)
Definition getattr (self : t) (attr : string) : result attr_value :=
  match dict_get attr (__dict__ self) with
  | Some v => Ok v
  | None =>
      if in_names attr class_dict || in_names attr object_dict
      then Ok (AClassAttr attr)
      else __getattr__ attr self
  end.

(** A name that the normal attribute lookup resolves. *)
Definition ordinary_attribute (self : t) (attr : string) : bool :=
  match dict_get attr (__dict__ self) with Some _ => true | None => false end
  || in_names attr class_dict || in_names attr object_dict.

(** [synchronize_between_processes()]: the meters synchronize one after
    the other, in dict order; [peers j] is what the other processes
    contribute to the [j]-th all-reduce. *)
Definition synchronize_between_processes
    (rank : nat) (peers : nat -> list dist.tensor2) (self : t)
  : t * list dist.collective :=
  let synced :=
    imap (fun j kv =>
            let '(m, evs) :=
              SmoothedValue.synchronize_between_processes rank (peers j) (snd kv) in
            ((fst kv, m), evs))
         (meters self) in
  (mk (map fst synced) (delimiter self) (log self),
   concat (map snd synced)).

End MetricLogger.

(** ** The tensor operations of [torch] the losses use, over the reals *)
Module torch.

Abbreviation vector := (list R).
(** A two-dimensional tensor, as the list of its rows. The operations
    below are meant for rectangular tensors whose shapes agree the way
    torch requires. *)
Abbreviation matrix := (list (list R)).

(** An entry of a logits tensor: a real, or the [float('-inf')] that
    [masked_fill_] writes. *)
Inductive logit : Type :=
| Fin (x : R)
| NegInf.

(** A scalar loss: a finite real, or a value [math.isfinite] rejects
    ([inf] or [nan]); arithmetic on a non finite value stays non
    finite. *)
Inductive loss : Type :=
| Finite (x : R)
| NonFinite.

Definition isfinite (l : loss) : bool :=
  match l with Finite _ => true | NonFinite => false end.

Definition loss_add (a b : loss) : loss :=
  match a, b with
  | Finite x, Finite y => Finite (x + y)
  | _, _ => NonFinite
  end.

Definition loss_scale (a : loss) (c : R) : loss :=
  match a with
  | Finite x => Finite (x * c)
  | NonFinite => NonFinite
  end.

Definition sum (v : list R) : R := fold_right Rplus 0%R v.

Definition norm2 (v : vector) : R := sqrt (sum (map (fun x => x * x)%R v)).

(** The default [eps=1e-12] of [nn.functional.normalize]. *)
Definition eps : R := (/ 10 ^ 12)%R.

(** [nn.functional.normalize(t, dim=1)]: every row is divided by
    [max(norm, eps)]. *)
Definition normalize (t : matrix) : matrix :=
  map (fun v => map (fun x => x / Rmax (norm2 v) eps)%R v) t.

Definition dot (u v : vector) : R := sum (zip_with Rmult u v).

(** [torch.einsum('nc,mc->nm', [q, k])] *)
Definition einsum_nc_mc_nm (q k : matrix) : matrix :=
  map (fun qn => map (fun km => dot qn km) k) q.

(** [t / temp], for a temperature that is not zero: at [temp = 0] the
    float division gives [inf] or [nan], which the real numbers do not
    represent. *)
Definition div (t : matrix) (temp : R) : matrix :=
  map (map (fun x => x / temp)%R) t.

(** [torch.arange(N)] *)
Definition arange (N : nat) : list nat := seq 0 N.

Definition shape {A} (t : list (list A)) : list nat := map length t.

(** [t[n, m]] *)
Definition entry {A} (t : list (list A)) (n m : nat) : option A :=
  match t !! n with
  | Some row => row !! m
  | None => None
  end.

(** What [masked_fill_] leaves at an entry [x] under the mask bit [b]. *)
Definition fill (x : R) (b : bool) : logit :=
  if b then NegInf else Fin x.

(** [t.masked_fill_(mask, float('-inf'))]: the entries where [mask] is
    true become [-inf]. A mask of another shape raises; torch would
    first try to broadcast a mask that has a dimension of size one,
    which is not modelled. *)
Definition masked_fill_neg_inf (t : matrix) (mask : list (list bool))
  : result (list (list logit)) :=
  if bool_decide (shape t = shape mask)
  then Ok (zip_with (zip_with fill) t mask)
  else Raise RuntimeError.

(** One assignment [mask[i, j] = True]: an index out of range raises. *)
Definition index_put_step (acc : result (list (list bool))) (ij : nat * nat)
  : result (list (list bool)) :=
  let? m := acc in
  match m !! (fst ij) with
  | Some row =>
      if (snd ij <? length row)%nat
      then Ok (<[fst ij := <[snd ij := true]> row]> m)
      else Raise IndexError
  | None => Raise IndexError
  end.

(** [mask[rows, cols] = True] with index tensors. *)
Definition index_put_true (mask : list (list bool)) (rows cols : list nat)
  : result (list (list bool)) :=
  fold_left index_put_step (zip rows cols) (Ok mask).

Definition exp_logit (l : logit) : R :=
  match l with Fin x => exp x | NegInf => 0%R end.

(** The loss of one sample: minus the log-softmax of its row at the
    target. A target out of range raises; a target masked to [-inf]
    gives a non finite loss. *)
Definition nll_row (row : list logit) (target : nat) : result loss :=
  match row !! target with
  | None => Raise IndexError
  | Some NegInf => Ok NonFinite
  | Some (Fin x) => Ok (Finite (ln (sum (map exp_logit row)) - x))
  end.

Fixpoint nll_rows (rows : list (list logit)) (targets : list nat)
  : result (list loss) :=
  match rows, targets with
  | row :: rows', y :: targets' =>
      let? l := nll_row row y in
      let? ls := nll_rows rows' targets' in
      Ok (l :: ls)
  | _, _ => Ok []
  end.

(** [nn.CrossEntropyLoss()(logits, targets)], with its default mean
    reduction over the batch; the mean of an empty batch is [nan]. *)
Definition CrossEntropyLoss (logits : list (list logit)) (targets : list nat)
  : result loss :=
  let? ls := nll_rows logits targets in
  Ok (match ls with
      | [] => NonFinite
      | _ => loss_scale (fold_right loss_add (Finite 0) ls)
                        (/ INR (length ls))
      end).

End torch.

(** ** The process group the losses run in *)

(** What the process sees of an initialized [torch.distributed]: its rank
    and, in rank order, what each other process passes to the gather of
    the keys and to the gather of the labels. *)
Record process_group : Type := mk_process_group {
  pg_rank : nat;
  pg_keys : list torch.matrix;
  pg_labels : list (list Z)
}.

(** [None] when [torch.distributed.is_initialized()] is false. *)
Definition distributed : Type := option process_group.

(** A group of one process. *)
Definition single_process : process_group := mk_process_group 0 [] [].

(** Modelled from the spec: [concat_all_gather] of [moco/builder.py], which
    is not part of the sources at hand. Given a local tensor it returns
    the concatenation across all processes in rank order, each process
    contributing its local batch contiguously; with one process it
    returns the tensor it is given. *)
Definition concat_all_gather {A} (rank : nat) (peers : list (list A))
    (tensor : list A) : list A :=
  concat (dist.contributions rank peers tensor).

(** ** [contrastive_loss(q, k, temp=0.2)]

    [concat_all_gather] and [torch.distributed.get_rank()] are called
    unconditionally: without a process group they raise. *)
Definition contrastive_loss (d : distributed) (q k : torch.matrix) (temp : R)
  : result torch.loss :=
  match d with
  | None => Raise RuntimeError
  | Some pg =>
      let q := torch.normalize q in
      let k := torch.normalize k in
      let k := concat_all_gather (pg_rank pg) (pg_keys pg) k in
      let logits := torch.div (torch.einsum_nc_mc_nm q k) temp in
      let N := length logits in
      let labels := map (fun n => n + N * pg_rank pg)%nat (torch.arange N) in
      let? ce := torch.CrossEntropyLoss (map (map torch.Fin) logits) labels in
      Ok (torch.loss_scale ce (2 * temp))
  end.

(** [if torch.distributed.is_initialized(): x = concat_all_gather(x)] *)
Definition gather_if_initialized {A} (d : distributed)
    (peers : process_group -> list (list A)) (x : list A) : list A :=
  match d with
  | Some pg => concat_all_gather (pg_rank pg) (peers pg) x
  | None => x
  end.

(** [rank = torch.distributed.get_rank()] in an initialized group, and
    [rank = 0] otherwise. *)
Definition rank_or_0 (d : distributed) : nat :=
  match d with Some pg => pg_rank pg | None => 0%nat end.

(** [label_mask = torch.abs(q.unsqueeze(1) - k.unsqueeze(0)) > 0] *)
Definition label_mask (label_q label_k : list Z) : list (list bool) :=
  map (fun a => map (fun b => (0 <? Z.abs (a - b))%Z) label_k) label_q.

(** The logits of [supervised_contrastive_loss] after [masked_fill_], and
    the rank it uses. *)
Definition supervised_logits (d : distributed) (q k : torch.matrix)
    (label : list Z) (temp : R) : result (list (list torch.logit) * nat) :=
  let q := torch.normalize q in
  let k := torch.normalize k in
  let k := gather_if_initialized d pg_keys k in
  let supervised_label_q := label in
  let supervised_label_k := label in
  let supervised_label_k := gather_if_initialized d pg_labels supervised_label_k in
  let mask := label_mask supervised_label_q supervised_label_k in
  let N := length mask in
  let rank := rank_or_0 d in
  let? mask :=
    torch.index_put_true mask (torch.arange N)
      (map (fun n => n + N * rank)%nat (torch.arange N)) in
  let logits := torch.div (torch.einsum_nc_mc_nm q k) temp in
  let? logits := torch.masked_fill_neg_inf logits (map (map negb) mask) in
  Ok (logits, rank).

(** ** [supervised_contrastive_loss(q, k, label, temp=0.2)] *)
Definition supervised_contrastive_loss (d : distributed) (q k : torch.matrix)
    (label : list Z) (temp : R) : result torch.loss :=
  let? lr := supervised_logits d q k label temp in
  let logits := fst lr in
  let rank := snd lr in
  let N := length logits in
  let labels := map (fun n => n + N * rank)%nat (torch.arange N) in
  let? ce := torch.CrossEntropyLoss logits labels in
  Ok (torch.loss_scale ce (2 * temp)).

(** ** The unsupervised loss, as the specification words it

    L2-normalize [q] and [k] along the feature axis; gather [k] from
    every process, in ascending rank order, each process contributing its
    batch contiguously; [logits[n, m] = dot(q_n, k_m) / temp]; the
    positive of the local sample [n] is the global index [n + rank * N];
    the result is [temp * 2] times the cross entropy, averaged over the
    local batch.

    These definitions are written from that text alone, with sums over
    indices: none of them goes through an operation of [torch]. *)

(** The sum of [f 0], ..., [f (n - 1)]. *)
Fixpoint sum_upto (n : nat) (f : nat -> R) : R :=
  match n with
  | O => 0%R
  | S n' => (sum_upto n' f + f n')%R
  end.

(** The feature [c] of a representation. *)
Definition spec_feature (v : list R) (c : nat) : R := nth c v 0%R.

(** The L2 norm: the square root of the sum of the squared features. *)
Definition spec_l2_norm (v : list R) : R :=
  sqrt (sum_upto (length v) (fun c => spec_feature v c * spec_feature v c)%R).

(** L2 normalization along the feature axis: every representation is
    divided by its L2 norm. *)
Definition spec_l2_normalize (t : list (list R)) : list (list R) :=
  map (fun v => map (fun x => x / spec_l2_norm v)%R v) t.

(** The dot product of two representations, over the features of the
    first. *)
Definition spec_dot (u v : list R) : R :=
  sum_upto (length u) (fun c => spec_feature u c * spec_feature v c)%R.

(** The gathered keys: the batches of the lower ranks, the local batch,
    the batches of the higher ranks. *)
Definition spec_keys (pg : process_group) (k : list (list R)) : list (list R) :=
  concat (take (pg_rank pg) (pg_keys pg))
  ++ spec_l2_normalize k
  ++ concat (drop (pg_rank pg) (pg_keys pg)).

Definition spec_logit (pg : process_group) (q k : list (list R)) (temp : R)
    (n m : nat) : R :=
  (spec_dot (nth n (spec_l2_normalize q) []) (nth m (spec_keys pg k) []) / temp)%R.

Definition spec_positive (pg : process_group) (N n : nat) : nat :=
  (n + pg_rank pg * N)%nat.

Definition spec_cross_entropy (N M : nat) (logit : nat -> nat -> R)
    (positive : nat -> nat) : R :=
  (sum_upto N (fun n =>
     ln (sum_upto M (fun m => exp (logit n m))) - logit n (positive n))
   / INR N)%R.

Definition spec_contrastive_loss (pg : process_group) (q k : list (list R))
    (temp : R) : R :=
  (temp * 2
   * spec_cross_entropy (length q) (length (spec_keys pg k))
       (spec_logit pg q k temp) (spec_positive pg (length q)))%R.

(** Representations whose norm the clamp of [normalize] leaves alone. *)
Definition unclamped (t : list (list R)) : Prop :=
  Forall (fun v => (torch.eps <= spec_l2_norm v)%R) t.

(** Representations of [C] features each. *)
Definition features (C : nat) (t : list (list R)) : Prop :=
  Forall (fun v => length v = C) t.

(** ** Small batches to evaluate the losses on *)
Definition q_example : torch.matrix := [[1; 0]; [0; 1]]%R.
Definition k_example : torch.matrix := [[1; 1]; [0; 2]]%R.

(** A query whose norm is a tenth of the clamp of [normalize], its key,
    and a group of two processes in which the other one contributes the
    key [[0; 1]]. *)
Definition q_tiny : torch.matrix := [[torch.eps / 10; 0]]%R.
Definition k_unit : torch.matrix := [[1; 0]]%R.
Definition two_processes : process_group :=
  mk_process_group 0 [[[0; 1]%R]] [].

(** ** [train_one_epoch]

    The model, the criterion, the optimizer, the loss scaler and the
    helpers of [utils] are collaborators of the loop: they are taken as
    parameters. The loop runs on a [world] that holds the model, the
    optimizer and the shadow model, and that records every call the loop
    makes on a collaborator or on the metric logger. *)
Module engine.

(** The fields of [args] the loop reads. *)
Record args : Type := mk_args {
  kaiming_sched : bool;
  moe_contrastive_weight : Q;
  moe_contrastive_supervised : bool;
  arch : string;
  moe_noisy_gate_loss_weight : Q
}.

(** A gating activation: a three-dimensional tensor. *)
Abbreviation tensor3 := (list (list (list R))).

(** [t[:, 0]] *)
Fixpoint select_0 (t : tensor3) : result torch.matrix :=
  match t with
  | [] => Ok []
  | x :: t' =>
      match x with
      | [] => Raise IndexError
      | r :: _ =>
          let? rest := select_0 t' in
          Ok (r :: rest)
      end
  end.

Inductive call : Type :=
| AdjustLearningRate (epoch_progress : Q)
| ModelForward (second_view : bool)
| Criterion
| CollectMoeActivation
| MetricUpdateLoss (name : string) (value : torch.loss)
| MetricUpdateLr (value : Q)
| CollectNoisyGatingLoss
| ZeroGrad
| LossScaler (loss : torch.loss) (clip_grad : Q) (create_graph : bool)
| CudaSynchronize
| EmaUpdate
| ModelTrain (mode : bool)
| MetricAddMeter (name : string)
| MetricSynchronize.

Section Loop.

Variables Model Optimizer Ema Params Samples Targets Outputs : Type.

Record collaborators : Type := mk_collaborators {
  (** [model.train(mode)] *)
  model_train : Model -> bool -> Model;
  (** [model(samples)]: the forward pass may leave activations in the
      model object. *)
  model_call : Model -> Samples -> Model * Outputs;
  (** [model.parameters()] *)
  parameters : Model -> Params;
  (** [criterion(samples, outputs, targets)] *)
  criterion : Samples -> Outputs -> Targets -> torch.loss;
  (** [mixup_fn], when one is given *)
  mixup_fn : option (Samples -> Targets -> Samples * Targets);
  (** the class indices in [targets] *)
  discrete : Targets -> list Z;
  (** [adjust_learning_rate(optimizer, epoch_progress, args)] of
      [utils/lr_sched.py] *)
  adjust_learning_rate : Optimizer -> Q -> Optimizer;
  (** [collect_moe_activation(model, batch, activation_suppress)] *)
  collect_moe_activation : Model -> list tensor3;
  (** [collect_noisy_gating_loss(model, weight)] *)
  collect_noisy_gating_loss : Model -> Q -> torch.loss;
  (** [optimizer.zero_grad()] *)
  zero_grad : Optimizer -> Optimizer;
  (** [hasattr(optimizer, 'is_second_order') and optimizer.is_second_order] *)
  is_second_order : Optimizer -> bool;
  (** [loss_scaler(loss, optimizer, clip_grad, parameters, create_graph)]:
      backward pass, clipping and optimizer step; the parameters it
      is given are those of the model, which it updates *)
  loss_scaler : torch.loss -> Optimizer -> Q -> Model -> bool -> Model * Optimizer;
  (** [model_ema.update(model)] *)
  ema_update : Ema -> Model -> Ema;
  (** [optimizer.param_groups[0]["lr"]] *)
  lr : Optimizer -> Q;
  (** the process group seen by the contrastive loss of each layer *)
  dist_of_layer : nat -> distributed
}.

Record world : Type := mk_world {
  model : Model;
  optimizer : Optimizer;
  model_ema : option Ema;
  calls : list call
}.

(** One batch of the data loader; [samples_second] is read only when
    the contrastive weight is positive. *)
Record batch : Type := mk_batch {
  samples : Samples;
  samples_second : Samples;
  targets : Targets
}.

Variable C : collaborators.
Variable A : args.

Definition record (c : call) (w : world) : world :=
  mk_world (model w) (optimizer w) (model_ema w) (calls w ++ [c]).

Definition with_model (m : Model) (w : world) : world :=
  mk_world m (optimizer w) (model_ema w) (calls w).

Definition with_optimizer (o : Optimizer) (w : world) : world :=
  mk_world (model w) o (model_ema w) (calls w).

Definition with_ema (e : option Ema) (w : world) : world :=
  mk_world (model w) (optimizer w) e (calls w).

(** [loss_gate] after the loop over [zip(q_gate, k_gate)]: [None]
    while it is still the integer [0] it starts as. *)
Fixpoint gate_losses (layer : nat) (q_gate k_gate : list tensor3)
    (targets_discrete : list Z) (loss_gate : option torch.loss)
  : result (option torch.loss) :=
  match q_gate, k_gate with
  | q_g :: q_gate', k_g :: k_gate' =>
      let? q0 := select_0 q_g in
      let? k0 := select_0 k_g in
      let? l :=
        if moe_contrastive_supervised A
        then supervised_contrastive_loss (dist_of_layer C layer) q0 k0
               targets_discrete (2 / 10)%R
        else contrastive_loss (dist_of_layer C layer) q0 k0 (2 / 10)%R in
      let term := torch.loss_scale l (Q2R (moe_contrastive_weight A)) in
      gate_losses (S layer) q_gate' k_gate' targets_discrete
        (Some (match loss_gate with
               | None => term
               | Some g => torch.loss_add g term
               end))
  | _, _ => Ok loss_gate
  end.

(** [data_iter_step / len(data_loader) + epoch] *)
Definition epoch_progress (epoch len data_iter_step : nat) : Q :=
  (inject_Z (Z.of_nat data_iter_step) / inject_Z (Z.of_nat len)
   + inject_Z (Z.of_nat epoch))%Q.

(** The optimizer once the per iteration schedule has run, when
    [args.kaiming_sched] is set. *)
Definition scheduled_optimizer (epoch len data_iter_step : nat) (o : Optimizer)
  : Optimizer :=
  if kaiming_sched A
  then adjust_learning_rate C o (epoch_progress epoch len data_iter_step)
  else o.

(** [loss_value]: the criterion's loss on the batch. *)
Definition criterion_loss (b : batch) (w : world) : torch.loss :=
  let '(samples1, targets1) :=
    match mixup_fn C with
    | Some mix => mix (samples b) (targets b)
    | None => (samples b, targets b)
    end in
  let '(_, outputs) := model_call C (model w) samples1 in
  criterion C samples1 outputs targets1.

(** The first part of the body of the [for] loop, for the batch number
    [data_iter_step] of a loader of [len] batches: everything up to
    the finiteness test. It gives [loss_value], read from the
    criterion's loss, and [loss], to which the gate loss and the load
    loss have been added. An exception leaves the world as it is when
    it is raised. *)
Definition forward_losses (epoch : nat) (len : nat)
    (data_iter_step : nat) (b : batch) (w : world)
  : world * result (torch.loss * torch.loss) :=
  let w :=
    if kaiming_sched A
    then
      let progress := epoch_progress epoch len data_iter_step in
      record (AdjustLearningRate progress)
        (with_optimizer (adjust_learning_rate C (optimizer w) progress) w)
    else w in
  let targets_discrete := discrete C (targets b) in
  let '(samples1, targets1) :=
    match mixup_fn C with
    | Some mix => mix (samples b) (targets b)
    | None => (samples b, targets b)
    end in
  let '(m, outputs) := model_call C (model w) samples1 in
  let w := record (ModelForward false) (with_model m w) in
  let loss := criterion C samples1 outputs targets1 in
  let w := record Criterion w in
  let loss_value := loss in
  let '(w, gated) :=
    if negb (Qle_bool (moe_contrastive_weight A) 0)
    then
      let q_gate := collect_moe_activation C (model w) in
      let w := record CollectMoeActivation w in
      let '(m2, _) := model_call C (model w) (samples_second b) in
      let w := record (ModelForward true) (with_model m2 w) in
      let k_gate := collect_moe_activation C (model w) in
      let w := record CollectMoeActivation w in
      match gate_losses 0 q_gate k_gate targets_discrete None with
      | Raise e => (w, Raise e)
      | Ok None => (w, Raise AttributeError)
      | Ok (Some loss_gate) =>
          (record (MetricUpdateLoss "loss_gate" loss_gate) w,
           Ok (torch.loss_add loss loss_gate))
      end
    else (w, Ok loss) in
  match gated with
  | Raise e => (w, Raise e)
  | Ok loss =>
      if String.prefix "moe_vit" (arch A)
      then
        let loss_load :=
          collect_noisy_gating_loss C (model w) (moe_noisy_gate_loss_weight A) in
        (record CollectNoisyGatingLoss w,
         Ok (loss_value, torch.loss_add loss loss_load))
      else (w, Ok (loss_value, loss))
  end.

(** The rest of the body, once [loss_value] is known to be finite. *)
Definition optimize (max_norm : Q) (loss_value loss : torch.loss) (w : world)
  : world :=
  let w := record ZeroGrad (with_optimizer (zero_grad C (optimizer w)) w) in
  let second := is_second_order C (optimizer w) in
  let '(m, o) := loss_scaler C loss (optimizer w) max_norm (model w) second in
  let w := record (LossScaler loss max_norm second)
             (with_optimizer o (with_model m w)) in
  let w := record CudaSynchronize w in
  let w :=
    match model_ema w with
    | Some e => record EmaUpdate (with_ema (Some (ema_update C e (model w))) w)
    | None => w
    end in
  let w := record (MetricUpdateLoss "loss" loss_value) w in
  record (MetricUpdateLr (lr C (optimizer w))) w.

(** The body of the [for] loop. *)
Definition train_step (epoch : nat) (max_norm : Q) (len : nat)
    (data_iter_step : nat) (b : batch) (w : world) : world * result unit :=
  match forward_losses epoch len data_iter_step b w with
  | (w, Raise e) => (w, Raise e)
  | (w, Ok (loss_value, loss)) =>
      if negb (torch.isfinite loss_value)
      then (w, Raise ValueError)
      else (optimize max_norm loss_value loss w, Ok tt)
  end.

(** The [for] loop over [enumerate(data_loader)], from batch number
    [data_iter_step] on: it stops at the first exception of the body.
    The generator [log_every] that the loader is wrapped in writes its
    lines between two turns and after the last one; it makes none of the
    calls recorded here, and can only cut the loop short. It is modelled
    on its own, in [logging]. *)
Fixpoint train_loop (epoch : nat) (max_norm : Q) (len : nat)
    (data_iter_step : nat) (data_loader : list batch) (w : world)
  : world * result unit :=
  match data_loader with
  | [] => (w, Ok tt)
  | b :: rest =>
      match train_step epoch max_norm len data_iter_step b w with
      | (w', Ok _) => train_loop epoch max_norm len (S data_iter_step) rest w'
      | (w', Raise e) => (w', Raise e)
      end
  end.

(** The world when the loop is entered: the model has been put in
    training mode and the [lr] meter registered. *)
Definition epoch_start (set_training_mode : bool) (w : world) : world :=
  let w :=
    record (ModelTrain set_training_mode)
      (with_model (model_train C (model w) set_training_mode) w) in
  record (MetricAddMeter "lr") w.

(** [train_one_epoch]: the loop runs and, when it ends without an
    exception, the logger synchronizes; the averages are then read from
    the logger (see [MetricLogger]). *)
Definition train_one_epoch (epoch : nat) (max_norm : Q)
    (set_training_mode : bool) (data_loader : list batch) (w : world)
  : world * result unit :=
  let w := epoch_start set_training_mode w in
  match train_loop epoch max_norm (length data_loader) 0 data_loader w with
  | (w, Ok _) => (record MetricSynchronize w, Ok tt)
  | (w, Raise e) => (w, Raise e)
  end.

End Loop.

Arguments mk_collaborators {Model Optimizer Ema Params Samples Targets Outputs}.
Arguments mk_world {Model Optimizer Ema}.
Arguments mk_batch {Samples Targets}.
Arguments model {Model Optimizer Ema}.
Arguments optimizer {Model Optimizer Ema}.
Arguments model_ema {Model Optimizer Ema}.
Arguments calls {Model Optimizer Ema}.
Arguments record {Model Optimizer Ema}.
Arguments with_model {Model Optimizer Ema}.
Arguments with_optimizer {Model Optimizer Ema}.
Arguments with_ema {Model Optimizer Ema}.
Arguments samples {Samples Targets}.
Arguments samples_second {Samples Targets}.
Arguments targets {Samples Targets}.
Arguments model_train {Model Optimizer Ema Params Samples Targets Outputs}.
Arguments model_call {Model Optimizer Ema Params Samples Targets Outputs}.
Arguments parameters {Model Optimizer Ema Params Samples Targets Outputs}.
Arguments criterion {Model Optimizer Ema Params Samples Targets Outputs}.
Arguments mixup_fn {Model Optimizer Ema Params Samples Targets Outputs}.
Arguments discrete {Model Optimizer Ema Params Samples Targets Outputs}.
Arguments adjust_learning_rate {Model Optimizer Ema Params Samples Targets Outputs}.
Arguments collect_moe_activation {Model Optimizer Ema Params Samples Targets Outputs}.
Arguments collect_noisy_gating_loss {Model Optimizer Ema Params Samples Targets Outputs}.
Arguments zero_grad {Model Optimizer Ema Params Samples Targets Outputs}.
Arguments is_second_order {Model Optimizer Ema Params Samples Targets Outputs}.
Arguments loss_scaler {Model Optimizer Ema Params Samples Targets Outputs}.
Arguments ema_update {Model Optimizer Ema Params Samples Targets Outputs}.
Arguments lr {Model Optimizer Ema Params Samples Targets Outputs}.
Arguments dist_of_layer {Model Optimizer Ema Params Samples Targets Outputs}.
Arguments gate_losses {Model Optimizer Ema Params Samples Targets Outputs}.
Arguments scheduled_optimizer {Model Optimizer Ema Params Samples Targets Outputs}.
Arguments criterion_loss {Model Optimizer Ema Params Samples Targets Outputs}.
Arguments forward_losses {Model Optimizer Ema Params Samples Targets Outputs}.
Arguments optimize {Model Optimizer Ema Params Samples Targets Outputs}.
Arguments train_step {Model Optimizer Ema Params Samples Targets Outputs}.
Arguments train_loop {Model Optimizer Ema Params Samples Targets Outputs}.
Arguments epoch_start {Model Optimizer Ema Params Samples Targets Outputs}.
Arguments train_one_epoch {Model Optimizer Ema Params Samples Targets Outputs}.

(** A call that mutates the optimizer state or the parameters. *)
Definition optimizer_call (c : call) : bool :=
  match c with
  | ZeroGrad | LossScaler _ _ _ => true
  | _ => false
  end.

Definition no_optimizer_call (cs : list call) : Prop :=
  forallb (fun c => negb (optimizer_call c)) cs = true.

End engine.

(** ** The quantities the specification speaks of *)

(** The sum of [v_i * w_i] over a sequence of [update(v_i, w_i)] calls. *)
Definition weighted_sum (us : list (Q * Z)) : Q :=
  fold_right (fun u acc => fst u * inject_Z (snd u) + acc)%Q 0%Q us.

(** The sum of the weights [w_i]. *)
Definition weight_sum (us : list (Q * Z)) : Z :=
  fold_right (fun u acc => snd u + acc)%Z 0%Z us.

(** The last [min(c, n)] of [n] values. *)
Definition last_values {A} (c : nat) (vs : list A) : list A :=
  drop (length vs - c) vs.

(** The tensor a statistic contributes to the all-reduce. *)
Definition sync_tensor (s : SmoothedValue.t) : dist.tensor2 :=
  (inject_Z (SmoothedValue.count s), SmoothedValue.total s).

Definition sumZ (l : list Z) : Z := fold_right Z.add 0%Z l.

(** ** Two processes with one metric each

    The logger of process 0 has seen three values of [loss] (count 3,
    total 9), the logger of process 1 five (count 5, total 10). *)
Definition logger_rank0 : MetricLogger.t :=
  MetricLogger.update [("loss"%string, 4%Q)]
    (MetricLogger.update [("loss"%string, 3%Q)]
       (MetricLogger.update [("loss"%string, 2%Q)]
          (MetricLogger.__init__ "  " None))).

Definition logger_rank1 : MetricLogger.t :=
  Nat.iter 5 (MetricLogger.update [("loss"%string, 2%Q)])
    (MetricLogger.__init__ "  " None).

(** What a logger contributes to the [j]-th all-reduce. *)
Definition logger_tensor (ml : MetricLogger.t) (j : nat) : list dist.tensor2 :=
  match MetricLogger.meters ml !! j with
  | Some kv => [sync_tensor (snd kv)]
  | None => []
  end.

Definition synced_rank0 : MetricLogger.t :=
  fst (MetricLogger.synchronize_between_processes 0
         (logger_tensor logger_rank1) logger_rank0).

Definition synced_rank1 : MetricLogger.t :=
  fst (MetricLogger.synchronize_between_processes 1
         (logger_tensor logger_rank0) logger_rank1).

(** ** A logger with a metric named like one of its own attributes *)
Definition logger_with_log_metric : MetricLogger.t :=
  MetricLogger.update [("log"%string, 1%Q)]
    (MetricLogger.__init__ "  " (Some 7%nat)).

(** ** Small collaborators to run the loop on

    The model, the shadow model, the parameters and the samples are
    trivial; the target of a batch is the loss the criterion gives on it;
    the optimizer is its learning rate, which the schedule sets to the
    epoch progress. *)
Module example.

Import engine.

Definition collaborators_of (load_value : torch.loss)
  : collaborators unit Q unit unit unit torch.loss unit :=
  {| model_train := fun m _ => m;
     model_call := fun m _ => (m, tt);
     parameters := fun _ => tt;
     criterion := fun _ _ target => target;
     mixup_fn := None;
     discrete := fun _ => [];
     adjust_learning_rate := fun _ progress => progress;
     collect_moe_activation := fun _ => [];
     collect_noisy_gating_loss := fun _ _ => load_value;
     zero_grad := fun o => o;
     is_second_order := fun _ => false;
     loss_scaler := fun _ o _ m _ => (m, o);
     ema_update := fun e _ => e;
     lr := fun o => o;
     dist_of_layer := fun _ => None |}.

(** A batch on which the criterion gives [l]. *)
Definition batch_with (l : torch.loss) : batch unit torch.loss := mk_batch tt tt l.

Definition initial_world : world unit Q unit := mk_world tt 1%Q None [].

(** A [moe_vit] architecture without the contrastive loss. *)
Definition args_moe_vit : args := mk_args false 0 false "moe_vit_small" 1.

(** A plain architecture with the per iteration schedule. *)
Definition args_kaiming : args := mk_args true 0 false "deit_small" 0.

(** Three batches: the criterion's loss is not finite on the second. *)
Definition batches_before : list (batch unit torch.loss) :=
  [batch_with (torch.Finite 1)].

Definition loader : list (batch unit torch.loss) :=
  batches_before ++ batch_with torch.NonFinite :: [batch_with (torch.Finite 1)].

(** The world when the loop reaches the second batch. *)
Definition world_before : world unit Q unit :=
  fst (train_loop (collaborators_of (torch.Finite 0)) args_kaiming 3 0
         (length loader) 0 batches_before
         (epoch_start (collaborators_of (torch.Finite 0)) true initial_world)).

End example.

(** * [utils/init_datasets.py]

    The file system is seen through [os.path.isdir] and [np.load], taken
    as parameters. [Custom_Dataset] and [subsetCIFAR10] are classes of
    other files: a dataset is the record of the arguments it is built
    with, a keyword that is not passed being [None]. *)
Module init_datasets.

Inductive error : Type :=
| AssertionError (msg : string)
| ValueError (msg : string)
| FileNotFoundError (path : string)
| TypeError.

(** A [dict] from strings to strings, in insertion order. *)
Abbreviation path_dict := (list (string * string)).

Inductive dataset (T : Type) : Type :=
| Custom_Dataset (root : string) (txt : option string) (transform : T)
    (pathReplace : option path_dict)
| subsetCIFAR10 (root : string) (sublist : list Z) (train : option bool)
    (transform : T) (download : bool).
Arguments Custom_Dataset {T}.
Arguments subsetCIFAR10 {T}.

Definition dataset_root {T} (d : dataset T) : string :=
  match d with
  | Custom_Dataset root _ _ _ => root
  | subsetCIFAR10 root _ _ _ _ => root
  end.

Definition dataset_transform {T} (d : dataset T) : T :=
  match d with
  | Custom_Dataset _ _ transform _ => transform
  | subsetCIFAR10 _ _ _ transform _ => transform
  end.

(** ["prefix{}.suffix".format(s)] *)
Definition format1 (prefix s suffix : string) : string :=
  String.append prefix (String.append s suffix).

Section FileSystem.

(** [os.path.isdir] *)
Variable isdir : string -> bool.

(** [np.load(path)], read as a list; [None] when there is no such
    file. *)
Variable np_load : string -> option (list Z).

Definition get_imagenet_root_path (root : string)
  : error + (string * path_dict) :=
  if isdir root then inr (root, [])
  else if isdir "/mnt/models/imagenet_new"
  then inr ("/mnt/models/imagenet_new"%string, [("train/", "train_new/")]%string)
  else inl (AssertionError "No dir for imagenet").

Definition get_imagenet_root_split (root customSplit : string)
    (domesticAnimalSplit : bool)
  : error + (string * string * string * string * path_dict) :=
  match get_imagenet_root_path root with
  | inl e => inl e
  | inr (root, pathReplaceDict) =>
      let txt_train := "split/imagenet/imagenet_train.txt"%string in
      let txt_val := "split/imagenet/imagenet_val.txt"%string in
      let txt_test := "split/imagenet/imagenet_val.txt"%string in
      let '(txt_train, txt_val, txt_test) :=
        if domesticAnimalSplit
        then ("split/imagenet/imagenet_domestic_train.txt"%string,
              "split/imagenet/imagenet_domestic_val.txt"%string,
              "split/imagenet/imagenet_domestic_test.txt"%string)
        else (txt_train, txt_val, txt_test) in
      let txt_train :=
        if negb (String.eqb customSplit "")
        then format1 "split/imagenet/" customSplit ".txt"
        else txt_train in
      inr (root, txt_train, txt_val, txt_test, pathReplaceDict)
  end.

Definition get_imagenet100_root_split (root customSplit : string)
  : error + (string * string * string * string * path_dict) :=
  match get_imagenet_root_path root with
  | inl e => inl e
  | inr (root, pathReplaceDict) =>
      let txt_train := "split/imagenet/ImageNet_100_train.txt"%string in
      let txt_val := "split/imagenet/ImageNet_100_val.txt"%string in
      let txt_test := "split/imagenet/ImageNet_100_test.txt"%string in
      let txt_train :=
        if negb (String.eqb customSplit "")
        then format1 "split/imagenet/" customSplit ".txt"
        else txt_train in
      inr (root, txt_train, txt_val, txt_test, pathReplaceDict)
  end.

Definition get_cifar10_data_split (root customSplit : string) (ssl : bool)
  : error + (string * string * option string) :=
  let root_found : error + string :=
    if isdir root then inr root
    else if isdir "../../data" then inr "../../data"%string
    else if isdir "/mnt/models/dataset/" then inr "/mnt/models/dataset/"%string
    else inl (AssertionError "") in
  match root_found with
  | inl e => inl e
  | inr root =>
      if ssl
      then
        if String.eqb customSplit ""
        then inr (root, "split/cifar10/trainValIdxList.npy"%string, None)
        else inl (AssertionError "")
      else
        let train_idx := "split/cifar10/trainIdxList.npy"%string in
        let val_idx := "split/cifar10/valIdxList.npy"%string in
        let train_idx :=
          if negb (String.eqb customSplit "")
          then format1 "split/cifar10/" customSplit ".npy"
          else train_idx in
        inr (root, train_idx, Some val_idx)
  end.

Definition get_pet37_path (root : string) : error + string :=
  if isdir root then inr root
  else if isdir "/mnt/models/Pet37/images/"
  then inr "/mnt/models/Pet37/images/"%string
  else inl (AssertionError "").

Definition get_pet37_data_split (root customSplit : string) (ssl : bool)
  : error + (string * string * option string * option string) :=
  match get_pet37_path root with
  | inl e => inl e
  | inr root =>
      let txt_train := "split/Pet37/Pet37_train.txt"%string in
      let txt_val := "split/Pet37/Pet37_val.txt"%string in
      let txt_test := "split/Pet37/Pet37_test.txt"%string in
      let txt_train :=
        if negb (String.eqb customSplit "")
        then format1 "split/Pet37/" customSplit ".txt"
        else txt_train in
      if ssl
      then
        if String.eqb customSplit ""
        then inr (root, "split/Pet37/Pet37_trainval.txt"%string, None, None)
        else inl (AssertionError "")
      else inr (root, txt_train, Some txt_val, Some txt_test)
  end.

Definition get_food101_path (root : string) : error + string :=
  if isdir root then inr root
  else if isdir "/mnt/models/food-101/images/"
  then inr "/mnt/models/food-101/images/"%string
  else inl (AssertionError "").

Definition get_food101_data_split (root customSplit : string) (ssl : bool)
  : error + (string * string * option string * option string) :=
  match get_food101_path root with
  | inl e => inl e
  | inr root =>
      let txt_train := "split/food-101/food101_train.txt"%string in
      let txt_val := "split/food-101/food101_val.txt"%string in
      let txt_test := "split/food-101/food101_test.txt"%string in
      let txt_train :=
        if negb (String.eqb customSplit "")
        then format1 "split/food-101/" customSplit ".txt"
        else txt_train in
      if ssl
      then
        if String.eqb customSplit ""
        then inr (root, "split/food-101/food101_trainval.txt"%string, None, None)
        else inl (AssertionError "")
      else inr (root, txt_train, Some txt_val, Some txt_test)
  end.

(** The fields of [args] that [init_datasets] reads. *)
Record args : Type := mk_args {
  args_dataset : string;
  args_data : string;
  args_customSplit : string
}.

(** [list(np.load(path))]: a missing file raises, and so does a path
    that is [None]. A file that is there is taken to be one [np.load]
    can read. *)
Definition load_list (path : option string) : error + list Z :=
  match path with
  | None => inl TypeError
  | Some path =>
      match np_load path with
      | Some l => inr l
      | None => inl (FileNotFoundError path)
      end
  end.

Definition init_datasets {T} (a : args) (transform_train transform_test : T)
  : error + (dataset T * dataset T * dataset T) :=
  if String.eqb (args_dataset a) "imagenet" then
    match get_imagenet_root_split (args_data a) (args_customSplit a) false with
    | inl e => inl e
    | inr (root, txt_train, txt_val, txt_test, pathReplaceDict) =>
        inr (Custom_Dataset root (Some txt_train) transform_train
               (Some pathReplaceDict),
             Custom_Dataset root (Some txt_val) transform_test
               (Some pathReplaceDict),
             Custom_Dataset root (Some txt_test) transform_test
               (Some pathReplaceDict))
    end
  else if String.eqb (args_dataset a) "imagenet100" then
    match get_imagenet100_root_split (args_data a) (args_customSplit a) with
    | inl e => inl e
    | inr (root, txt_train, txt_val, txt_test, pathReplaceDict) =>
        inr (Custom_Dataset root (Some txt_train) transform_train
               (Some pathReplaceDict),
             Custom_Dataset root (Some txt_val) transform_test
               (Some pathReplaceDict),
             Custom_Dataset root (Some txt_test) transform_test
               (Some pathReplaceDict))
    end
  else if String.eqb (args_dataset a) "cifar10" then
    match get_cifar10_data_split (args_data a) (args_customSplit a) false with
    | inl e => inl e
    | inr (root, train_idx, val_idx) =>
        match load_list (Some train_idx) with
        | inl e => inl e
        | inr train_idx =>
            match load_list val_idx with
            | inl e => inl e
            | inr val_idx =>
                inr (subsetCIFAR10 root train_idx None transform_train true,
                     subsetCIFAR10 root val_idx None transform_test true,
                     subsetCIFAR10 root [] (Some false) transform_test true)
            end
        end
    end
  else if String.eqb (args_dataset a) "Pet37" then
    match get_pet37_data_split (args_data a) (args_customSplit a) false with
    | inl e => inl e
    | inr (root, txt_train, txt_val, txt_test) =>
        inr (Custom_Dataset root (Some txt_train) transform_train None,
             Custom_Dataset root txt_val transform_test None,
             Custom_Dataset root txt_test transform_test None)
    end
  else if String.eqb (args_dataset a) "food101" then
    match get_food101_data_split (args_data a) (args_customSplit a) false with
    | inl e => inl e
    | inr (root, txt_train, txt_val, txt_test) =>
        inr (Custom_Dataset root (Some txt_train) transform_train None,
             Custom_Dataset root txt_val transform_test None,
             Custom_Dataset root txt_test transform_test None)
    end
  else inl (ValueError (String.append "No such dataset: " (args_dataset a))).

End FileSystem.

(** The dataset names [init_datasets] knows. *)
Definition known_datasets : list string :=
  ["imagenet"; "imagenet100"; "cifar10"; "Pet37"; "food101"]%string.

(** What holds of a result that is returned, not raised. *)
Definition on_return {A} (P : A -> Prop) (r : error + A) : Prop :=
  match r with
  | inr a => P a
  | inl _ => True
  end.

(** A file system where only [/data] is a directory, and one with no
    directory at all. *)
Definition only_data (path : string) : bool := String.eqb path "/data".
Definition no_directory (path : string) : bool := false.

(** No index file can be loaded. *)
Definition no_file (path : string) : option (list Z) := None.

End init_datasets.

(** ** Arguments to run [init_datasets] on *)
Definition pet37_args : init_datasets.args :=
  init_datasets.mk_args "Pet37" "/data" "fewshot".

Definition imagenet_args : init_datasets.args :=
  init_datasets.mk_args "imagenet" "/data" "".

(** * Further quantities for the statistics *)

(** How many items of [l] satisfy [p]. *)
Definition count_if {A} (p : A -> bool) (l : list A) : nat :=
  length (List.filter p l).

(** A list in ascending order. *)
Fixpoint ascending (l : list Q) : Prop :=
  match l with
  | [] => True
  | x :: l' => Forall (Qle x) l' /\ ascending l'
  end.

(** A statistic a process has fed with the updates [us]. *)
Definition statistic_of (window_size : option nat) (fmt : option string)
    (us : list (Q * Z)) : SmoothedValue.t :=
  SmoothedValue.updates us (SmoothedValue.__init__ window_size fmt).

(** The names registered in a logger, in dict order. *)
Definition meter_names (ml : MetricLogger.t) : list string :=
  map fst (MetricLogger.meters ml).

(** One keyword argument of [MetricLogger.update]. *)
Definition metric_update_one (kv : string * Q) (s : MetricLogger.t)
  : MetricLogger.t :=
  let '(m, s') := MetricLogger.meters_getitem (fst kv) s in
  MetricLogger.mk
    (MetricLogger.dict_set (fst kv) (SmoothedValue.update (snd kv) 1 m)
       (MetricLogger.meters s'))
    (MetricLogger.delimiter s') (MetricLogger.log s').

(** * Rendering, [log_every] and [evaluate]

    Python's [str.format] is taken as a parameter; [time.time()],
    [torch.cuda.is_available()] and [torch.cuda.max_memory_allocated()]
    are read from the environment, taken as parameters too. What is
    passed to [log.info] is kept as a record of the values that go into
    the message. *)
Module logging.

Inductive log_line : Type :=
| Progress (i len : nat) (eta_seconds : Z) (meters time data : string)
    (memory : option Q)
| Summary (header : string) (total_seconds : Z) (seconds_per_it : Q)
| Final (acc1 acc5 loss : Q).

Definition progress_index (l : log_line) : option nat :=
  match l with
  | Progress i _ _ _ _ _ _ => Some i
  | _ => None
  end.

Section Rendering.

(** [fmt.format(median=..., avg=..., global_avg=..., max=..., value=...)],
    for templates [str.format] accepts: the default one and the
    [{value:.6f}] of the [lr] meter. *)
Variable format : string -> SmoothedValue.views -> string.

(** [SmoothedValue.__str__]: the five views are evaluated before the
    template is filled in. *)
Definition SmoothedValue__str__ (self : SmoothedValue.t) : result string :=
  let? v := SmoothedValue.__str__args self in
  Ok (format (SmoothedValue.fmt self) v).

(** The list [loss_str] that [MetricLogger.__str__] builds. *)
Fixpoint loss_str (meters : list (string * SmoothedValue.t))
  : result (list string) :=
  match meters with
  | [] => Ok []
  | (name, meter) :: meters' =>
      let? s := SmoothedValue__str__ meter in
      let? rest := loss_str meters' in
      Ok (String.append name (String.append ": " s) :: rest)
  end.

(** [MetricLogger.__str__] *)
Definition MetricLogger__str__ (self : MetricLogger.t) : result string :=
  let? l := loss_str (MetricLogger.meters self) in
  Ok (String.concat (MetricLogger.delimiter self) l).

Section LogEvery.

(** The successive readings of [time.time()]. *)
Variable clock : nat -> Q.
Variable cuda_is_available : bool.
(** [torch.cuda.max_memory_allocated()] when the progress line of
    iteration [i] is written. *)
Variable max_memory_allocated : nat -> Q.

(** The items, and the state of the consumer of the generator next to
    the logger it updates. *)
Context {A St : Type}.

(** The body of the [for] loop that consumes the generator. *)
Variable body : A -> MetricLogger.t * St -> (MetricLogger.t * St) * result unit.

(** The local variables of the generator, what it has logged and what it
    has yielded. *)
Record generator : Type := mk_generator {
  user : MetricLogger.t * St;
  i : nat;
  end_ : Q;
  iter_time : SmoothedValue.t;
  data_time : SmoothedValue.t;
  ticks : nat;
  lines : list log_line;
  yielded : list A
}.

(** [i % print_freq == 0 or i == len(iterable) - 1] *)
Definition due (print_freq : Z) (len i : nat) : result bool :=
  if (print_freq =? 0)%Z then Raise ZeroDivisionError
  else Ok ((Z.of_nat i mod print_freq =? 0)%Z
           || (Z.of_nat i =? Z.of_nat len - 1)%Z).

Definition MB : Q := 1024 * 1024.

(** The progress line of the current iteration: the callee [self.log.info]
    is evaluated before its arguments. *)
Definition progress_line (len : nat) (g : generator) : result log_line :=
  let? avg := SmoothedValue.global_avg (iter_time g) in
  let eta_seconds := (avg * inject_Z (Z.of_nat len - Z.of_nat (i g)))%Q in
  let eta := int eta_seconds in
  match MetricLogger.log (fst (user g)) with
  | None => Raise AttributeError
  | Some _ =>
      let? meters := MetricLogger__str__ (fst (user g)) in
      let? time := SmoothedValue__str__ (iter_time g) in
      let? data := SmoothedValue__str__ (data_time g) in
      Ok (Progress (i g) len eta meters time data
            (if cuda_is_available
             then Some (max_memory_allocated (i g) / MB)%Q
             else None))
  end.

(** One turn of the [for obj in iterable] loop of the generator, the
    consumer's body running at the [yield]. *)
Definition log_every_step (len : nat) (print_freq : Z) (obj : A) (g : generator)
  : generator * result unit :=
  let waited :=
    SmoothedValue.update (clock (ticks g) - end_ g) 1 (data_time g) in
  let '(u, r) := body obj (user g) in
  let g :=
    mk_generator u (i g) (end_ g) (iter_time g) waited (S (ticks g))
      (lines g) (yielded g ++ [obj]) in
  match r with
  | Raise e => (g, Raise e)
  | Ok _ =>
      let processed :=
        SmoothedValue.update (clock (ticks g) - end_ g) 1 (iter_time g) in
      let g :=
        mk_generator (user g) (i g) (end_ g) processed (data_time g)
          (S (ticks g)) (lines g) (yielded g) in
      match due print_freq len (i g) with
      | Raise e => (g, Raise e)
      | Ok d =>
          let logged :=
            if d
            then let? l := progress_line len g in Ok (lines g ++ [l])
            else Ok (lines g) in
          match logged with
          | Raise e => (g, Raise e)
          | Ok logged =>
              (mk_generator (user g) (S (i g)) (clock (ticks g))
                 (iter_time g) (data_time g) (S (ticks g)) logged
                 (yielded g),
               Ok tt)
          end
      end
  end.

Fixpoint log_every_loop (len : nat) (print_freq : Z) (iterable : list A)
    (g : generator) : generator * result unit :=
  match iterable with
  | [] => (g, Ok tt)
  | obj :: rest =>
      match log_every_step len print_freq obj g with
      | (g, Ok _) => log_every_loop len print_freq rest g
      | (g, Raise e) => (g, Raise e)
      end
  end.

(** The line written once the iterable is exhausted. *)
Definition summary_line (header : string) (start_time : Q) (len : nat)
    (g : generator) : result log_line :=
  let total_time := (clock (ticks g) - start_time)%Q in
  match MetricLogger.log (fst (user g)) with
  | None => Raise AttributeError
  | Some _ =>
      if (len =? 0)%nat then Raise ZeroDivisionError
      else Ok (Summary header (int total_time)
                 (total_time / inject_Z (Z.of_nat len))%Q)
  end.

(** [for obj in self.log_every(iterable, print_freq, header): body] *)
Definition log_every (iterable : list A) (print_freq : Z)
    (header : option string) (u : MetricLogger.t * St)
  : generator * result unit :=
  let header := default ""%string header in
  let start_time := clock 0 in
  let end_0 := clock 1 in
  let fresh := SmoothedValue.__init__ (Some 20%nat) (Some "{avg:.4f}"%string) in
  let g := mk_generator u 0 end_0 fresh fresh 2 [] [] in
  match log_every_loop (length iterable) print_freq iterable g with
  | (g, Raise e) => (g, Raise e)
  | (g, Ok _) =>
      match summary_line header start_time (length iterable) g with
      | Raise e => (g, Raise e)
      | Ok l =>
          (mk_generator (user g) (i g) (end_ g) (iter_time g) (data_time g)
             (S (ticks g)) (lines g ++ [l]) (yielded g),
           Ok tt)
      end
  end.

End LogEvery.

End Rendering.

End logging.

(** A statistic that can be rendered: its count is not zero and its
    window is not empty. *)
Definition renderable (s : SmoothedValue.t) : Prop :=
  SmoothedValue.count s <> 0%Z /\ Deque.items (SmoothedValue.deque s) <> [].

(** The iterations of a loop of [len] turns at which [log_every] writes
    a progress line. *)
Definition progress_due (print_freq : Z) (len i : nat) : bool :=
  (Z.of_nat i mod print_freq =? 0)%Z || (Z.of_nat i =? Z.of_nat len - 1)%Z.

(** * [evaluate]

    The model in evaluation mode, the cross entropy criterion and
    [timm.utils.accuracy] are collaborators, taken as parameters; the
    losses and accuracies are rationals. *)
Module evaluation.

Section Evaluate.

Variable format : string -> SmoothedValue.views -> string.
Variable clock : nat -> Q.
Variable cuda_is_available : bool.
Variable max_memory_allocated : nat -> Q.

Variables Images Target Output : Type.

Record collaborators : Type := mk_collaborators {
  (** [model(images)] after [model.eval()] *)
  model_call : Images -> Output;
  (** [torch.nn.CrossEntropyLoss()(output, target).item()] *)
  criterion : Output -> Target -> Q;
  (** [accuracy(output, target, topk=(1, 5))], both unwrapped *)
  accuracy : Output -> Target -> Q * Q;
  (** [images.shape[0]] *)
  batch_size : Images -> nat
}.

Variable C : collaborators.

(** [metric_logger.meters[name].update(value, n=n)] *)
Definition meter_update (name : string) (value : Q) (n : Z)
    (ml : MetricLogger.t) : MetricLogger.t :=
  let '(m, ml') := MetricLogger.meters_getitem name ml in
  MetricLogger.mk
    (MetricLogger.dict_set name (SmoothedValue.update value n m)
       (MetricLogger.meters ml'))
    (MetricLogger.delimiter ml') (MetricLogger.log ml').

(** The body of the loop over the batches. *)
Definition evaluate_body (batch : Images * Target) (u : MetricLogger.t * unit)
  : (MetricLogger.t * unit) * result unit :=
  let '(images, target) := batch in
  let output := model_call C images in
  let loss := criterion C output target in
  let '(acc1, acc5) := accuracy C output target in
  let n := Z.of_nat (batch_size C images) in
  let ml := MetricLogger.update [("loss"%string, loss)] (fst u) in
  let ml := meter_update "acc1" acc1 n ml in
  let ml := meter_update "acc5" acc5 n ml in
  ((ml, tt), Ok tt).

(** [metric_logger.name.global_avg], for a name that must be a meter. *)
Definition meter_global_avg (ml : MetricLogger.t) (name : string) : result Q :=
  match MetricLogger.getattr ml name with
  | Ok (MetricLogger.AMeter m) => SmoothedValue.global_avg m
  | Ok _ => Raise AttributeError
  | Raise e => Raise e
  end.

(** [{k: meter.global_avg for k, meter in meters.items()}] *)
Fixpoint global_avgs (meters : list (string * SmoothedValue.t))
  : result (list (string * Q)) :=
  match meters with
  | [] => Ok []
  | (k, meter) :: meters' =>
      let? g := SmoothedValue.global_avg meter in
      let? rest := global_avgs meters' in
      Ok ((k, g) :: rest)
  end.

(** [evaluate(data_loader, model, device, log)]: what is logged, and the
    averages that are returned. *)
Definition evaluate (data_loader : list (Images * Target))
    (log : option MetricLogger.logger)
    (rank : nat) (peers : nat -> list (Q * Q))
  : list logging.log_line * result (list (string * Q)) :=
  let metric_logger := MetricLogger.__init__ "  " log in
  match
    logging.log_every format clock cuda_is_available max_memory_allocated
      evaluate_body data_loader 10 (Some "Test:"%string) (metric_logger, tt)
  with
  | (g, Raise e) => (logging.lines g, Raise e)
  | (g, Ok _) =>
      let metric_logger :=
        fst (MetricLogger.synchronize_between_processes rank peers
               (fst (logging.user g))) in
      let final :=
        match log with
        | None => Raise AttributeError
        | Some _ =>
            let? top1 := meter_global_avg metric_logger "acc1" in
            let? top5 := meter_global_avg metric_logger "acc5" in
            let? losses := meter_global_avg metric_logger "loss" in
            Ok (logging.Final top1 top5 losses)
        end in
      match final with
      | Raise e => (logging.lines g, Raise e)
      | Ok l =>
          (logging.lines g ++ [l],
           global_avgs (MetricLogger.meters metric_logger))
      end
  end.

End Evaluate.

Arguments mk_collaborators {Images Target Output}.
Arguments model_call {Images Target Output}.
Arguments criterion {Images Target Output}.
Arguments accuracy {Images Target Output}.
Arguments batch_size {Images Target Output}.
Arguments evaluate_body {Images Target Output}.
Arguments evaluate format clock cuda_is_available max_memory_allocated
  {Images Target Output}.

End evaluation.

(** ** A small evaluation run

    A batch is the triple of its loss, its top-1 accuracy and its size;
    the clock advances by one second at each reading. *)
Definition plain_format (template : string) (v : SmoothedValue.views) : string :=
  template.

Definition second_clock (k : nat) : Q := inject_Z (Z.of_nat k).

Definition triple_collaborators
  : evaluation.collaborators (Q * Q * nat) unit (Q * Q * nat) :=
  evaluation.mk_collaborators
    (fun images => images)
    (fun output _ => fst (fst output))
    (fun output _ => (snd (fst output), 100%Q))
    (fun images => snd images).

Definition three_batches : list ((Q * Q * nat) * unit) :=
  [((1%Q, 50%Q, 2%nat), tt); ((3%Q, 100%Q, 6%nat), tt); ((2%Q, 0%Q, 2%nat), tt)].

(** A statistic whose count cannot be brought back to zero by positive
    weights and whose window keeps what it is given. *)
Definition healthy (s : SmoothedValue.t) : Prop :=
  (0 <= SmoothedValue.count s)%Z /\
  Deque.maxlen (SmoothedValue.deque s) <> Some 0%nat.

(** The updates [evaluate] applies to its three statistics over a data
    loader: the loss with weight 1, the accuracies with the batch size. *)
Definition loss_updates {Images Target Output}
    (C : evaluation.collaborators Images Target Output)
    (data_loader : list (Images * Target)) : list (Q * Z) :=
  map (fun b =>
         (evaluation.criterion C (evaluation.model_call C (fst b)) (snd b), 1%Z))
      data_loader.

Definition acc1_updates {Images Target Output}
    (C : evaluation.collaborators Images Target Output)
    (data_loader : list (Images * Target)) : list (Q * Z) :=
  map (fun b =>
         (fst (evaluation.accuracy C (evaluation.model_call C (fst b)) (snd b)),
          Z.of_nat (evaluation.batch_size C (fst b))))
      data_loader.

Definition acc5_updates {Images Target Output}
    (C : evaluation.collaborators Images Target Output)
    (data_loader : list (Images * Target)) : list (Q * Z) :=
  map (fun b =>
         (snd (evaluation.accuracy C (evaluation.model_call C (fst b)) (snd b)),
          Z.of_nat (evaluation.batch_size C (fst b))))
      data_loader.

(** The logger of [evaluate] once the batches [done] have been seen. *)
Definition eval_logger {Images Target Output}
    (C : evaluation.collaborators Images Target Output)
    (log : option MetricLogger.logger) (done : list (Images * Target))
  : MetricLogger.t :=
  fold_left (fun ml b => fst (fst (evaluation.evaluate_body C b (ml, tt))))
    done (MetricLogger.__init__ "  " log).

(** ** The calls of the training loop, by kind *)

Definition is_zero_grad (c : engine.call) : bool :=
  match c with engine.ZeroGrad => true | _ => false end.

Definition is_loss_scaler (c : engine.call) : bool :=
  match c with engine.LossScaler _ _ _ => true | _ => false end.

Definition is_ema_update (c : engine.call) : bool :=
  match c with engine.EmaUpdate => true | _ => false end.

(** A call the body of the loop makes before the finiteness test. *)
Definition forward_call (c : engine.call) : bool :=
  match c with
  | engine.AdjustLearningRate _ | engine.ModelForward _ | engine.Criterion
  | engine.CollectMoeActivation | engine.CollectNoisyGatingLoss => true
  | engine.MetricUpdateLoss name _ => String.eqb name "loss_gate"
  | _ => false
  end.

(** What a call puts on the [loss] meter is finite; any other call
    passes. *)
Definition loss_meter_finite (c : engine.call) : bool :=
  match c with
  | engine.MetricUpdateLoss name v =>
      if String.eqb name "loss" then torch.isfinite v else true
  | _ => true
  end.

(** The call of the schedule at the head of an iteration, if it is on. *)
Definition schedule_calls (A : engine.args) (epoch len data_iter_step : nat)
  : list engine.call :=
  if engine.kaiming_sched A
  then [engine.AdjustLearningRate (engine.epoch_progress epoch len data_iter_step)]
  else [].

(** The contrastive loss on a plain architecture. *)
Definition args_contrastive : engine.args :=
  engine.mk_args true 1 false "deit_small" 0.

(** A loss that is not negative, when it is finite. *)
Definition not_negative (l : torch.loss) : Prop :=
  match l with torch.Finite x => (0 <= x)%R | torch.NonFinite => True end.


(** ** The window as [median] reads it

    [median] goes through [torch.tensor(list(self.deque))]: the Python
    floats the loops store are rounded to float32 there, and [.item()]
    gives the rounded value back as it is. The rounding, of values within
    the range of float32, is taken as a parameter. *)
Definition as_tensor (float32 : Q -> Q) (self : SmoothedValue.t)
  : SmoothedValue.t :=
  SmoothedValue.mk
    (Deque.mk (map float32 (Deque.items (SmoothedValue.deque self)))
              (Deque.maxlen (SmoothedValue.deque self)))
    (SmoothedValue.total self) (SmoothedValue.count self)
    (SmoothedValue.fmt self).

(** [torch.tensor(list(self.deque)).median().item()] *)
Definition median_float32 (float32 : Q -> Q) (self : SmoothedValue.t) : scalar :=
  SmoothedValue.median (as_tensor float32 self).

(** A coarse rounding to try the views on: towards zero, to a multiple of
    1/2. *)
Definition halves (x : Q) : Q := (int (x * 2) # 2)%Q.

(** An unknown dataset name: [Pet37] in lower case. *)
Definition lowercase_pet37_args : init_datasets.args :=
  init_datasets.mk_args "pet37" "/data" "".

(** * Properties *)

(** ** [SmoothedValue]: running totals *)
Section SmoothedValueTotals.

Import SmoothedValue.

Lemma updates_cons u us s :
  updates (u :: us) s = updates us (update (fst u) (snd u) s).
Proof. reflexivity. Qed.

Lemma count_updates us s :
  count (updates us s) = (count s + weight_sum us)%Z.
Proof.
  revert s; induction us as [|u us IH]; intros s.
  - simpl. lia.
  - rewrite updates_cons, IH. simpl. lia.
Qed.

Lemma total_updates us s :
  (total (updates us s) == total s + weighted_sum us)%Q.
Proof.
  revert s; induction us as [|u us IH]; intros s.
  - simpl. ring.
  - rewrite updates_cons, IH. simpl. ring.
Qed.

Lemma fmt_updates us s : fmt (updates us s) = fmt s.
Proof.
  revert s; induction us as [|u us IH]; intros s; [done|].
  rewrite updates_cons, IH. done.
Qed.

Lemma global_avg_ok s :
  count s <> 0%Z ->
  global_avg s = Ok (total s / inject_Z (count s))%Q.
Proof.
  intros H. unfold global_avg.
  destruct (Z.eqb_spec (count s) 0); [contradiction|reflexivity].
Qed.

End SmoothedValueTotals.

(** C8: reading [global_avg] on a statistic whose [count] is zero, as it
    is when no update was ever applied, raises the division by zero
    error instead of returning a value. *)
Theorem global_avg_zero_count (s : SmoothedValue.t) :
  SmoothedValue.count s = 0%Z ->
  SmoothedValue.global_avg s = Raise ZeroDivisionError.
Proof.
  intros H. unfold SmoothedValue.global_avg. rewrite H. reflexivity.
Qed.

Lemma global_avg_zero_count_witness :
  SmoothedValue.count (SmoothedValue.__init__ (Some 20%nat) None) = 0%Z /\
  SmoothedValue.global_avg (SmoothedValue.__init__ (Some 20%nat) None)
  = Raise ZeroDivisionError.
Proof.
  split; [reflexivity|].
  apply (global_avg_zero_count (SmoothedValue.__init__ (Some 20%nat) None)).
  reflexivity.
Defined.

(** C4 (as amended): after any sequence of [update(v, w)] calls whose
    weights do not sum to zero, [global_avg] returns the sum of the
    [v_i * w_i] divided by the sum of the [w_i], exactly, whatever the
    window capacity and the format given at construction. *)
Theorem global_avg_weighted_mean
    (window_size : option nat) (fmt : option string) (us : list (Q * Z)) :
  weight_sum us <> 0%Z ->
  exists g,
    SmoothedValue.global_avg
      (SmoothedValue.updates us (SmoothedValue.__init__ window_size fmt)) = Ok g /\
    (g == weighted_sum us / inject_Z (weight_sum us))%Q.
Proof.
  intros Hw.
  set (s := SmoothedValue.updates us _).
  assert (Hc : SmoothedValue.count s = weight_sum us).
  { unfold s. rewrite count_updates. simpl. lia. }
  exists (SmoothedValue.total s / inject_Z (SmoothedValue.count s))%Q. split.
  - apply global_avg_ok. congruence.
  - rewrite Hc. unfold s. rewrite total_updates. simpl.
    rewrite Qplus_0_l. reflexivity.
Qed.

Lemma global_avg_weighted_mean_witness :
  weight_sum [(3%Q, 1%Z); ((1 # 2)%Q, 4%Z)] <> 0%Z /\
  exists g,
    SmoothedValue.global_avg
      (SmoothedValue.updates [(3%Q, 1%Z); ((1 # 2)%Q, 4%Z)]
         (SmoothedValue.__init__ (Some 1%nat) None)) = Ok g /\
    (g == weighted_sum [(3%Q, 1%Z); ((1 # 2)%Q, 4%Z)]
          / inject_Z (weight_sum [(3%Q, 1%Z); ((1 # 2)%Q, 4%Z)]))%Q.
Proof.
  split; [vm_compute; discriminate|].
  apply (global_avg_weighted_mean (Some 1%nat) None [(3%Q, 1%Z); ((1 # 2)%Q, 4%Z)]).
  vm_compute; discriminate.
Defined.

(** C4 as stated fails: one call [update(2, 0)] is a sequence with at
    least one call, and [global_avg] then raises instead of returning the
    quotient. *)
Lemma global_avg_zero_weight_counterexample :
  let us := [(2%Q, 0%Z)] in
  (1 <= length us)%nat /\
  SmoothedValue.global_avg (SmoothedValue.updates us SmoothedValue.default)
  = Raise ZeroDivisionError /\
  ~ exists g,
      SmoothedValue.global_avg (SmoothedValue.updates us SmoothedValue.default)
      = Ok g.
Proof.
  cbv zeta. split; [simpl; lia|]. split; [reflexivity|].
  intros [g Hg]. discriminate Hg.
Qed.

(** C10: on a freshly created [SmoothedValue], no read view gives a
    number: [value] and [max] raise on the empty window, [median] and
    [avg] are the [nan] of an empty tensor, [global_avg] raises, and so
    does the rendering that reads them all. *)
Theorem fresh_views_fail (window_size : option nat) (fmt : option string) :
  let s := SmoothedValue.__init__ window_size fmt in
  SmoothedValue.value s = Raise IndexError /\
  SmoothedValue.max s = Raise ValueError /\
  SmoothedValue.median s = NaN /\
  SmoothedValue.avg s = NaN /\
  SmoothedValue.global_avg s = Raise ZeroDivisionError /\
  SmoothedValue.__str__args s = Raise ZeroDivisionError.
Proof. cbv zeta. repeat split; reflexivity. Qed.

(** ** [SmoothedValue]: the window *)
Section Window.

Import SmoothedValue.

Lemma last_values_length {A} c (vs : list A) :
  length (last_values c vs) = Nat.min c (length vs).
Proof. unfold last_values. rewrite length_drop. lia. Qed.

Lemma last_values_short {A} c (vs : list A) :
  (length vs <= c)%nat -> last_values c vs = vs.
Proof.
  intros H. unfold last_values.
  replace (length vs - c)%nat with 0%nat by lia. reflexivity.
Qed.

(** Dropping the oldest of [c + 1] stored values does not change the
    last [c] of what follows. *)
Lemma last_values_drop_oldest {A} c (l vs : list A) :
  length l = S c ->
  last_values c (drop 1 l ++ vs) = last_values c (l ++ vs).
Proof.
  intros Hl. unfold last_values.
  destruct l as [|x l]; [discriminate|]. simpl in *.
  replace (S (length (l ++ vs)) - c)%nat with (S (length (l ++ vs) - c))
    by (rewrite length_app; lia).
  reflexivity.
Qed.

Lemma maxlen_appends vs d : Deque.maxlen (Deque.appends vs d) = Deque.maxlen d.
Proof.
  revert d; induction vs as [|v vs IH]; intros d; [done|].
  simpl. rewrite IH. done.
Qed.

(** A bounded deque that is not over its capacity holds, after any
    appends, the last [c] of everything it was given. *)
Lemma items_appends c vs l :
  (length l <= c)%nat ->
  Deque.items (Deque.appends vs (Deque.mk l (Some c))) = last_values c (l ++ vs).
Proof.
  revert l; induction vs as [|v vs IH]; intros l Hl.
  - simpl. rewrite app_nil_r. symmetry. by apply last_values_short.
  - change (Deque.appends (v :: vs) ?d) with (Deque.appends vs (Deque.append v d)).
    unfold Deque.append. cbn [Deque.items Deque.maxlen].
    destruct (Nat.ltb_spec c (length (l ++ [v]))) as [Hlt|Hge].
    + rewrite length_app in Hlt. simpl in Hlt.
      assert (Hlen : length (l ++ [v]) = S c)
        by (rewrite length_app; simpl; lia).
      rewrite IH by (rewrite length_drop, Hlen; lia).
      rewrite (last_values_drop_oldest c _ vs Hlen).
      by rewrite <- app_assoc.
    + rewrite IH by done. by rewrite <- app_assoc.
Qed.

(** An unbounded deque keeps everything. *)
Lemma items_appends_unbounded vs l :
  Deque.items (Deque.appends vs (Deque.mk l None)) = l ++ vs.
Proof.
  revert l; induction vs as [|v vs IH]; intros l.
  - simpl. by rewrite app_nil_r.
  - change (Deque.appends (v :: vs) ?d) with (Deque.appends vs (Deque.append v d)).
    unfold Deque.append. cbn [Deque.items Deque.maxlen].
    rewrite IH. by rewrite <- app_assoc.
Qed.

Lemma deque_updates us s :
  deque (updates us s) = Deque.appends (map fst us) (deque s).
Proof.
  revert s; induction us as [|u us IH]; intros s; [done|].
  rewrite updates_cons, IH. done.
Qed.

Lemma window_updates c fmt us :
  Deque.items (deque (updates us (__init__ (Some c) fmt)))
  = last_values c (map fst us).
Proof.
  rewrite deque_updates. simpl.
  unfold Deque.empty. rewrite items_appends by (simpl; lia). done.
Qed.

Lemma views_of_items s1 s2 :
  Deque.items (deque s1) = Deque.items (deque s2) ->
  median s1 = median s2 /\ avg s1 = avg s2 /\
  max s1 = max s2 /\ value s1 = value s2.
Proof.
  intros H. unfold median, avg, max, value. rewrite H. done.
Qed.

End Window.

(** C7: with a window of capacity [c], the views [median], [avg], [max]
    and [value] are determined by the last [min(c, n)] values passed to
    [update]: two sequences of updates that end with the same such values
    give the same four views, whatever came before and whatever the
    weights. *)
Theorem window_views_depend_on_last_values
    (c : nat) (fmt1 fmt2 : option string) (us1 us2 : list (Q * Z)) :
  last_values c (map fst us1) = last_values c (map fst us2) ->
  let s1 := SmoothedValue.updates us1 (SmoothedValue.__init__ (Some c) fmt1) in
  let s2 := SmoothedValue.updates us2 (SmoothedValue.__init__ (Some c) fmt2) in
  SmoothedValue.median s1 = SmoothedValue.median s2 /\
  SmoothedValue.avg s1 = SmoothedValue.avg s2 /\
  SmoothedValue.max s1 = SmoothedValue.max s2 /\
  SmoothedValue.value s1 = SmoothedValue.value s2.
Proof.
  intros H s1 s2. apply views_of_items.
  unfold s1, s2. rewrite !window_updates. exact H.
Qed.

Lemma window_views_depend_on_last_values_witness :
  let us1 := [(1%Q, 1%Z); (5%Q, 1%Z); (7%Q, 1%Z)] in
  let us2 := [(9%Q, 3%Z); (4%Q, 3%Z); (5%Q, 1%Z); (7%Q, 2%Z)] in
  last_values 2 (map fst us1) = last_values 2 (map fst us2) /\
  let s1 := SmoothedValue.updates us1 (SmoothedValue.__init__ (Some 2%nat) None) in
  let s2 := SmoothedValue.updates us2 (SmoothedValue.__init__ (Some 2%nat) None) in
  SmoothedValue.median s1 = SmoothedValue.median s2 /\
  SmoothedValue.avg s1 = SmoothedValue.avg s2 /\
  SmoothedValue.max s1 = SmoothedValue.max s2 /\
  SmoothedValue.value s1 = SmoothedValue.value s2.
Proof.
  cbv zeta. split; [reflexivity|].
  apply (window_views_depend_on_last_values 2 None None
           [(1%Q, 1%Z); (5%Q, 1%Z); (7%Q, 1%Z)]
           [(9%Q, 3%Z); (4%Q, 3%Z); (5%Q, 1%Z); (7%Q, 2%Z)]).
  reflexivity.
Defined.

(** ** Synchronization between processes *)
Section Synchronize.

Import SmoothedValue.

Lemma inject_Z_plus_eq a b : (inject_Z a + inject_Z b)%Q = inject_Z (a + b).
Proof. unfold Qplus, inject_Z. simpl. f_equal. lia. Qed.

Lemma int_inject_Z z : int (inject_Z z) = z.
Proof. unfold int. simpl. apply Z.quot_1_r. Qed.

Lemma fold_tensor2_add_fst ss a t :
  fst (fold_left dist.tensor2_add (map sync_tensor ss) (inject_Z a, t))
  = inject_Z (a + sumZ (map count ss)).
Proof.
  revert a t; induction ss as [|s ss IH]; intros a t.
  - simpl. f_equal. lia.
  - simpl. unfold dist.tensor2_add at 2. simpl.
    rewrite inject_Z_plus_eq, IH. f_equal. lia.
Qed.

Lemma fold_tensor2_add_snd ss a t :
  (snd (fold_left dist.tensor2_add (map sync_tensor ss) (a, t))
   == t + SmoothedValue.sum (map total ss))%Q.
Proof.
  revert a t; induction ss as [|s ss IH]; intros a t.
  - simpl. ring.
  - simpl. unfold dist.tensor2_add at 2. simpl.
    rewrite IH. ring.
Qed.

Lemma contributions_map {A B} (f : A -> B) rank peers mine :
  dist.contributions rank (map f peers) (f mine)
  = map f (dist.contributions rank peers mine).
Proof.
  unfold dist.contributions.
  by rewrite map_app, <- !fmap_take, <- !fmap_drop.
Qed.

Lemma sumZ_app l1 l2 : sumZ (l1 ++ l2) = (sumZ l1 + sumZ l2)%Z.
Proof. induction l1; simpl; lia. Qed.

Lemma sumQ_app l1 l2 : (SmoothedValue.sum (l1 ++ l2) == SmoothedValue.sum l1 + SmoothedValue.sum l2)%Q.
Proof. induction l1 as [|x l1 IH]; simpl; [ring|rewrite IH; ring]. Qed.

Lemma sumZ_contributions rank (peers : list t) (mine : t) :
  sumZ (map count (dist.contributions rank peers mine))
  = (count mine + sumZ (map count peers))%Z.
Proof.
  unfold dist.contributions.
  rewrite <- (take_drop rank peers) at 3.
  rewrite !map_app, !sumZ_app. simpl. lia.
Qed.

Lemma sumQ_contributions rank (peers : list t) (mine : t) :
  (SmoothedValue.sum (map total (dist.contributions rank peers mine))
   == total mine + SmoothedValue.sum (map total peers))%Q.
Proof.
  unfold dist.contributions.
  rewrite <- (take_drop rank peers) at 3.
  rewrite !map_app, !sumQ_app. simpl. ring.
Qed.

(** One statistic: a barrier, then one all-reduce of [count] and
    [total]; both become the sums over all processes and the window is
    kept. *)
Lemma synchronize_statistic rank (others : list t) (s : t) :
  let r := synchronize_between_processes rank (map sync_tensor others) s in
  snd r = [dist.Barrier; dist.AllReduce (sync_tensor s)] /\
  deque (fst r) = deque s /\
  fmt (fst r) = fmt s /\
  count (fst r) = (count s + sumZ (map count others))%Z /\
  (total (fst r) == total s + SmoothedValue.sum (map total others))%Q.
Proof.
  cbv zeta. unfold synchronize_between_processes. simpl.
  repeat split.
  - unfold dist.all_reduce.
    change (inject_Z (count s), total s) with (sync_tensor s).
    rewrite contributions_map.
    change (0%Q) with (inject_Z 0) at 1.
    rewrite fold_tensor2_add_fst, int_inject_Z, sumZ_contributions. lia.
  - unfold dist.all_reduce.
    change (inject_Z (count s), total s) with (sync_tensor s).
    rewrite contributions_map, fold_tensor2_add_snd, sumQ_contributions. ring.
Qed.

(** The logger synchronizes every statistic that way, in dict order. *)
Lemma synchronize_logger rank peers (ml : MetricLogger.t) :
  let r := MetricLogger.synchronize_between_processes rank peers ml in
  MetricLogger.meters (fst r)
  = imap (fun j kv =>
            (fst kv, fst (synchronize_between_processes rank (peers j) (snd kv))))
         (MetricLogger.meters ml) /\
  snd r
  = concat (map (fun kv => [dist.Barrier; dist.AllReduce (sync_tensor (snd kv))])
                (MetricLogger.meters ml)).
Proof.
  cbv zeta. unfold MetricLogger.synchronize_between_processes.
  cbn [fst snd MetricLogger.meters]. split.
  - rewrite (fmap_imap _ fst). apply imap_ext. intros j kv _. reflexivity.
  - f_equal. rewrite (fmap_imap _ snd), <- imap_const.
    apply imap_ext. intros j kv _. reflexivity.
Qed.

Lemma synchronize_example :
  Forall (fun ml =>
            exists m g,
              MetricLogger.dict_get "loss" (MetricLogger.meters ml) = Some m /\
              count m = 8%Z /\ total m = 19%Q /\
              global_avg m = Ok g /\ (g == 2.375)%Q)
         [synced_rank0; synced_rank1].
Proof.
  repeat constructor; eexists; eexists;
    (split; [vm_compute; reflexivity|]);
    repeat split; vm_compute; reflexivity.
Qed.

End Synchronize.

(** C5: [SmoothedValue.synchronize_between_processes] enters one barrier
    and then one all-reduce that replaces [count] and [total] by their
    sums over all processes, and leaves the window as it is;
    [MetricLogger.synchronize_between_processes] does so for each of its
    statistics in turn. Two processes whose [loss] statistics hold
    (count, total) = (3, 9) and (5, 10) both end with count 8, total 19
    and a global average of 2.375. *)
Theorem synchronize_between_processes_sums :
  (forall rank (others : list SmoothedValue.t) (s : SmoothedValue.t),
     let r := SmoothedValue.synchronize_between_processes rank
                (map sync_tensor others) s in
     snd r = [dist.Barrier; dist.AllReduce (sync_tensor s)] /\
     SmoothedValue.deque (fst r) = SmoothedValue.deque s /\
     SmoothedValue.fmt (fst r) = SmoothedValue.fmt s /\
     SmoothedValue.count (fst r)
     = (SmoothedValue.count s + sumZ (map SmoothedValue.count others))%Z /\
     (SmoothedValue.total (fst r)
      == SmoothedValue.total s
         + SmoothedValue.sum (map SmoothedValue.total others))%Q) /\
  (forall rank peers (ml : MetricLogger.t),
     let r := MetricLogger.synchronize_between_processes rank peers ml in
     MetricLogger.meters (fst r)
     = imap (fun j kv =>
               (fst kv,
                fst (SmoothedValue.synchronize_between_processes rank (peers j)
                       (snd kv))))
            (MetricLogger.meters ml) /\
     snd r
     = concat (map (fun kv => [dist.Barrier; dist.AllReduce (sync_tensor (snd kv))])
                   (MetricLogger.meters ml))) /\
  Forall (fun ml =>
            exists m g,
              MetricLogger.dict_get "loss" (MetricLogger.meters ml) = Some m /\
              SmoothedValue.count m = 8%Z /\ SmoothedValue.total m = 19%Q /\
              SmoothedValue.global_avg m = Ok g /\ (g == 2.375)%Q)
         [synced_rank0; synced_rank1].
Proof.
  split; [|split].
  - intros rank others s. apply synchronize_statistic.
  - intros rank peers ml. apply synchronize_logger.
  - apply synchronize_example.
Qed.

(** ** Attribute access on a [MetricLogger] *)
Section GetAttr.

Import MetricLogger.

Lemma getattr_not_ordinary ml attr :
  ordinary_attribute ml attr = false ->
  getattr ml attr = __getattr__ attr ml.
Proof.
  unfold ordinary_attribute, getattr. intros H.
  destruct (dict_get attr (__dict__ ml)); [discriminate|].
  cbv beta iota in H. rewrite orb_false_l in H. rewrite H. reflexivity.
Qed.

Lemma __getattr___registered ml attr m :
  dict_get attr (meters ml) = Some m -> __getattr__ attr ml = Ok (AMeter m).
Proof. unfold __getattr__. intros ->. reflexivity. Qed.

Lemma __getattr___unknown ml attr :
  dict_get attr (meters ml) = None ->
  dict_get attr (__dict__ ml) = None ->
  __getattr__ attr ml = Raise AttributeError.
Proof. unfold __getattr__. intros -> ->. reflexivity. Qed.

End GetAttr.

(** C9 (as amended): on every [MetricLogger], the attribute access of a
    name that is registered in [meters] and is not one of the logger's
    own attributes (the fields [meters], [delimiter] and [log], the
    methods of the class, what [object] provides) returns that name's
    [SmoothedValue]; the access of a name that is neither registered nor
    such an attribute raises [AttributeError]. *)
Theorem getattr_meter_or_error (ml : MetricLogger.t) (attr : string) :
  MetricLogger.ordinary_attribute ml attr = false ->
  MetricLogger.getattr ml attr
  = match MetricLogger.dict_get attr (MetricLogger.meters ml) with
    | Some m => Ok (MetricLogger.AMeter m)
    | None => Raise AttributeError
    end.
Proof.
  intros H. rewrite (getattr_not_ordinary _ _ H).
  destruct (MetricLogger.dict_get attr (MetricLogger.meters ml)) as [m|] eqn:E.
  - by apply __getattr___registered.
  - apply __getattr___unknown; [done|].
    unfold MetricLogger.ordinary_attribute in H.
    destruct (MetricLogger.dict_get attr (MetricLogger.__dict__ ml)); [discriminate|done].
Qed.

Lemma getattr_meter_or_error_witness :
  MetricLogger.ordinary_attribute logger_rank0 "loss" = false /\
  MetricLogger.getattr logger_rank0 "loss"
  = match MetricLogger.dict_get "loss" (MetricLogger.meters logger_rank0) with
    | Some m => Ok (MetricLogger.AMeter m)
    | None => Raise AttributeError
    end.
Proof.
  split; [reflexivity|].
  apply (getattr_meter_or_error logger_rank0 "loss"). reflexivity.
Defined.

(** C9 as stated fails: after [update(log=1)] the name [log] is
    registered in [meters], yet [logger.log] is still the logger object
    given at construction, not the statistic. *)
Lemma getattr_shadowed_counterexample :
  exists m,
    MetricLogger.dict_get "log" (MetricLogger.meters logger_with_log_metric)
    = Some m /\
    MetricLogger.getattr logger_with_log_metric "log"
    = Ok (MetricLogger.ALog (Some 7%nat)) /\
    MetricLogger.getattr logger_with_log_metric "log"
    <> Ok (MetricLogger.AMeter m).
Proof.
  eexists. split; [reflexivity|]. split; [reflexivity|]. discriminate.
Qed.

(** ** The mask of the supervised loss *)
Section Mask.

Import torch.

Lemma zip_map_r {A B} (f : A -> B) (l : list A) :
  zip l (map f l) = map (fun x => (x, f x)) l.
Proof. induction l as [|x l IH]; simpl; [done|by rewrite IH]. Qed.

(** Writing [True] at [(n, n + off)] for the rows [n] that follow [pre],
    when every such column exists. *)
Lemma index_put_rows off (post pre : list (list bool)) :
  (forall n row, post !! n = Some row -> (length pre + n + off < length row)%nat) ->
  fold_left index_put_step
    (map (fun n => (n, n + off)%nat) (seq (length pre) (length post)))
    (Ok (pre ++ post))
  = Ok (pre ++ imap (fun n row => <[(length pre + n + off)%nat := true]> row) post).
Proof.
  revert pre; induction post as [|row post IH]; intros pre Hin; [done|].
  cbn [length seq map fold_left].
  unfold index_put_step at 2. cbn [rbind fst snd].
  rewrite list_lookup_middle by done.
  pose proof (Hin 0%nat row eq_refl) as H0.
  rewrite Nat.add_0_r in H0.
  destruct (Nat.ltb_spec (length pre + off) (length row)) as [_|?]; [|lia].
  replace (<[length pre := <[(length pre + off)%nat := true]> row]> (pre ++ row :: post))
    with ((pre ++ [<[(length pre + off)%nat := true]> row]) ++ post).
  2:{ rewrite <- app_assoc. simpl.
      rewrite insert_app_r_alt by lia. by rewrite Nat.sub_diag. }
  replace (S (length pre))
    with (length (pre ++ [<[(length pre + off)%nat := true]> row]))
    by (rewrite length_app; simpl; lia).
  rewrite IH.
  - rewrite <- app_assoc. simpl. do 2 f_equal. rewrite Nat.add_0_r. f_equal.
    apply imap_ext. intros n r _. simpl.
    rewrite length_app. simpl. f_equal. lia.
  - intros n r Hr. rewrite length_app. simpl.
    specialize (Hin (S n) r Hr). lia.
Qed.

Lemma index_put_true_diagonal off (mask : list (list bool)) :
  (forall n row, mask !! n = Some row -> (n + off < length row)%nat) ->
  index_put_true mask (arange (length mask))
    (map (fun n => n + off)%nat (arange (length mask)))
  = Ok (imap (fun n row => <[(n + off)%nat := true]> row) mask).
Proof.
  intros Hin. unfold index_put_true, arange.
  rewrite zip_map_r.
  exact (index_put_rows off mask [] Hin).
Qed.

Lemma shape_label_mask lq lk :
  shape (label_mask lq lk) = map (fun _ => length lk) lq.
Proof.
  unfold shape, label_mask. rewrite map_map. apply map_ext.
  intros a. by rewrite length_map.
Qed.

Lemma shape_logits q k temp :
  shape (div (einsum_nc_mc_nm q k) temp) = map (fun _ => length k) q.
Proof.
  unfold shape, div, einsum_nc_mc_nm. rewrite !map_map. apply map_ext.
  intros a. by rewrite !length_map.
Qed.

Lemma map_const_length {A B} (c : nat) (l1 : list A) (l2 : list B) :
  length l1 = length l2 ->
  map (fun _ => c) l1 = map (fun _ => c) l2.
Proof.
  revert l2; induction l1 as [|x l1 IH]; intros [|y l2] H; try done.
  simpl in *. f_equal. apply IH. lia.
Qed.

Lemma shape_negb_insert off (mask : list (list bool)) :
  shape (map (map negb) (imap (fun n row => <[(n + off)%nat := true]> row) mask))
  = shape mask.
Proof.
  unfold shape. rewrite map_map.
  rewrite (fmap_imap _ (fun x => length (map negb x))).
  rewrite <- (imap_const length). apply imap_ext. intros n row _.
  simpl. by rewrite length_map, length_insert.
Qed.

Lemma label_mask_lookup lq lk n a :
  lq !! n = Some a ->
  label_mask lq lk !! n = Some (map (fun b => (0 <? Z.abs (a - b))%Z) lk).
Proof. intros H. unfold label_mask. by rewrite list_lookup_fmap, H. Qed.

Lemma label_mask_in_range lq lk off n row :
  (length lq + off <= length lk)%nat ->
  label_mask lq lk !! n = Some row -> (n + off < length row)%nat.
Proof.
  intros Hle H. pose proof (lookup_lt_Some _ _ _ H) as Hn.
  unfold label_mask in H, Hn. rewrite length_map in Hn.
  rewrite list_lookup_fmap in H.
  destruct (lq !! n) as [a|]; [|done]. simpl in H.
  injection H as <-. rewrite length_map. lia.
Qed.

(** The value of [supervised_logits] on well shaped inputs: the logits,
    filled with [-inf] where the mask, with [True] written on the
    positives, is false. *)
Lemma supervised_logits_ok d q k label temp :
  let keys := gather_if_initialized d pg_keys (normalize k) in
  let labels_k := gather_if_initialized d pg_labels label in
  let N := length label in
  length q = N ->
  length keys = length labels_k ->
  (N + N * rank_or_0 d <= length labels_k)%nat ->
  supervised_logits d q k label temp
  = Ok (zip_with (zip_with fill)
          (div (einsum_nc_mc_nm (normalize q) keys) temp)
          (map (map negb)
             (imap (fun n row => <[(n + N * rank_or_0 d)%nat := true]> row)
                   (label_mask label labels_k))),
        rank_or_0 d).
Proof.
  intros keys labels_k N Hq Hk Hpos. unfold supervised_logits.
  fold keys. fold labels_k.
  assert (HN : length (label_mask label labels_k) = N)
    by (unfold label_mask; by rewrite length_map).
  rewrite HN.
  rewrite <- HN at 1 2.
  rewrite index_put_true_diagonal
    by (intros n row; by apply label_mask_in_range).
  cbn [rbind]. unfold masked_fill_neg_inf.
  rewrite bool_decide_eq_true_2; [reflexivity|].
  rewrite shape_negb_insert, shape_label_mask, shape_logits.
  rewrite Hk. apply map_const_length.
  unfold normalize. by rewrite length_map.
Qed.

(** The entries of the filled logits. *)
Lemma filled_entry (logits0 : list (list R)) (label labels_k : list Z) off n m a b v :
  label !! n = Some a ->
  labels_k !! m = Some b ->
  entry logits0 n m = Some v ->
  entry (zip_with (zip_with fill) logits0
           (map (map negb)
              (imap (fun n row => <[(n + off)%nat := true]> row)
                    (label_mask label labels_k)))) n m
  = Some (if (a =? b)%Z && negb (m =? n + off)%nat then NegInf else Fin v).
Proof.
  intros Ha Hb Hv. unfold entry in *.
  destruct (logits0 !! n) as [row0|] eqn:Hrow; [|done].
  rewrite lookup_zip_with, Hrow. cbn [mbind option_bind].
  rewrite list_lookup_fmap, list_lookup_imap.
  rewrite (label_mask_lookup _ _ _ _ Ha). cbn [fmap option_fmap option_map mbind option_bind].
  rewrite lookup_zip_with, Hv. cbn [mbind option_bind].
  rewrite list_lookup_fmap.
  pose proof (lookup_lt_Some _ _ _ Hb) as Hm.
  destruct (Nat.eqb_spec m (n + off)) as [->|Hne].
  - rewrite list_lookup_insert_eq by (by rewrite length_map).
    simpl. by rewrite andb_false_r.
  - rewrite list_lookup_insert_ne by done.
    rewrite list_lookup_fmap, Hb. simpl. rewrite andb_true_r.
    destruct (Z.eqb_spec a b) as [->|Hab].
    + by rewrite Z.sub_diag.
    + destruct (Z.ltb_spec 0 (Z.abs (a - b))); [done|lia].
Qed.

(** A mask that is false everywhere leaves the logits as they are. *)
Lemma fill_nothing_row (row : list R) (mrow : list bool) :
  length row = length mrow ->
  (forall m b, mrow !! m = Some b -> b = false) ->
  zip_with fill row mrow = map Fin row.
Proof.
  revert mrow; induction row as [|x row IH]; intros [|b mrow] Hlen Hall;
    try done.
  simpl in *. rewrite (Hall 0%nat b eq_refl). simpl. f_equal.
  apply IH; [lia|]. intros m b' Hm. exact (Hall (S m) b' Hm).
Qed.

Lemma fill_nothing (t : matrix) (mask : list (list bool)) :
  shape t = shape mask ->
  (forall n m b, entry mask n m = Some b -> b = false) ->
  zip_with (zip_with fill) t mask = map (map Fin) t.
Proof.
  revert mask; induction t as [|row t IH]; intros [|mrow mask] Hs Hall;
    try done.
  simpl in *. injection Hs as Hrow Hs. f_equal.
  - apply fill_nothing_row; [done|]. intros m b. exact (Hall 0%nat m b).
  - apply IH; [done|]. intros n m b. exact (Hall (S n) m b).
Qed.

End Mask.

(** ** The supervised loss *)
Section Supervised.

Import torch.

Lemma logits_entry (q k : list (list R)) temp n m qn km :
  q !! n = Some qn -> k !! m = Some km ->
  entry (div (einsum_nc_mc_nm q k) temp) n m = Some (dot qn km / temp)%R.
Proof.
  intros Hq Hk. unfold entry, div, einsum_nc_mc_nm.
  rewrite !list_lookup_fmap, Hq. simpl.
  by rewrite !list_lookup_fmap, Hk.
Qed.

Lemma gather_single {A} (peers : process_group -> list (list A)) (x : list A) :
  peers single_process = [] ->
  gather_if_initialized (Some single_process) peers x = x.
Proof.
  intros H. unfold gather_if_initialized, concat_all_gather, dist.contributions.
  rewrite H. simpl. apply app_nil_r.
Qed.

(** In one process, whether or not a group is initialized, nothing is
    gathered and the rank is 0. *)
Lemma one_process_context d :
  d = None \/ d = Some single_process ->
  rank_or_0 d = 0%nat /\
  (forall k : matrix, gather_if_initialized d pg_keys k = k) /\
  (forall l : list Z, gather_if_initialized d pg_labels l = l).
Proof.
  intros [-> | ->]; repeat split; intros; try done;
    by apply gather_single.
Qed.

(** With pairwise distinct labels the mask, with its diagonal set, is
    true everywhere. *)
Lemma distinct_labels_mask_nothing (label : list Z) n m b :
  NoDup label ->
  entry (map (map negb)
           (imap (fun n row => <[(n + 0)%nat := true]> row)
                 (label_mask label label))) n m = Some b ->
  b = false.
Proof.
  intros Hnd. unfold entry.
  rewrite list_lookup_fmap, list_lookup_imap.
  unfold label_mask at 1. rewrite list_lookup_fmap.
  destruct (label !! n) as [a|] eqn:Ha; [|done]. simpl.
  rewrite list_lookup_fmap, Nat.add_0_r.
  destruct (decide (m = n)) as [->|Hne].
  - intros H. pose proof (lookup_lt_Some _ _ _ Ha) as Hn.
    rewrite list_lookup_insert_eq in H by (by rewrite length_map).
    simpl in H. congruence.
  - rewrite list_lookup_insert_ne by done.
    rewrite list_lookup_fmap.
    destruct (label !! m) as [c|] eqn:Hc; [|done]. simpl.
    intros [= <-].
    assert (a <> c).
    { intros ->. apply Hne. by eapply NoDup_lookup. }
    destruct (Z.ltb_spec 0 (Z.abs (a - c))); [done|lia].
Qed.

Lemma supervised_logits_distinct d q k label temp :
  d = None \/ d = Some single_process ->
  NoDup label ->
  length label = length q ->
  length k = length q ->
  supervised_logits d q k label temp
  = Ok (map (map Fin) (div (einsum_nc_mc_nm (normalize q) (normalize k)) temp),
        0%nat).
Proof.
  intros Hd Hnd Hl Hk.
  destruct (one_process_context d Hd) as (Hr & Hgk & Hgl).
  rewrite supervised_logits_ok.
  - rewrite Hr, Hgk, Hgl, Nat.mul_0_r. f_equal. f_equal.
    apply fill_nothing.
    + rewrite shape_negb_insert, shape_label_mask, shape_logits.
      unfold normalize at 1. rewrite length_map, Hk, <- Hl.
      apply map_const_length. unfold normalize. by rewrite length_map.
    + intros n m b. by apply distinct_labels_mask_nothing.
  - done.
  - rewrite Hgk, Hgl. unfold normalize. rewrite length_map. lia.
  - rewrite Hr, Hgl. lia.
Qed.

(** The loss of each sample when no logit is masked and every target
    is in range. *)
Lemma nll_rows_fin (L : list (list R)) (targets : list nat) :
  Forall2 (fun row y => (y < length row)%nat) L targets ->
  nll_rows (map (map Fin) L) targets
  = Ok (zip_with (fun row y => Finite (ln (sum (map exp row)) - nth y row 0%R))
                 L targets).
Proof.
  induction 1 as [|row y L targets Hy _ IH]; [done|].
  cbn [map nll_rows zip_with]. unfold nll_row.
  destruct (lookup_lt_is_Some_2 row y Hy) as [x Hx].
  rewrite list_lookup_fmap, Hx. cbn [fmap option_fmap option_map rbind].
  rewrite IH. cbn [rbind].
  rewrite (nth_lookup_Some _ _ 0%R _ Hx), map_map. reflexivity.
Qed.

(** The targets [arange(N) + off] are in range when every row has at
    least [N + off] entries. *)
Lemma targets_in_range (L : list (list R)) (M off : nat) :
  Forall (fun row => length row = M) L ->
  (length L + off <= M)%nat ->
  Forall2 (fun row y => (y < length row)%nat) L
    (map (fun n => n + off)%nat (arange (length L))).
Proof.
  intros Hrows Hle. apply Forall2_same_length_lookup_2.
  - unfold arange. by rewrite length_map, length_seq.
  - intros i row y Hrow Hy. unfold arange in Hy.
    rewrite list_lookup_fmap in Hy.
    destruct (seq 0 (length L) !! i) as [j|] eqn:Hj; [|done].
    apply lookup_seq in Hj as [-> Hi]. simpl in Hy. injection Hy as <-.
    rewrite (Forall_lookup_1 _ _ _ _ Hrows Hrow). lia.
Qed.

Lemma logits_rows (q k : list (list R)) temp :
  Forall (fun row => length row = length k) (div (einsum_nc_mc_nm q k) temp).
Proof.
  unfold div, einsum_nc_mc_nm. rewrite map_map.
  induction q as [|qn q IH]; simpl; constructor; [|done].
  by rewrite !length_map.
Qed.

Lemma length_logits (q k : list (list R)) temp :
  length (div (einsum_nc_mc_nm q k) temp) = length q.
Proof. unfold div, einsum_nc_mc_nm. by rewrite !length_map. Qed.

Lemma length_normalize (t : list (list R)) : length (normalize t) = length t.
Proof. unfold normalize. by rewrite length_map. Qed.

End Supervised.

(** C2 (as amended): on well shaped inputs (one label per query, one
    gathered label per gathered key, the positives within the gathered
    batch), [supervised_contrastive_loss] sets to [-inf] exactly the
    logits of the pairs [(n, m)] whose labels are equal, except the
    positive pair [(n, n + N * rank)], which is never masked. *)
Theorem supervised_masks_equal_labels
    (d : distributed) (q k : torch.matrix) (label : list Z) (temp : R) :
  let keys := gather_if_initialized d pg_keys (torch.normalize k) in
  let labels_k := gather_if_initialized d pg_labels label in
  let N := length label in
  let rank := rank_or_0 d in
  length q = N ->
  length keys = length labels_k ->
  (N + N * rank <= length labels_k)%nat ->
  exists logits,
    supervised_logits d q k label temp = Ok (logits, rank) /\
    forall n m a b,
      label !! n = Some a -> labels_k !! m = Some b ->
      exists x, torch.entry logits n m = Some x /\
                (x = torch.NegInf <-> a = b /\ m <> (n + N * rank)%nat).
Proof.
  intros keys labels_k N rank Hq Hk Hpos.
  eexists. split; [by apply supervised_logits_ok|].
  intros n m a b Ha Hb.
  assert (Hn : (n < length (torch.normalize q))%nat).
  { rewrite length_normalize, Hq. by eapply lookup_lt_Some. }
  assert (Hm : (m < length keys)%nat).
  { rewrite Hk. by eapply lookup_lt_Some. }
  destruct (lookup_lt_is_Some_2 _ _ Hn) as [qn Hqn].
  destruct (lookup_lt_is_Some_2 _ _ Hm) as [km Hkm].
  eexists. split.
  - eapply filled_entry; [done|done|]. by apply logits_entry.
  - subst N rank.
    destruct (Z.eqb_spec a b) as [->|Hab];
      destruct (Nat.eqb_spec m (n + length label * rank_or_0 d)) as [->|Hne];
      simpl; split; try done; intros [? ?]; done.
Qed.

Lemma supervised_masks_equal_labels_witness :
  length q_example = length [3%Z; 3%Z] /\
  length (torch.normalize k_example) = length [3%Z; 3%Z] /\
  (2 + 2 * 0 <= length [3%Z; 3%Z])%nat /\
  exists logits,
    supervised_logits None q_example k_example [3%Z; 3%Z] (2 / 10)
    = Ok (logits, 0%nat) /\
    forall n m a b,
      [3%Z; 3%Z] !! n = Some a -> [3%Z; 3%Z] !! m = Some b ->
      exists x, torch.entry logits n m = Some x /\
                (x = torch.NegInf <-> a = b /\ m <> (n + 2 * 0)%nat).
Proof.
  split; [reflexivity|]. split; [reflexivity|]. split; [simpl; lia|].
  apply (supervised_masks_equal_labels None q_example k_example [3%Z; 3%Z] (2 / 10));
    simpl; lia.
Defined.

(** C2 as stated fails: with labels [0; 1] the pair (0, 1) has different
    labels and is not the positive of sample 0, yet its logit is left
    finite; with labels [3; 3] the pair (0, 1) has equal labels and is the
    one that is set to [-inf]. *)
Lemma supervised_mask_counterexample :
  (exists logits x,
     supervised_logits None q_example k_example [0%Z; 1%Z] (2 / 10)
     = Ok (logits, 0%nat) /\
     torch.entry logits 0 1 = Some (torch.Fin x)) /\
  (exists logits,
     supervised_logits None q_example k_example [3%Z; 3%Z] (2 / 10)
     = Ok (logits, 0%nat) /\
     torch.entry logits 0 1 = Some torch.NegInf).
Proof.
  split.
  - eexists. eexists. split.
    + apply supervised_logits_ok; simpl; lia.
    + reflexivity.
  - eexists. split.
    + apply supervised_logits_ok; simpl; lia.
    + reflexivity.
Qed.

(** C3: in one process, when the labels are pairwise distinct (one label
    per query, as many keys as queries), [supervised_contrastive_loss]
    returns the very value [contrastive_loss] returns on the same [q],
    [k] and temperature. [contrastive_loss] needs an initialized process
    group; the supervised loss gives that value with or without one. *)
Theorem supervised_equals_unsupervised_on_distinct_labels
    (d : distributed) (q k : torch.matrix) (label : list Z) (temp : R) :
  d = None \/ d = Some single_process ->
  NoDup label ->
  length label = length q ->
  length k = length q ->
  exists v,
    supervised_contrastive_loss d q k label temp = Ok v /\
    contrastive_loss (Some single_process) q k temp = Ok v.
Proof.
  intros Hd Hnd Hl Hk.
  unfold supervised_contrastive_loss, contrastive_loss.
  rewrite (supervised_logits_distinct d q k label temp Hd Hnd Hl Hk).
  cbn [rbind fst snd pg_rank pg_keys single_process].
  change (concat_all_gather 0 [] (torch.normalize k))
    with (gather_if_initialized (Some single_process) pg_keys (torch.normalize k)).
  rewrite gather_single by done.
  rewrite length_map.
  set (L := torch.div _ temp).
  unfold torch.CrossEntropyLoss.
  rewrite (nll_rows_fin L).
  - cbn [rbind]. eexists. split; reflexivity.
  - apply (targets_in_range L (length (torch.normalize k))).
    + apply logits_rows.
    + unfold L. rewrite length_logits, !length_normalize. lia.
Qed.

Lemma supervised_equals_unsupervised_on_distinct_labels_witness :
  NoDup [4%Z; 9%Z] /\
  length [4%Z; 9%Z] = length q_example /\
  length k_example = length q_example /\
  exists v,
    supervised_contrastive_loss None q_example k_example [4%Z; 9%Z] (2 / 10)
    = Ok v /\
    contrastive_loss (Some single_process) q_example k_example (2 / 10) = Ok v.
Proof.
  split; [apply (bool_decide_unpack _); reflexivity|].
  split; [reflexivity|]. split; [reflexivity|].
  apply (supervised_equals_unsupervised_on_distinct_labels None
           q_example k_example [4%Z; 9%Z] (2 / 10)).
  - by left.
  - apply (bool_decide_unpack _); reflexivity.
  - reflexivity.
  - reflexivity.
Defined.

(** ** The unsupervised loss against its specification *)
Section Unsupervised.

Import torch.

Lemma zip_with_arange {A B} (f : A -> nat -> B) (g : nat -> nat)
    (l : list A) (d : A) :
  zip_with f l (map g (arange (length l)))
  = map (fun n => f (nth n l d) (g n)) (arange (length l)).
Proof.
  unfold arange. apply list_eq. intros j.
  rewrite lookup_zip_with, !list_lookup_fmap.
  destruct (decide (j < length l)%nat) as [Hj|Hj].
  - rewrite lookup_seq_lt by done.
    destruct (lookup_lt_is_Some_2 l j Hj) as [x Hx]. rewrite Hx. simpl.
    by rewrite (nth_lookup_Some _ _ d _ Hx).
  - rewrite lookup_seq_ge by lia. rewrite lookup_ge_None_2 by lia. done.
Qed.

Lemma map_by_index {A B} (f : A -> B) (l : list A) (d : A) :
  map f l = map (fun i => f (nth i l d)) (seq 0 (length l)).
Proof.
  apply list_eq. intros j. rewrite !list_lookup_fmap.
  destruct (decide (j < length l)%nat) as [Hj|Hj].
  - rewrite lookup_seq_lt by done.
    destruct (lookup_lt_is_Some_2 l j Hj) as [x Hx]. rewrite Hx. simpl.
    by rewrite (nth_lookup_Some _ _ d _ Hx).
  - rewrite lookup_seq_ge by lia. rewrite lookup_ge_None_2 by lia. done.
Qed.

Lemma nth_map_in_range {A B} (f : A -> B) (l : list A) (d : A) (e : B) i :
  (i < length l)%nat -> nth i (map f l) e = f (nth i l d).
Proof.
  intros Hi. destruct (lookup_lt_is_Some_2 l i Hi) as [x Hx].
  rewrite (nth_lookup_Some _ _ d _ Hx).
  apply nth_lookup_Some. by rewrite list_lookup_fmap, Hx.
Qed.

Lemma sum_losses (xs : list R) :
  fold_right loss_add (Finite 0) (map Finite xs) = Finite (sum xs).
Proof. induction xs as [|x xs IH]; [done|]. simpl. by rewrite IH. Qed.

(** The mean reduction over a non empty batch of finite losses. *)
Lemma mean_losses (xs : list R) :
  xs <> [] ->
  match map Finite xs with
  | [] => NonFinite
  | _ => loss_scale (fold_right loss_add (Finite 0) (map Finite xs))
                    (/ INR (length (map Finite xs)))
  end = Finite (sum xs / INR (length xs)).
Proof.
  intros Hxs. destruct xs as [|x xs]; [done|].
  rewrite sum_losses, length_map. reflexivity.
Qed.

(** The row [n] of the logits. *)
Lemma logits_row (q k : list (list R)) temp n :
  (n < length q)%nat ->
  nth n (div (einsum_nc_mc_nm q k) temp) []
  = map (fun km => dot (nth n q []) km / temp)%R k.
Proof.
  intros Hn. unfold div, einsum_nc_mc_nm. rewrite map_map.
  rewrite (nth_map_in_range _ q [] [] n Hn). by rewrite map_map.
Qed.

(** *** The sums of [torch], index by index *)

Lemma sum_app (l1 l2 : list R) : sum (l1 ++ l2) = (sum l1 + sum l2)%R.
Proof. induction l1 as [|x l1 IH]; simpl; [lra|]. rewrite IH. lra. Qed.

Lemma sum_upto_seq (n : nat) (f : nat -> R) :
  sum (map f (seq 0 n)) = sum_upto n f.
Proof.
  induction n as [|n IH]; [done|].
  rewrite seq_S, map_app, sum_app, IH. simpl. lra.
Qed.

Lemma sum_upto_ext (n : nat) (f g : nat -> R) :
  (forall c, (c < n)%nat -> f c = g c) -> sum_upto n f = sum_upto n g.
Proof.
  induction n as [|n IH]; intros H; [done|]. simpl.
  rewrite IH, (H n) by (intros; try apply H; lia). done.
Qed.

Lemma sum_by_index (l : list R) :
  sum l = sum_upto (length l) (fun c => nth c l 0%R).
Proof.
  rewrite <- sum_upto_seq. f_equal.
  rewrite <- (map_id l) at 1. apply (map_by_index id l 0%R).
Qed.

Lemma nth_zip_with_mult (u v : list R) (c : nat) :
  length u = length v ->
  nth c (zip_with Rmult u v) 0%R = (nth c u 0 * nth c v 0)%R.
Proof.
  revert v c; induction u as [|x u IH]; intros [|y v] [|c] Hl;
    simpl in *; try lra; try lia.
  apply IH. lia.
Qed.

(** *** The operations of [torch] against the specification's *)

Lemma norm2_l2 (v : vector) : norm2 v = spec_l2_norm v.
Proof.
  unfold norm2, spec_l2_norm, spec_feature. f_equal.
  by rewrite (map_by_index _ v 0%R), sum_upto_seq.
Qed.

(** [normalize] is the L2 normalization on representations whose norm
    is not below its clamp. *)
Lemma normalize_l2 (t : matrix) :
  unclamped t -> normalize t = spec_l2_normalize t.
Proof.
  unfold unclamped, normalize, spec_l2_normalize.
  induction 1 as [|v t Hv _ IH]; [done|].
  cbn [map]. rewrite IH. f_equal.
  rewrite norm2_l2, Rmax_left by done. done.
Qed.

Lemma dot_spec (u v : vector) :
  length u = length v -> dot u v = spec_dot u v.
Proof.
  intros Hl. unfold dot, spec_dot, spec_feature.
  rewrite sum_by_index, length_zip_with, <- Hl, Nat.min_id.
  apply sum_upto_ext. intros c _. by apply nth_zip_with_mult.
Qed.

Lemma features_l2_normalize (C : nat) (t : list (list R)) :
  features C t -> features C (spec_l2_normalize t).
Proof.
  unfold features, spec_l2_normalize. intros H.
  apply Forall_fmap. eapply Forall_impl; [exact H|].
  intros v Hv. simpl. by rewrite length_map.
Qed.

Lemma features_nth (C : nat) (t : list (list R)) (n : nat) :
  features C t -> (n < length t)%nat -> length (nth n t []) = C.
Proof.
  intros H Hn. destruct (lookup_lt_is_Some_2 t n Hn) as [v Hv].
  rewrite (nth_lookup_Some _ _ [] _ Hv).
  exact (Forall_lookup_1 _ _ _ _ H Hv).
Qed.

Lemma gathered_keys_in_rank_order pg (k : list (list R)) :
  unclamped k ->
  concat_all_gather (pg_rank pg) (pg_keys pg) (normalize k) = spec_keys pg k.
Proof.
  intros Hk. rewrite (normalize_l2 k Hk).
  unfold concat_all_gather, dist.contributions, spec_keys.
  by rewrite concat_app.
Qed.

(** The loss of the sample [n], read off its row of logits. *)
Lemma sample_loss pg (q k : list (list R)) temp C n :
  unclamped q ->
  features C q ->
  features C (spec_keys pg k) ->
  (n < length q)%nat ->
  (n + length q * pg_rank pg < length (spec_keys pg k))%nat ->
  let row := nth n (div (einsum_nc_mc_nm (normalize q) (spec_keys pg k)) temp) [] in
  (ln (sum (map exp row)) - nth (n + length q * pg_rank pg) row 0)%R
  = (ln (sum_upto (length (spec_keys pg k))
           (fun m => exp (spec_logit pg q k temp n m)))
     - spec_logit pg q k temp n (spec_positive pg (length q) n))%R.
Proof.
  intros Hq HCq HCk Hn Hpos row. unfold row.
  rewrite (normalize_l2 q Hq).
  assert (Hlq : length (spec_l2_normalize q) = length q)
    by (unfold spec_l2_normalize; by rewrite length_map).
  rewrite logits_row by lia.
  assert (Hqn : length (nth n (spec_l2_normalize q) []) = C).
  { apply features_nth; [by apply features_l2_normalize|lia]. }
  assert (Hlogit : forall m, (m < length (spec_keys pg k))%nat ->
            (dot (nth n (spec_l2_normalize q) []) (nth m (spec_keys pg k) []) / temp)%R
            = spec_logit pg q k temp n m).
  { intros m Hm. unfold spec_logit. f_equal. apply dot_spec.
    by rewrite Hqn, (features_nth C _ m HCk Hm). }
  rewrite map_map.
  rewrite (map_by_index _ (spec_keys pg k) []), sum_upto_seq.
  rewrite (nth_map_in_range _ _ [] 0%R _ Hpos).
  rewrite (Hlogit _ Hpos). unfold spec_positive.
  rewrite (Nat.mul_comm (pg_rank pg)). f_equal. f_equal.
  apply sum_upto_ext. intros m Hm. by rewrite (Hlogit m Hm).
Qed.

(** A representation with a feature 1 is not clamped. *)
Lemma eps_le_1 : (eps <= 1)%R.
Proof.
  unfold eps. apply Rle_trans with (/ 1)%R; [|rewrite Rinv_1; lra].
  apply Rinv_le_contravar; [lra|]. apply pow_R1_Rle. lra.
Qed.

Lemma norm_not_clamped (v : list R) :
  (1 <= sum_upto (length v) (fun c => spec_feature v c * spec_feature v c))%R ->
  (eps <= spec_l2_norm v)%R.
Proof.
  intros H. unfold spec_l2_norm.
  apply Rle_trans with 1%R; [apply eps_le_1|].
  rewrite <- sqrt_1 at 1. by apply sqrt_le_1_alt.
Qed.

End Unsupervised.

(** C6 (as amended): in an initialized group, with a temperature that is
    not zero, for a non empty batch whose representations all have [C]
    features and a norm that is not below the clamp [1e-12] of
    [normalize], and whose positives lie within the gathered keys,
    [contrastive_loss] returns what the specification describes: [q] and
    [k] L2-normalized along the feature axis, the keys gathered in
    ascending rank order, the logits [dot(q_n, k_m) / temp], the positive
    of the local sample [n] at the global index [n + rank * N], and
    [temp * 2] times the cross entropy averaged over the local batch. In
    a group of one process the positive of sample [n] is [n]. *)
Theorem contrastive_loss_as_specified
    (pg : process_group) (q k : torch.matrix) (temp : R) (C : nat) :
  temp <> 0%R ->
  (0 < length q)%nat ->
  (length q + pg_rank pg * length q <= length (spec_keys pg k))%nat ->
  features C q ->
  features C (spec_keys pg k) ->
  unclamped q ->
  unclamped k ->
  contrastive_loss (Some pg) q k temp
  = Ok (torch.Finite (spec_contrastive_loss pg q k temp)) /\
  concat_all_gather (pg_rank pg) (pg_keys pg) (torch.normalize k)
  = spec_keys pg k /\
  forall n, spec_positive single_process (length q) n = n.
Proof.
  intros _ HN Hpos HCq HCk Hq Hk. split; [|split].
  - unfold contrastive_loss. rewrite (gathered_keys_in_rank_order pg k Hk).
    set (K := spec_keys pg k) in *.
    set (L := torch.div _ temp).
    assert (HL : length L = length q)
      by (unfold L; by rewrite length_logits, length_normalize).
    unfold torch.CrossEntropyLoss.
    rewrite (nll_rows_fin L).
    2:{ apply (targets_in_range L (length K)); [apply logits_rows|].
        rewrite HL. lia. }
    cbn [rbind].
    rewrite (zip_with_arange _ _ L []).
    rewrite <- (map_map _ torch.Finite).
    rewrite mean_losses.
    2:{ unfold torch.arange. rewrite HL.
        destruct (length q); [lia|discriminate]. }
    cbn [torch.loss_scale]. do 2 f_equal.
    rewrite length_map. unfold torch.arange. rewrite length_seq, HL.
    unfold spec_contrastive_loss, spec_cross_entropy. fold K.
    rewrite <- sum_upto_seq.
    rewrite (map_ext_in _
               (fun n =>
                  ln (sum_upto (length K)
                        (fun m => exp (spec_logit pg q k temp n m)))
                  - spec_logit pg q k temp n (spec_positive pg (length q) n))%R).
    + unfold Rdiv. ring.
    + intros n Hn. apply in_seq in Hn. unfold L.
      apply (sample_loss pg q k temp C n); unfold K in *; try done; lia.
  - by apply gathered_keys_in_rank_order.
  - intros n. unfold spec_positive. simpl. lia.
Qed.

Lemma contrastive_loss_as_specified_witness :
  (2 / 10 <> 0)%R /\
  (0 < length q_example)%nat /\
  (length q_example + 0 * length q_example
   <= length (spec_keys single_process k_example))%nat /\
  features 2 q_example /\
  features 2 (spec_keys single_process k_example) /\
  unclamped q_example /\
  unclamped k_example /\
  contrastive_loss (Some single_process) q_example k_example (2 / 10)
  = Ok (torch.Finite
          (spec_contrastive_loss single_process q_example k_example (2 / 10))) /\
  concat_all_gather 0 [] (torch.normalize k_example)
  = spec_keys single_process k_example /\
  forall n, spec_positive single_process (length q_example) n = n.
Proof.
  assert (Ht : (2 / 10 <> 0)%R) by lra.
  assert (HCq : features 2 q_example) by (by repeat constructor).
  assert (HCk : features 2 (spec_keys single_process k_example))
    by (by repeat constructor).
  assert (Hq : unclamped q_example).
  { constructor; [|constructor; [|constructor]];
      apply norm_not_clamped; simpl; unfold spec_feature; simpl; lra. }
  assert (Hk : unclamped k_example).
  { constructor; [|constructor; [|constructor]];
      apply norm_not_clamped; simpl; unfold spec_feature; simpl; lra. }
  split; [exact Ht|]. split; [simpl; lia|]. split; [simpl; lia|].
  split; [exact HCq|]. split; [exact HCk|]. split; [exact Hq|].
  split; [exact Hk|].
  apply (contrastive_loss_as_specified single_process q_example k_example
           (2 / 10) 2 Ht); try assumption; simpl; lia.
Defined.

Section Clamp.

Import torch.

Local Open Scope R_scope.

Lemma eps_pos : 0 < eps.
Proof. unfold eps. apply Rinv_0_lt_compat, pow_lt. lra. Qed.

Lemma normalize_q_tiny : normalize q_tiny = [[1 / 10; 0]].
Proof.
  pose proof eps_pos as He.
  unfold normalize, q_tiny. cbn [map].
  assert (Hn : norm2 [eps / 10; 0] = eps / 10).
  { unfold norm2, sum. cbn [map fold_right].
    replace (eps / 10 * (eps / 10) + (0 * 0 + 0)) with (eps / 10 * (eps / 10))
      by lra.
    apply sqrt_square. lra. }
  rewrite Hn, Rmax_right by lra.
  do 2 f_equal; [field; lra|f_equal; field; lra].
Qed.

Lemma normalize_k_unit : normalize k_unit = [[1; 0]].
Proof.
  pose proof eps_le_1 as He.
  unfold normalize, k_unit. cbn [map].
  assert (Hn : norm2 [1; 0] = 1).
  { unfold norm2, sum. cbn [map fold_right].
    replace (1 * 1 + (0 * 0 + 0)) with 1 by lra. apply sqrt_1. }
  rewrite Hn, Rmax_left by lra.
  do 2 f_equal; [lra|f_equal; lra].
Qed.

Lemma l2_normalize_q_tiny : spec_l2_normalize q_tiny = [[1; 0]].
Proof.
  pose proof eps_pos as He.
  unfold spec_l2_normalize, q_tiny. cbn [map].
  assert (Hn : spec_l2_norm [eps / 10; 0] = eps / 10).
  { unfold spec_l2_norm, spec_feature. cbn [length sum_upto nth].
    replace (0 + eps / 10 * (eps / 10) + 0 * 0) with (eps / 10 * (eps / 10))
      by lra.
    apply sqrt_square. lra. }
  rewrite Hn.
  do 2 f_equal; [field; lra|f_equal; field; lra].
Qed.

Lemma l2_normalize_k_unit : spec_l2_normalize k_unit = [[1; 0]].
Proof.
  unfold spec_l2_normalize, k_unit. cbn [map].
  assert (Hn : spec_l2_norm [1; 0] = 1).
  { unfold spec_l2_norm, spec_feature. cbn [length sum_upto nth].
    replace (0 + 1 * 1 + 0 * 0) with 1 by lra. apply sqrt_1. }
  rewrite Hn.
  do 2 f_equal; [lra|f_equal; lra].
Qed.

(** The loss of a sample falls as the logit of its positive rises. *)
Lemma softmax_gap : ln (exp 1 + 1) < ln (exp (1 / 10) + 1) + 9 / 10.
Proof.
  assert (E9 : 1 < exp (9 / 10)).
  { rewrite <- exp_0. apply exp_increasing. lra. }
  pose proof (exp_pos 1) as E1. pose proof (exp_pos (1 / 10)) as E01.
  assert (Emul : (exp (1 / 10) + 1) * exp (9 / 10) = exp 1 + exp (9 / 10)).
  { rewrite Rmult_plus_distr_r, <- exp_plus, Rmult_1_l.
    by replace (1 / 10 + 9 / 10) with 1 by lra. }
  assert (Hlt : ln (exp 1 + 1) < ln ((exp (1 / 10) + 1) * exp (9 / 10))).
  { apply ln_increasing; [lra|]. rewrite Emul. lra. }
  rewrite ln_mult, ln_exp in Hlt by lra. exact Hlt.
Qed.

End Clamp.

(** C6 as stated fails on a representation whose norm is below the clamp
    of [normalize]: a query of norm [1e-13] is divided by [1e-12], not by
    its norm, so it is not L2-normalized, and the loss is not the one the
    specification describes. *)
Lemma contrastive_loss_clamped_counterexample :
  torch.normalize q_tiny = [[1 / 10; 0]]%R /\
  spec_l2_normalize q_tiny = [[1; 0]]%R /\
  exists x,
    contrastive_loss (Some two_processes) q_tiny k_unit 1 = Ok (torch.Finite x) /\
    x <> spec_contrastive_loss two_processes q_tiny k_unit 1.
Proof.
  split; [exact normalize_q_tiny|]. split; [exact l2_normalize_q_tiny|].
  unfold contrastive_loss.
  rewrite normalize_q_tiny, normalize_k_unit.
  eexists. split; [reflexivity|].
  unfold spec_contrastive_loss, spec_cross_entropy, spec_logit, spec_keys,
    spec_positive.
  rewrite l2_normalize_q_tiny, l2_normalize_k_unit.
  cbv [concat_all_gather dist.contributions two_processes pg_rank pg_keys
       concat take drop app map torch.dot torch.sum zip_with fold_right
       torch.exp_logit length q_tiny sum_upto spec_dot spec_feature nth
       Nat.add Nat.mul INR].
  repeat match goal with
         | |- context [exp ?a] =>
             first [ progress replace a with (1 / 10)%R by lra
                   | progress replace a with 0%R by lra
                   | progress replace a with 1%R by lra ]
         end.
  rewrite exp_0.
  repeat match goal with
         | |- context [ln ?a] =>
             first [ progress replace a with (exp (1 / 10) + 1)%R by lra
                   | progress replace a with (exp 1 + 1)%R by lra ]
         end.
  pose proof softmax_gap as Hgap. lra.
Qed.

(** ** The step loop *)
Section TrainStep.

Import engine.

Context {Model Optimizer Ema Params Samples Targets Outputs : Type}.
Variable C : collaborators Model Optimizer Ema Params Samples Targets Outputs.
Variable A : args.

(** What the part of the body before the finiteness test leaves behind,
    whether it returns or raises: the optimizer has at most been through
    the schedule, the shadow model is untouched, and no call was made
    that mutates the optimizer state or the parameters. *)
Lemma forward_losses_frame epoch len i (b : batch Samples Targets)
    (w : world Model Optimizer Ema) :
  let r := forward_losses C A epoch len i b w in
  optimizer (fst r) = scheduled_optimizer C A epoch len i (optimizer w) /\
  model_ema (fst r) = model_ema w /\
  (exists new, calls (fst r) = calls w ++ new /\ no_optimizer_call new) /\
  ((forall m x, parameters C (fst (model_call C m x)) = parameters C m) ->
   parameters C (model (fst r)) = parameters C (model w)) /\
  (forall lv l, snd r = Ok (lv, l) -> lv = criterion_loss C b w).
Proof.
  cbv zeta. unfold forward_losses, criterion_loss, scheduled_optimizer.
  destruct (kaiming_sched A);
    destruct (match mixup_fn C with
              | Some mix => mix (samples b) (targets b)
              | None => (samples b, targets b)
              end) as [samples1 targets1];
    cbn [model optimizer with_optimizer with_model record];
    destruct (model_call C (model w) samples1) as [m outputs] eqn:Hm;
    (destruct (negb (Qle_bool (moe_contrastive_weight A) 0));
     [ cbn [model optimizer with_optimizer with_model record];
       destruct (model_call C m (samples_second b)) as [m2 o2] eqn:Hm2;
       destruct (gate_losses C A 0 _ _ _ None) as [[g|]|e]
     | ]);
    destruct (String.prefix "moe_vit" (arch A));
    cbn [fst snd model optimizer model_ema calls with_optimizer with_model record];
    (split; [reflexivity|]); (split; [reflexivity|]);
    (split; [rewrite <- ?app_assoc; eexists; split; [reflexivity|reflexivity]|]);
    (split;
     [ intros Hp;
       try (pose proof (Hp m (samples_second b)) as Hp2; rewrite Hm2 in Hp2;
            cbn [fst] in Hp2; rewrite Hp2);
       pose proof (Hp (model w) samples1) as Hp1; rewrite Hm in Hp1;
       exact Hp1
     | intros lv l Heq; try discriminate Heq;
       injection Heq as <- _; reflexivity ]).
Qed.

End TrainStep.

Section TrainLoop.

Import engine.

Context {Model Optimizer Ema Params Samples Targets Outputs : Type}.
Variable C : collaborators Model Optimizer Ema Params Samples Targets Outputs.
Variable A : args.

(** The loop over [pre ++ post] runs [pre], and goes on with [post] when
    [pre] raised nothing. *)
Lemma train_loop_app epoch max_norm len i
    (pre post : list (batch Samples Targets)) (w : world Model Optimizer Ema) :
  train_loop C A epoch max_norm len i (pre ++ post) w
  = match train_loop C A epoch max_norm len i pre w with
    | (w1, Ok _) => train_loop C A epoch max_norm len (i + length pre) post w1
    | (w1, Raise e) => (w1, Raise e)
    end.
Proof.
  revert i w; induction pre as [|b pre IH]; intros i w.
  - simpl. by rewrite Nat.add_0_r.
  - cbn [app train_loop length].
    destruct (train_step C A epoch max_norm len i b w) as [w1 [[]|e]]; [|done].
    rewrite IH. by rewrite Nat.add_succ_r.
Qed.

End TrainLoop.

(** C1 (as amended): for every batch whose [loss_value], the criterion's
    loss read before the gate and load losses are added, is NaN or
    infinite, the step raises and [train_one_epoch] stops there, before
    [optimizer.zero_grad] and the loss scaler are called for that batch:
    the parameters of the model and the shadow model are as they were
    when the batch was reached, and the optimizer has at most been
    through the per iteration learning rate schedule. The error is the
    [ValueError] of the finiteness test, unless the gate losses raised
    before it. *)
Theorem non_finite_loss_value_aborts_step
    {Model Optimizer Ema Params Samples Targets Outputs : Type}
    (C : engine.collaborators Model Optimizer Ema Params Samples Targets Outputs)
    (A : engine.args) (epoch : nat) (max_norm : Q) (set_training_mode : bool)
    (pre : list (engine.batch Samples Targets)) (b : engine.batch Samples Targets)
    (rest : list (engine.batch Samples Targets))
    (w0 w : engine.world Model Optimizer Ema) :
  let data_loader := pre ++ b :: rest in
  let len := length data_loader in
  let i := length pre in
  (forall m x,
     engine.parameters C (fst (engine.model_call C m x)) = engine.parameters C m) ->
  engine.train_loop C A epoch max_norm len 0 pre
    (engine.epoch_start C set_training_mode w0) = (w, Ok tt) ->
  torch.isfinite (engine.criterion_loss C b w) = false ->
  exists w' e,
    engine.train_step C A epoch max_norm len i b w = (w', Raise e) /\
    engine.train_one_epoch C A epoch max_norm set_training_mode data_loader w0
    = (w', Raise e) /\
    (e = ValueError \/ snd (engine.forward_losses C A epoch len i b w) = Raise e) /\
    (exists new,
       engine.calls w' = engine.calls w ++ new /\ engine.no_optimizer_call new) /\
    engine.optimizer w'
    = engine.scheduled_optimizer C A epoch len i (engine.optimizer w) /\
    engine.parameters C (engine.model w') = engine.parameters C (engine.model w) /\
    engine.model_ema w' = engine.model_ema w.
Proof.
  intros data_loader len i Hparams Hpre Hnan.
  destruct (forward_losses_frame C A epoch len i b w)
    as (Hopt & Hema & Hcalls & Hpar & Hlv).
  assert (Hstep : exists w' e,
             engine.train_step C A epoch max_norm len i b w = (w', Raise e) /\
             w' = fst (engine.forward_losses C A epoch len i b w) /\
             (e = ValueError
              \/ snd (engine.forward_losses C A epoch len i b w) = Raise e)).
  { unfold engine.train_step.
    destruct (engine.forward_losses C A epoch len i b w) as [w1 [[lv l]|e]];
      cbn [fst snd] in *.
    - rewrite (Hlv lv l eq_refl), Hnan. cbn [negb].
      exists w1, ValueError. auto.
    - exists w1, e. auto. }
  destruct Hstep as (w' & e & Hstep & -> & He).
  exists (fst (engine.forward_losses C A epoch len i b w)), e.
  split; [exact Hstep|]. split.
  - unfold engine.train_one_epoch. fold len. unfold data_loader.
    rewrite train_loop_app, Hpre. cbn [engine.train_loop].
    rewrite Nat.add_0_l. fold i. by rewrite Hstep.
  - repeat split; auto.
Qed.

Lemma non_finite_loss_value_aborts_step_witness :
  let C := example.collaborators_of (torch.Finite 0) in
  let b := example.batch_with torch.NonFinite in
  let w := example.world_before in
  (forall m x,
     engine.parameters C (fst (engine.model_call C m x)) = engine.parameters C m) /\
  engine.train_loop C example.args_kaiming 3 0 3 0 example.batches_before
    (engine.epoch_start C true example.initial_world) = (w, Ok tt) /\
  torch.isfinite (engine.criterion_loss C b w) = false /\
  exists w' e,
    engine.train_step C example.args_kaiming 3 0 3 1 b w = (w', Raise e) /\
    engine.train_one_epoch C example.args_kaiming 3 0 true example.loader
      example.initial_world = (w', Raise e) /\
    (e = ValueError \/
     snd (engine.forward_losses C example.args_kaiming 3 3 1 b w) = Raise e) /\
    (exists new,
       engine.calls w' = engine.calls w ++ new /\ engine.no_optimizer_call new) /\
    engine.optimizer w'
    = engine.scheduled_optimizer C example.args_kaiming 3 3 1 (engine.optimizer w) /\
    engine.parameters C (engine.model w') = engine.parameters C (engine.model w) /\
    engine.model_ema w' = engine.model_ema w.
Proof.
  cbv zeta. split; [reflexivity|]. split; [reflexivity|]. split; [reflexivity|].
  apply (non_finite_loss_value_aborts_step
           (example.collaborators_of (torch.Finite 0))
           example.args_kaiming 3 0 true example.batches_before
           (example.batch_with torch.NonFinite)
           [example.batch_with (torch.Finite 1)]
           example.initial_world example.world_before);
    reflexivity.
Defined.

(** C1 as stated fails on both counts. With a finite criterion loss and a
    non finite load loss the composed loss is not finite, yet nothing is
    raised: [zero_grad] runs and the scaler is given the non finite loss.
    And when the criterion loss is not finite and the schedule is on, the
    error is raised after the schedule has changed the optimizer. *)
Lemma non_finite_composed_loss_counterexample :
  (let C := example.collaborators_of torch.NonFinite in
   let b := example.batch_with (torch.Finite 1) in
   exists w1 w',
     engine.forward_losses C example.args_moe_vit 0 1 0 b example.initial_world
     = (w1, Ok (torch.Finite 1, torch.NonFinite)) /\
     engine.train_step C example.args_moe_vit 0 0 1 0 b example.initial_world
     = (w', Ok tt) /\
     engine.calls w'
     = [engine.ModelForward false; engine.Criterion;
        engine.CollectNoisyGatingLoss; engine.ZeroGrad;
        engine.LossScaler torch.NonFinite 0 false; engine.CudaSynchronize;
        engine.MetricUpdateLoss "loss" (torch.Finite 1);
        engine.MetricUpdateLr 1]) /\
  (let C := example.collaborators_of (torch.Finite 0) in
   let b := example.batch_with torch.NonFinite in
   exists w',
     engine.train_step C example.args_kaiming 3 0 2 1 b example.initial_world
     = (w', Raise ValueError) /\
     engine.optimizer example.initial_world = 1%Q /\
     engine.optimizer w' = (1 / 2 + 3)%Q /\
     ~ (engine.optimizer w' == engine.optimizer example.initial_world)%Q).
Proof.
  split; cbv zeta.
  - eexists. eexists. split; [reflexivity|]. split; reflexivity.
  - eexists. split; [reflexivity|]. split; [reflexivity|].
    split; [reflexivity|]. simpl. intros H. discriminate H.
Qed.

(** * Further properties *)

(** ** [utils/init_datasets.py] *)
Section InitDatasets.

Import init_datasets.

Variable isdir : string -> bool.
Variable np_load : string -> option (list Z).

Ltac split_cases :=
  repeat match goal with
         | |- context [if ?b then _ else _] => destruct b eqn:?
         | |- context [match ?x with inl _ => _ | inr _ => _ end] => destruct x eqn:?
         end.

Lemma imagenet_root_path_is_directory root :
  on_return (fun '(r, _) => isdir r = true) (get_imagenet_root_path isdir root).
Proof. unfold get_imagenet_root_path. split_cases; simpl; done. Qed.

Lemma pet37_path_is_directory root :
  on_return (fun r => isdir r = true) (get_pet37_path isdir root).
Proof. unfold get_pet37_path. split_cases; simpl; done. Qed.

Lemma food101_path_is_directory root :
  on_return (fun r => isdir r = true) (get_food101_path isdir root).
Proof. unfold get_food101_path. split_cases; simpl; done. Qed.

Lemma imagenet_split_root_is_directory root customSplit flag :
  on_return (fun '(r, _, _, _, _) => isdir r = true)
    (get_imagenet_root_split isdir root customSplit flag).
Proof.
  unfold get_imagenet_root_split.
  pose proof (imagenet_root_path_is_directory root) as H.
  destruct (get_imagenet_root_path isdir root) as [e|[r d]]; [done|].
  destruct flag; simpl; exact H.
Qed.

Lemma imagenet100_split_root_is_directory root customSplit :
  on_return (fun '(r, _, _, _, _) => isdir r = true)
    (get_imagenet100_root_split isdir root customSplit).
Proof.
  unfold get_imagenet100_root_split.
  pose proof (imagenet_root_path_is_directory root) as H.
  destruct (get_imagenet_root_path isdir root) as [e|[r d]]; [done|].
  simpl; exact H.
Qed.

Lemma cifar10_split_root_is_directory root customSplit flag :
  on_return (fun '(r, _, _) => isdir r = true)
    (get_cifar10_data_split isdir root customSplit flag).
Proof.
  unfold get_cifar10_data_split.
  destruct (isdir root) eqn:H1; [|destruct (isdir "../../data") eqn:H2;
    [|destruct (isdir "/mnt/models/dataset/") eqn:H3]];
    destruct flag; try destruct (String.eqb customSplit ""); simpl; done.
Qed.

Lemma pet37_split_root_is_directory root customSplit flag :
  on_return (fun '(r, _, _, _) => isdir r = true)
    (get_pet37_data_split isdir root customSplit flag).
Proof.
  unfold get_pet37_data_split.
  pose proof (pet37_path_is_directory root) as H.
  destruct (get_pet37_path isdir root) as [e|r]; [done|].
  destruct flag; try destruct (String.eqb customSplit ""); simpl; done.
Qed.

Lemma food101_split_root_is_directory root customSplit flag :
  on_return (fun '(r, _, _, _) => isdir r = true)
    (get_food101_data_split isdir root customSplit flag).
Proof.
  unfold get_food101_data_split.
  pose proof (food101_path_is_directory root) as H.
  destruct (get_food101_path isdir root) as [e|r]; [done|].
  destruct flag; try destruct (String.eqb customSplit ""); simpl; done.
Qed.

End InitDatasets.

(** X1: whenever one of the split getters returns, with or without
    [ssl], the root it returns is an existing directory: the root it was
    given, or the fallback it found. *)
Theorem resolved_root_is_directory
    (isdir : string -> bool) (root customSplit : string) (flag : bool) :
  init_datasets.on_return (fun '(r, _, _, _, _) => isdir r = true)
    (init_datasets.get_imagenet_root_split isdir root customSplit flag) /\
  init_datasets.on_return (fun '(r, _, _, _, _) => isdir r = true)
    (init_datasets.get_imagenet100_root_split isdir root customSplit) /\
  init_datasets.on_return (fun '(r, _, _) => isdir r = true)
    (init_datasets.get_cifar10_data_split isdir root customSplit flag) /\
  init_datasets.on_return (fun '(r, _, _, _) => isdir r = true)
    (init_datasets.get_pet37_data_split isdir root customSplit flag) /\
  init_datasets.on_return (fun '(r, _, _, _) => isdir r = true)
    (init_datasets.get_food101_data_split isdir root customSplit flag).
Proof.
  split; [apply imagenet_split_root_is_directory|].
  split; [apply imagenet100_split_root_is_directory|].
  split; [apply cifar10_split_root_is_directory|].
  split; [apply pet37_split_root_is_directory|].
  apply food101_split_root_is_directory.
Qed.

(** X2: a given root that is a directory is returned as it is, by every
    split getter called without [ssl]; for ImageNet no path replacement
    is then asked for. *)
Theorem existing_root_is_kept
    (isdir : string -> bool) (root customSplit : string) (domestic : bool) :
  isdir root = true ->
  (exists t v te,
     init_datasets.get_imagenet_root_split isdir root customSplit domestic
     = inr (root, t, v, te, [])) /\
  (exists t v te,
     init_datasets.get_imagenet100_root_split isdir root customSplit
     = inr (root, t, v, te, [])) /\
  (exists t v,
     init_datasets.get_cifar10_data_split isdir root customSplit false
     = inr (root, t, Some v)) /\
  (exists t v te,
     init_datasets.get_pet37_data_split isdir root customSplit false
     = inr (root, t, Some v, Some te)) /\
  (exists t v te,
     init_datasets.get_food101_data_split isdir root customSplit false
     = inr (root, t, Some v, Some te)).
Proof.
  intros H.
  unfold init_datasets.get_imagenet_root_split,
    init_datasets.get_imagenet100_root_split,
    init_datasets.get_imagenet_root_path,
    init_datasets.get_cifar10_data_split,
    init_datasets.get_pet37_data_split, init_datasets.get_pet37_path,
    init_datasets.get_food101_data_split, init_datasets.get_food101_path.
  rewrite H. destruct domestic; repeat split; repeat eexists.
Qed.

Lemma existing_root_is_kept_witness :
  init_datasets.only_data "/data" = true /\
  exists t v te,
    init_datasets.get_pet37_data_split init_datasets.only_data "/data" "fewshot"
      false
    = inr ("/data"%string, t, Some v, Some te).
Proof.
  split; [reflexivity|].
  apply (existing_root_is_kept init_datasets.only_data "/data" "fewshot" false).
  reflexivity.
Defined.

(** X3: a custom split replaces the training file only: called without
    [ssl], every getter returns what it returns for the empty custom
    split, except that the training file is the one named after the
    custom split. *)
Theorem custom_split_changes_only_train
    (isdir : string -> bool) (root customSplit : string) (domestic : bool) :
  customSplit <> ""%string ->
  init_datasets.get_imagenet_root_split isdir root customSplit domestic
  = match init_datasets.get_imagenet_root_split isdir root "" domestic with
    | inl e => inl e
    | inr (r, _, v, te, d) =>
        inr (r, init_datasets.format1 "split/imagenet/" customSplit ".txt",
             v, te, d)
    end /\
  init_datasets.get_imagenet100_root_split isdir root customSplit
  = match init_datasets.get_imagenet100_root_split isdir root "" with
    | inl e => inl e
    | inr (r, _, v, te, d) =>
        inr (r, init_datasets.format1 "split/imagenet/" customSplit ".txt",
             v, te, d)
    end /\
  init_datasets.get_cifar10_data_split isdir root customSplit false
  = match init_datasets.get_cifar10_data_split isdir root "" false with
    | inl e => inl e
    | inr (r, _, v) =>
        inr (r, init_datasets.format1 "split/cifar10/" customSplit ".npy", v)
    end /\
  init_datasets.get_pet37_data_split isdir root customSplit false
  = match init_datasets.get_pet37_data_split isdir root "" false with
    | inl e => inl e
    | inr (r, _, v, te) =>
        inr (r, init_datasets.format1 "split/Pet37/" customSplit ".txt", v, te)
    end /\
  init_datasets.get_food101_data_split isdir root customSplit false
  = match init_datasets.get_food101_data_split isdir root "" false with
    | inl e => inl e
    | inr (r, _, v, te) =>
        inr (r, init_datasets.format1 "split/food-101/" customSplit ".txt",
             v, te)
    end.
Proof.
  intros Hc. apply String.eqb_neq in Hc.
  unfold init_datasets.get_imagenet_root_split,
    init_datasets.get_imagenet100_root_split,
    init_datasets.get_cifar10_data_split,
    init_datasets.get_pet37_data_split,
    init_datasets.get_food101_data_split.
  rewrite Hc. cbn [negb String.eqb].
  repeat split.
  - destruct (init_datasets.get_imagenet_root_path isdir root) as [e|[r d]];
      [done|]. by destruct domestic.
  - by destruct (init_datasets.get_imagenet_root_path isdir root) as [e|[r d]].
  - destruct (isdir root); [done|]. destruct (isdir "../../data"); [done|].
    by destruct (isdir "/mnt/models/dataset/").
  - by destruct (init_datasets.get_pet37_path isdir root).
  - by destruct (init_datasets.get_food101_path isdir root).
Qed.

Lemma custom_split_changes_only_train_witness :
  "fewshot"%string <> ""%string /\
  init_datasets.get_pet37_data_split init_datasets.only_data "/data" "fewshot"
    false
  = inr ("/data"%string, "split/Pet37/fewshot.txt"%string,
         Some "split/Pet37/Pet37_val.txt"%string,
         Some "split/Pet37/Pet37_test.txt"%string).
Proof.
  split; [discriminate|].
  pose proof (custom_split_changes_only_train init_datasets.only_data
                "/data" "fewshot" false) as H.
  destruct H as (_ & _ & _ & H & _); [discriminate|].
  rewrite H. reflexivity.
Defined.

(** X4: with [ssl] a custom split is refused: the getters of CIFAR-10,
    Pet37 and Food-101 raise [AssertionError], whatever the directories
    are. *)
Theorem ssl_refuses_custom_split
    (isdir : string -> bool) (root customSplit : string) :
  customSplit <> ""%string ->
  (exists msg,
     init_datasets.get_cifar10_data_split isdir root customSplit true
     = inl (init_datasets.AssertionError msg)) /\
  (exists msg,
     init_datasets.get_pet37_data_split isdir root customSplit true
     = inl (init_datasets.AssertionError msg)) /\
  (exists msg,
     init_datasets.get_food101_data_split isdir root customSplit true
     = inl (init_datasets.AssertionError msg)).
Proof.
  intros Hc. apply String.eqb_neq in Hc.
  unfold init_datasets.get_cifar10_data_split,
    init_datasets.get_pet37_data_split, init_datasets.get_pet37_path,
    init_datasets.get_food101_data_split, init_datasets.get_food101_path.
  rewrite Hc. repeat split.
  - destruct (isdir root); [by eexists|].
    destruct (isdir "../../data"); [by eexists|].
    destruct (isdir "/mnt/models/dataset/"); by eexists.
  - destruct (isdir root); [by eexists|].
    destruct (isdir "/mnt/models/Pet37/images/"); by eexists.
  - destruct (isdir root); [by eexists|].
    destruct (isdir "/mnt/models/food-101/images/"); by eexists.
Qed.

Lemma ssl_refuses_custom_split_witness :
  "fewshot"%string <> ""%string /\
  exists msg,
    init_datasets.get_cifar10_data_split init_datasets.only_data "/data"
      "fewshot" true
    = inl (init_datasets.AssertionError msg).
Proof.
  split; [discriminate|].
  apply (ssl_refuses_custom_split init_datasets.only_data "/data" "fewshot").
  discriminate.
Defined.

Section InitDatasetsCases.

Import init_datasets.

Variable isdir : string -> bool.
Variable np_load : string -> option (list Z).
Variable T : Type.

(** Every branch of [init_datasets], read off the dataset name. *)
Lemma init_datasets_branch (a : args) (tt te : T) :
  (args_dataset a = "imagenet"%string /\
   init_datasets isdir np_load a tt te
   = match get_imagenet_root_split isdir (args_data a) (args_customSplit a) false with
     | inl e => inl e
     | inr (root, txt_train, txt_val, txt_test, d) =>
         inr (Custom_Dataset root (Some txt_train) tt (Some d),
              Custom_Dataset root (Some txt_val) te (Some d),
              Custom_Dataset root (Some txt_test) te (Some d))
     end) \/
  (args_dataset a = "imagenet100"%string /\
   init_datasets isdir np_load a tt te
   = match get_imagenet100_root_split isdir (args_data a) (args_customSplit a) with
     | inl e => inl e
     | inr (root, txt_train, txt_val, txt_test, d) =>
         inr (Custom_Dataset root (Some txt_train) tt (Some d),
              Custom_Dataset root (Some txt_val) te (Some d),
              Custom_Dataset root (Some txt_test) te (Some d))
     end) \/
  (args_dataset a = "cifar10"%string /\
   init_datasets isdir np_load a tt te
   = match get_cifar10_data_split isdir (args_data a) (args_customSplit a) false with
     | inl e => inl e
     | inr (root, train_idx, val_idx) =>
         match load_list np_load (Some train_idx) with
         | inl e => inl e
         | inr train_idx =>
             match load_list np_load val_idx with
             | inl e => inl e
             | inr val_idx =>
                 inr (subsetCIFAR10 root train_idx None tt true,
                      subsetCIFAR10 root val_idx None te true,
                      subsetCIFAR10 root [] (Some false) te true)
             end
         end
     end) \/
  (args_dataset a = "Pet37"%string /\
   init_datasets isdir np_load a tt te
   = match get_pet37_data_split isdir (args_data a) (args_customSplit a) false with
     | inl e => inl e
     | inr (root, txt_train, txt_val, txt_test) =>
         inr (Custom_Dataset root (Some txt_train) tt None,
              Custom_Dataset root txt_val te None,
              Custom_Dataset root txt_test te None)
     end) \/
  (args_dataset a = "food101"%string /\
   init_datasets isdir np_load a tt te
   = match get_food101_data_split isdir (args_data a) (args_customSplit a) false with
     | inl e => inl e
     | inr (root, txt_train, txt_val, txt_test) =>
         inr (Custom_Dataset root (Some txt_train) tt None,
              Custom_Dataset root txt_val te None,
              Custom_Dataset root txt_test te None)
     end) \/
  (~ In (args_dataset a) known_datasets /\
   init_datasets isdir np_load a tt te
   = inl (ValueError (String.append "No such dataset: " (args_dataset a)))).
Proof.
  unfold init_datasets.
  destruct (String.eqb_spec (args_dataset a) "imagenet") as [->|H1]; [by left|].
  destruct (String.eqb_spec (args_dataset a) "imagenet100") as [->|H2];
    [by right; left|].
  destruct (String.eqb_spec (args_dataset a) "cifar10") as [->|H3];
    [by right; right; left|].
  destruct (String.eqb_spec (args_dataset a) "Pet37") as [->|H4];
    [by right; right; right; left|].
  destruct (String.eqb_spec (args_dataset a) "food101") as [->|H5];
    [by right; right; right; right; left|].
  do 5 right. split; [|done].
  simpl. intros [?|[?|[?|[?|[?|[]]]]]]; congruence.
Qed.

End InitDatasetsCases.

(** X5: [init_datasets] raises [ValueError] whenever [args.dataset] is
    none of [imagenet], [imagenet100], [cifar10], [Pet37] and [food101],
    spelled that way, and the message is [No such dataset: ] followed by
    the name it was given; no directory and no file is looked at
    before. *)
Theorem init_datasets_value_error
    (isdir : string -> bool) (np_load : string -> option (list Z))
    {T : Type} (a : init_datasets.args) (transform_train transform_test : T) :
  ~ In (init_datasets.args_dataset a) init_datasets.known_datasets ->
  init_datasets.init_datasets isdir np_load a transform_train transform_test
  = inl (init_datasets.ValueError
           (String.append "No such dataset: " (init_datasets.args_dataset a))).
Proof.
  intros Hn.
  destruct (init_datasets_branch isdir np_load T a transform_train transform_test)
    as [[E _]|[[E _]|[[E _]|[[E _]|[[E _]|[_ H]]]]]];
    try (exfalso; apply Hn; rewrite E; simpl; tauto).
  exact H.
Qed.

Lemma init_datasets_value_error_witness :
  ~ In (init_datasets.args_dataset lowercase_pet37_args)
       init_datasets.known_datasets /\
  init_datasets.init_datasets (fun _ => true) (fun _ => None)
    lowercase_pet37_args 1%nat 2%nat
  = inl (init_datasets.ValueError "No such dataset: pet37").
Proof.
  assert (H : ~ In (init_datasets.args_dataset lowercase_pet37_args)
                   init_datasets.known_datasets).
  { simpl. intros [?|[?|[?|[?|[?|[]]]]]]; discriminate. }
  split; [exact H|].
  exact (init_datasets_value_error (fun _ => true) (fun _ => None)
           lowercase_pet37_args 1%nat 2%nat H).
Defined.

(** X6: when [init_datasets] returns, the training set carries
    [transform_train], the validation and test sets carry
    [transform_test], and the three are rooted at one directory, which
    exists. *)
Theorem init_datasets_transforms_and_root
    (isdir : string -> bool) (np_load : string -> option (list Z))
    {T : Type} (a : init_datasets.args) (transform_train transform_test : T)
    (train val test : init_datasets.dataset T) :
  init_datasets.init_datasets isdir np_load a transform_train transform_test
  = inr (train, val, test) ->
  init_datasets.dataset_transform train = transform_train /\
  init_datasets.dataset_transform val = transform_test /\
  init_datasets.dataset_transform test = transform_test /\
  init_datasets.dataset_root val = init_datasets.dataset_root train /\
  init_datasets.dataset_root test = init_datasets.dataset_root train /\
  isdir (init_datasets.dataset_root train) = true.
Proof.
  intros Heq.
  pose proof (imagenet_split_root_is_directory isdir (init_datasets.args_data a)
                (init_datasets.args_customSplit a) false) as R1.
  pose proof (imagenet100_split_root_is_directory isdir
                (init_datasets.args_data a) (init_datasets.args_customSplit a))
    as R2.
  pose proof (cifar10_split_root_is_directory isdir (init_datasets.args_data a)
                (init_datasets.args_customSplit a) false) as R3.
  pose proof (pet37_split_root_is_directory isdir (init_datasets.args_data a)
                (init_datasets.args_customSplit a) false) as R4.
  pose proof (food101_split_root_is_directory isdir (init_datasets.args_data a)
                (init_datasets.args_customSplit a) false) as R5.
  destruct (init_datasets_branch isdir np_load T a transform_train transform_test)
    as [[_ H]|[[_ H]|[[_ H]|[[_ H]|[[_ H]|[_ H]]]]]];
    rewrite H in Heq; clear H.
  - destruct (init_datasets.get_imagenet_root_split _ _ _ _)
      as [e|[[[[r t] v] te] d]]; [done|].
    injection Heq as <- <- <-. simpl in *. done.
  - destruct (init_datasets.get_imagenet100_root_split _ _ _)
      as [e|[[[[r t] v] te] d]]; [done|].
    injection Heq as <- <- <-. simpl in *. done.
  - destruct (init_datasets.get_cifar10_data_split _ _ _ _)
      as [e|[[r t] v]]; [done|].
    destruct (init_datasets.load_list np_load (Some t)); [done|].
    destruct (init_datasets.load_list np_load v); [done|].
    injection Heq as <- <- <-. simpl in *. done.
  - destruct (init_datasets.get_pet37_data_split _ _ _ _)
      as [e|[[[r t] v] te]]; [done|].
    injection Heq as <- <- <-. simpl in *. done.
  - destruct (init_datasets.get_food101_data_split _ _ _ _)
      as [e|[[[r t] v] te]]; [done|].
    injection Heq as <- <- <-. simpl in *. done.
  - done.
Qed.

Lemma init_datasets_transforms_and_root_witness :
  let train :=
    init_datasets.Custom_Dataset "/data" (Some "split/Pet37/fewshot.txt"%string)
      true None in
  let val :=
    init_datasets.Custom_Dataset "/data" (Some "split/Pet37/Pet37_val.txt"%string)
      false None in
  let test :=
    init_datasets.Custom_Dataset "/data" (Some "split/Pet37/Pet37_test.txt"%string)
      false None in
  init_datasets.init_datasets init_datasets.only_data init_datasets.no_file
    pet37_args true false = inr (train, val, test) /\
  init_datasets.dataset_transform train = true /\
  init_datasets.dataset_transform val = false /\
  init_datasets.dataset_transform test = false /\
  init_datasets.dataset_root val = init_datasets.dataset_root train /\
  init_datasets.dataset_root test = init_datasets.dataset_root train /\
  init_datasets.only_data (init_datasets.dataset_root train) = true.
Proof.
  cbv zeta. split; [reflexivity|].
  apply (init_datasets_transforms_and_root init_datasets.only_data
           init_datasets.no_file pet37_args true false).
  reflexivity.
Defined.

(** X7: for [imagenet] the validation set and the test set are one and
    the same dataset: both are built from the validation split file. *)
Theorem imagenet_test_is_validation
    (isdir : string -> bool) (np_load : string -> option (list Z))
    {T : Type} (a : init_datasets.args) (transform_train transform_test : T) :
  init_datasets.args_dataset a = "imagenet"%string ->
  init_datasets.on_return (fun '(_, val, test) => test = val)
    (init_datasets.init_datasets isdir np_load a transform_train transform_test).
Proof.
  intros Ha. unfold init_datasets.init_datasets. rewrite Ha. simpl.
  unfold init_datasets.get_imagenet_root_split.
  destruct (init_datasets.get_imagenet_root_path isdir (init_datasets.args_data a))
    as [e|[r d]]; [done|].
  simpl. done.
Qed.

Lemma imagenet_test_is_validation_witness :
  init_datasets.args_dataset imagenet_args = "imagenet"%string /\
  exists train val,
    init_datasets.init_datasets init_datasets.only_data init_datasets.no_file
      imagenet_args true false = inr (train, val, val).
Proof.
  split; [reflexivity|].
  pose proof (imagenet_test_is_validation init_datasets.only_data
                init_datasets.no_file imagenet_args true false eq_refl) as H.
  destruct (init_datasets.init_datasets init_datasets.only_data
              init_datasets.no_file imagenet_args true false)
    as [e|[[train val] test]] eqn:E.
  - discriminate E.
  - simpl in H. subst test. by exists train, val.
Defined.

(** ** [SmoothedValue]: what the window holds and what the views return *)

(** X8: after any sequence of updates the window holds the last
    [min(c, n)] values passed to [update], oldest first, when it was
    built with capacity [c], and all of them when it was built without
    one: it never holds more than its capacity. *)
Theorem window_holds_last_values
    (window_size : option nat) (fmt : option string) (us : list (Q * Z)) :
  let items :=
    Deque.items
      (SmoothedValue.deque
         (SmoothedValue.updates us (SmoothedValue.__init__ window_size fmt))) in
  items = match window_size with
          | Some c => last_values c (map fst us)
          | None => map fst us
          end /\
  length items = match window_size with
                 | Some c => Nat.min c (length us)
                 | None => length us
                 end.
Proof.
  cbv zeta.
  assert (H : Deque.items
                (SmoothedValue.deque
                   (SmoothedValue.updates us
                      (SmoothedValue.__init__ window_size fmt)))
              = match window_size with
                | Some c => last_values c (map fst us)
                | None => map fst us
                end).
  { destruct window_size as [c|].
    - apply window_updates.
    - rewrite deque_updates. simpl. unfold Deque.empty.
      by rewrite items_appends_unbounded. }
  split; [exact H|]. rewrite H.
  destruct window_size as [c|].
  - by rewrite last_values_length, length_map.
  - by rewrite length_map.
Qed.

(** X9: a statistic built with [window_size=0] never has a window: after
    any updates [value] and [max] still raise and [median] and [avg] are
    still [nan]. *)
Theorem zero_capacity_window_stays_empty
    (fmt : option string) (us : list (Q * Z)) :
  let s := SmoothedValue.updates us (SmoothedValue.__init__ (Some 0%nat) fmt) in
  SmoothedValue.value s = Raise IndexError /\
  SmoothedValue.max s = Raise ValueError /\
  SmoothedValue.median s = NaN /\
  SmoothedValue.avg s = NaN.
Proof.
  cbv zeta.
  assert (H : Deque.items
                (SmoothedValue.deque
                   (SmoothedValue.updates us
                      (SmoothedValue.__init__ (Some 0%nat) fmt))) = []).
  { rewrite window_updates. apply length_zero_iff_nil.
    rewrite last_values_length. lia. }
  unfold SmoothedValue.value, SmoothedValue.max, SmoothedValue.median,
    SmoothedValue.avg.
  rewrite H. done.
Qed.

Section Views.

Import SmoothedValue.

Lemma last_snoc_drop {A} (l : list A) (x : A) :
  (2 <= length (l ++ [x]))%nat -> last (drop 1 (l ++ [x])) = Some x.
Proof.
  intros H. destruct l as [|y l]; [simpl in H; lia|].
  simpl. rewrite drop_0. apply last_snoc.
Qed.

Lemma running_max_spec (d : list Q) (x : Q) :
  let m := fold_left (fun m y => if Qle_bool y m then m else y) d x in
  In m (x :: d) /\ Forall (fun y => (y <= m)%Q) (x :: d).
Proof.
  revert x; induction d as [|y d IH]; intros x; cbv zeta.
  - simpl. split; [by left|]. constructor; [apply Qle_refl|constructor].
  - cbn [fold_left].
    destruct (Qle_bool y x) eqn:Hyx.
    + destruct (IH x) as [Hin Hall]. split.
      * destruct Hin as [<-|Hin]; [by left|by right; right].
      * inversion Hall as [|? ? Hx Hd]; subst.
        constructor; [done|]. constructor; [|done].
        apply Qle_bool_iff in Hyx. by eapply Qle_trans.
    + destruct (IH y) as [Hin Hall]. split.
      * by right.
      * inversion Hall as [|? ? Hy Hd]; subst.
        constructor; [|by constructor].
        assert (Hlt : (x < y)%Q).
        { apply Qnot_le_lt. intros Hle. apply Qle_bool_iff in Hle. congruence. }
        eapply Qle_trans; [apply Qlt_le_weak, Hlt|done].
Qed.

End Views.

(** X10: unless the window has capacity 0, [value] read right after
    [update(v, n)] is [v], whatever the statistic held before. *)
Theorem value_after_update (v : Q) (n : Z) (s : SmoothedValue.t) :
  Deque.maxlen (SmoothedValue.deque s) <> Some 0%nat ->
  SmoothedValue.value (SmoothedValue.update v n s) = Ok v.
Proof.
  intros Hc. unfold SmoothedValue.value, SmoothedValue.update, Deque.append.
  cbn [SmoothedValue.deque Deque.items].
  destruct (Deque.maxlen (SmoothedValue.deque s)) as [c|].
  - destruct (Nat.ltb_spec c
                (length (Deque.items (SmoothedValue.deque s) ++ [v]))) as [Hlt|_].
    + rewrite last_snoc_drop; [done|].
      destruct c; [done|lia].
    + by rewrite last_snoc.
  - by rewrite last_snoc.
Qed.

Lemma value_after_update_witness :
  Deque.maxlen (SmoothedValue.deque SmoothedValue.default) <> Some 0%nat /\
  SmoothedValue.value (SmoothedValue.update 7 1 SmoothedValue.default) = Ok 7%Q.
Proof.
  split; [discriminate|].
  apply (value_after_update 7 1 SmoothedValue.default). discriminate.
Defined.

(** X11: on a non empty window [max] returns one of the values of the
    window, and no value of the window is greater. *)
Theorem max_is_greatest (s : SmoothedValue.t) :
  Deque.items (SmoothedValue.deque s) <> [] ->
  exists m,
    SmoothedValue.max s = Ok m /\
    In m (Deque.items (SmoothedValue.deque s)) /\
    Forall (fun y => (y <= m)%Q) (Deque.items (SmoothedValue.deque s)).
Proof.
  intros Hne. unfold SmoothedValue.max.
  destruct (Deque.items (SmoothedValue.deque s)) as [|x d]; [done|].
  eexists. split; [reflexivity|]. apply running_max_spec.
Qed.

Lemma max_is_greatest_witness :
  let s := statistic_of (Some 2%nat) None [(5%Q, 1%Z); (9%Q, 1%Z); (3%Q, 1%Z)] in
  Deque.items (SmoothedValue.deque s) <> [] /\
  exists m,
    SmoothedValue.max s = Ok m /\
    In m (Deque.items (SmoothedValue.deque s)) /\
    Forall (fun y => (y <= m)%Q) (Deque.items (SmoothedValue.deque s)).
Proof.
  cbv zeta. split; [discriminate|].
  apply (max_is_greatest
           (statistic_of (Some 2%nat) None [(5%Q, 1%Z); (9%Q, 1%Z); (3%Q, 1%Z)])).
  discriminate.
Defined.

(** ** The order statistics behind [median] *)
Section Median.

Import SmoothedValue.

Lemma insert_sorted_perm x l : Permutation (insert_sorted x l) (x :: l).
Proof.
  induction l as [|y l IH]; simpl; [done|].
  destruct (Qle_bool x y); [done|].
  rewrite IH. apply perm_swap.
Qed.

Lemma sort_perm l : Permutation (sort l) l.
Proof.
  induction l as [|x l IH]; simpl; [done|].
  rewrite insert_sorted_perm. by constructor.
Qed.

Lemma insert_sorted_Forall (P : Q -> Prop) x l :
  P x -> Forall P l -> Forall P (insert_sorted x l).
Proof.
  intros Hx Hl. induction Hl as [|y l Hy Hl IH]; simpl.
  - by constructor.
  - destruct (Qle_bool x y); repeat constructor; auto.
Qed.

Lemma insert_sorted_ascending x l :
  ascending l -> ascending (insert_sorted x l).
Proof.
  induction l as [|y l IH]; simpl; [done|].
  intros [Hy Hl]. destruct (Qle_bool x y) eqn:Hxy.
  - apply Qle_bool_iff in Hxy. simpl. split; [|done].
    constructor; [done|].
    eapply Forall_impl; [exact Hy|]. intros z Hz. by eapply Qle_trans.
  - simpl. split; [|by apply IH].
    apply insert_sorted_Forall; [|done].
    apply Qlt_le_weak, Qnot_le_lt. intros Hle.
    apply Qle_bool_iff in Hle. congruence.
Qed.

Lemma sort_ascending l : ascending (sort l).
Proof.
  induction l as [|x l IH]; simpl; [done|]. by apply insert_sorted_ascending.
Qed.

(** In an ascending list what comes before an item is not greater and
    what comes after is not smaller. *)
Lemma ascending_middle pre x post :
  ascending (pre ++ x :: post) ->
  Forall (fun y => (y <= x)%Q) pre /\ Forall (Qle x) post.
Proof.
  induction pre as [|y pre IH]; simpl.
  - intros [H _]. by split.
  - intros [Hy Hl]. destruct (IH Hl) as [Hpre Hpost]. split; [|done].
    constructor; [|done].
    apply Forall_app in Hy as [_ Hy]. by inversion Hy.
Qed.

Lemma count_if_app {A} (p : A -> bool) l1 l2 :
  count_if p (l1 ++ l2) = (count_if p l1 + count_if p l2)%nat.
Proof. unfold count_if. by rewrite List.filter_app, length_app. Qed.

Lemma count_if_all {A} (p : A -> bool) l :
  Forall (fun x => p x = true) l -> count_if p l = length l.
Proof.
  unfold count_if. induction 1 as [|x l Hx _ IH]; simpl; [done|].
  rewrite Hx. simpl. by rewrite IH.
Qed.

Lemma count_if_perm {A} (p : A -> bool) l1 l2 :
  Permutation l1 l2 -> count_if p l1 = count_if p l2.
Proof.
  unfold count_if.
  induction 1 as [|x l1 l2 _ IH|x y l|l1 l2 l3 _ IH1 _ IH2]; simpl.
  - done.
  - destruct (p x); simpl; by rewrite IH.
  - destruct (p x), (p y); done.
  - by rewrite IH1.
Qed.

Lemma lower_middle_bounds n :
  (0 < n)%nat ->
  let k := ((n - 1) / 2)%nat in
  (k < n)%nat /\ (n <= 2 * (k + 1))%nat /\ (n <= 2 * (n - k))%nat.
Proof.
  intros Hn k.
  pose proof (Nat.div_mod_eq (n - 1) 2) as Hd.
  pose proof (Nat.mod_upper_bound (n - 1) 2) as Hm.
  fold k in Hd. lia.
Qed.

End Median.

(** The lower middle value of a window, in ascending order. *)
Lemma lower_middle_of_window (s : SmoothedValue.t) :
  Deque.items (SmoothedValue.deque s) <> [] ->
  exists x,
    SmoothedValue.median s = Num x /\
    In x (Deque.items (SmoothedValue.deque s)) /\
    (length (Deque.items (SmoothedValue.deque s))
     <= 2 * count_if (fun y => Qle_bool y x)
              (Deque.items (SmoothedValue.deque s)))%nat /\
    (length (Deque.items (SmoothedValue.deque s))
     <= 2 * count_if (fun y => Qle_bool x y)
              (Deque.items (SmoothedValue.deque s)))%nat.
Proof.
  intros Hne. unfold SmoothedValue.median.
  set (d := Deque.items (SmoothedValue.deque s)) in *.
  pose proof (sort_perm d) as Hperm.
  pose proof (sort_ascending d) as Hasc.
  assert (Hlen : length (SmoothedValue.sort d) = length d)
    by (by apply Permutation_length).
  assert (Hpos : (0 < length d)%nat).
  { destruct d; [done|simpl; lia]. }
  destruct (lower_middle_bounds (length d) Hpos) as (Hk & Hlow & Hhigh).
  set (k := ((length d - 1) / 2)%nat) in *.
  destruct (lookup_lt_is_Some_2 (SmoothedValue.sort d) k) as [x Hx]; [lia|].
  rewrite Hx. exists x. split; [done|].
  pose proof (take_drop_middle _ _ _ Hx) as Hsplit.
  rewrite <- Hsplit in Hasc.
  destruct (ascending_middle _ _ _ Hasc) as [Hpre Hpost].
  assert (Hlt : length (take k (SmoothedValue.sort d)) = k)
    by (rewrite length_take; lia).
  assert (Hld : length (drop (S k) (SmoothedValue.sort d)) = (length d - S k)%nat)
    by (rewrite length_drop; lia).
  split; [|split].
  - apply (Permutation_in x Hperm).
    apply list_elem_of_In. by eapply list_elem_of_lookup_2.
  - rewrite <- (count_if_perm _ _ _ Hperm), <- Hsplit.
    rewrite count_if_app.
    rewrite (count_if_all _ (take k (SmoothedValue.sort d))).
    2:{ eapply Forall_impl; [exact Hpre|]. intros y Hy. by apply Qle_bool_iff. }
    change (x :: drop (S k) (SmoothedValue.sort d))
      with ([x] ++ drop (S k) (SmoothedValue.sort d)).
    rewrite count_if_app.
    rewrite (count_if_all _ [x]).
    2:{ repeat constructor. apply Qle_bool_iff, Qle_refl. }
    simpl length. lia.
  - rewrite <- (count_if_perm _ _ _ Hperm), <- Hsplit.
    rewrite count_if_app.
    rewrite (count_if_all _ (x :: drop (S k) (SmoothedValue.sort d))).
    2:{ constructor; [apply Qle_bool_iff, Qle_refl|].
        eapply Forall_impl; [exact Hpost|]. intros y Hy. by apply Qle_bool_iff. }
    simpl length. lia.
Qed.

Lemma count_if_map {A B} (p : B -> bool) (f : A -> B) (l : list A) :
  count_if p (map f l) = count_if (fun x => p (f x)) l.
Proof.
  unfold count_if. induction l as [|x l IH]; simpl; [done|].
  destruct (p (f x)); simpl; by rewrite IH.
Qed.

(** X12: on a non empty window [median] returns the float32 rounding of
    one of the values of the window, the lower middle one of the rounded
    values in ascending order: at least half of the rounded values are
    not greater than it, and at least half are not smaller. *)
Theorem median_is_middle (float32 : Q -> Q) (s : SmoothedValue.t) :
  Deque.items (SmoothedValue.deque s) <> [] ->
  exists x,
    median_float32 float32 s = Num (float32 x) /\
    In x (Deque.items (SmoothedValue.deque s)) /\
    (length (Deque.items (SmoothedValue.deque s))
     <= 2 * count_if (fun y => Qle_bool (float32 y) (float32 x))
              (Deque.items (SmoothedValue.deque s)))%nat /\
    (length (Deque.items (SmoothedValue.deque s))
     <= 2 * count_if (fun y => Qle_bool (float32 x) (float32 y))
              (Deque.items (SmoothedValue.deque s)))%nat.
Proof.
  intros Hne.
  destruct (lower_middle_of_window (as_tensor float32 s))
    as (y & Hy & Hin & Hlow & Hhigh).
  { simpl. by destruct (Deque.items (SmoothedValue.deque s)). }
  simpl in Hin, Hlow, Hhigh.
  apply in_map_iff in Hin as (x & <- & Hx).
  rewrite length_map, count_if_map in Hlow, Hhigh.
  exists x. by repeat split.
Qed.

Lemma median_is_middle_witness :
  let s :=
    statistic_of (Some 4%nat) None
      [(5%Q, 1%Z); (9%Q, 1%Z); (3%Q, 1%Z); (7%Q, 1%Z)] in
  Deque.items (SmoothedValue.deque s) <> [] /\
  exists x,
    median_float32 halves s = Num (halves x) /\
    In x (Deque.items (SmoothedValue.deque s)) /\
    (length (Deque.items (SmoothedValue.deque s))
     <= 2 * count_if (fun y => Qle_bool (halves y) (halves x))
              (Deque.items (SmoothedValue.deque s)))%nat /\
    (length (Deque.items (SmoothedValue.deque s))
     <= 2 * count_if (fun y => Qle_bool (halves x) (halves y))
              (Deque.items (SmoothedValue.deque s)))%nat.
Proof.
  cbv zeta. split; [discriminate|].
  apply (median_is_middle halves
           (statistic_of (Some 4%nat) None
              [(5%Q, 1%Z); (9%Q, 1%Z); (3%Q, 1%Z); (7%Q, 1%Z)])).
  discriminate.
Defined.

(** X13: with a window of one sample, as the [lr] meter has, [value]
    and [max] are the last value passed to [update], and [median] is its
    float32 rounding. *)
Theorem one_sample_window
    (float32 : Q -> Q) (fmt : option string) (us : list (Q * Z)) (v : Q) :
  last (map fst us) = Some v ->
  let s := SmoothedValue.updates us (SmoothedValue.__init__ (Some 1%nat) fmt) in
  SmoothedValue.value s = Ok v /\
  SmoothedValue.max s = Ok v /\
  median_float32 float32 s = Num (float32 v).
Proof.
  intros Hlast s.
  assert (H : Deque.items (SmoothedValue.deque s) = [v]).
  { unfold s. rewrite window_updates. unfold last_values.
    destruct (map fst us) as [|x l] eqn:E using rev_ind; [done|].
    rewrite last_snoc in Hlast. injection Hlast as ->.
    rewrite length_app. simpl.
    replace (length l + 1 - 1)%nat with (length l) by lia.
    by rewrite drop_app_length. }
  unfold SmoothedValue.value, SmoothedValue.max, median_float32,
    SmoothedValue.median, as_tensor.
  cbn [SmoothedValue.deque Deque.items]. rewrite H. by repeat split.
Qed.

Lemma one_sample_window_witness :
  let us := [(1 # 10, 1%Z); (1 # 20, 1%Z)]%Q in
  let s := SmoothedValue.updates us (SmoothedValue.__init__ (Some 1%nat) None) in
  last (map fst us) = Some (1 # 20)%Q /\
  SmoothedValue.value s = Ok (1 # 20)%Q /\
  SmoothedValue.max s = Ok (1 # 20)%Q /\
  median_float32 halves s = Num (halves (1 # 20)%Q).
Proof.
  cbv zeta. split; [reflexivity|].
  apply (one_sample_window halves None [(1 # 10, 1%Z); (1 # 20, 1%Z)]%Q
           (1 # 20)%Q).
  reflexivity.
Defined.

(** ** Synchronizing statistics fed with known updates *)
Section Pooled.

Import SmoothedValue.

Lemma weight_sum_app us1 us2 :
  weight_sum (us1 ++ us2) = (weight_sum us1 + weight_sum us2)%Z.
Proof. induction us1 as [|u us1 IH]; simpl; lia. Qed.

Lemma weighted_sum_app us1 us2 :
  (weighted_sum (us1 ++ us2) == weighted_sum us1 + weighted_sum us2)%Q.
Proof.
  induction us1 as [|u us1 IH]; simpl; [ring|]. rewrite IH. ring.
Qed.

Lemma count_statistic_of ws f us : count (statistic_of ws f us) = weight_sum us.
Proof. unfold statistic_of. rewrite count_updates. simpl. lia. Qed.

Lemma total_statistic_of ws f us :
  (total (statistic_of ws f us) == weighted_sum us)%Q.
Proof. unfold statistic_of. rewrite total_updates. simpl. ring. Qed.

Lemma pooled_counts ws f (others : list (list (Q * Z))) :
  sumZ (map count (map (statistic_of ws f) others)) = weight_sum (concat others).
Proof.
  induction others as [|us others IH]; simpl; [done|].
  by rewrite weight_sum_app, count_statistic_of, IH.
Qed.

Lemma pooled_totals ws f (others : list (list (Q * Z))) :
  (sum (map total (map (statistic_of ws f) others))
   == weighted_sum (concat others))%Q.
Proof.
  induction others as [|us others IH]; simpl; [reflexivity|].
  rewrite weighted_sum_app, total_statistic_of, IH. reflexivity.
Qed.

End Pooled.

(** X14: synchronizing pools the updates: when every process has fed its
    statistic with its own [update(v, w)] calls, [global_avg] read after
    [synchronize_between_processes] is, on each process, the weighted
    mean of the updates of all processes taken together, provided their
    weights do not sum to zero. *)
Theorem synchronized_global_avg_pools_updates
    (rank : nat) (window_size : option nat) (fmt : option string)
    (mine : list (Q * Z)) (others : list (list (Q * Z))) :
  let s := statistic_of window_size fmt mine in
  let peers := map sync_tensor (map (statistic_of window_size fmt) others) in
  let pooled := mine ++ concat others in
  weight_sum pooled <> 0%Z ->
  exists g,
    SmoothedValue.global_avg
      (fst (SmoothedValue.synchronize_between_processes rank peers s)) = Ok g /\
    (g == weighted_sum pooled / inject_Z (weight_sum pooled))%Q.
Proof.
  intros s peers pooled Hw.
  destruct (synchronize_statistic rank
              (map (statistic_of window_size fmt) others) s)
    as (_ & _ & _ & Hc & Ht).
  fold peers in Hc, Ht.
  set (s' := fst (SmoothedValue.synchronize_between_processes rank peers s)) in *.
  assert (Hcount : SmoothedValue.count s' = weight_sum pooled).
  { rewrite Hc. unfold s, pooled.
    by rewrite count_statistic_of, pooled_counts, weight_sum_app. }
  exists (SmoothedValue.total s' / inject_Z (SmoothedValue.count s'))%Q. split.
  - apply global_avg_ok. congruence.
  - rewrite Hcount, Ht. unfold s, pooled.
    rewrite total_statistic_of, pooled_totals, weighted_sum_app. reflexivity.
Qed.

Lemma synchronized_global_avg_pools_updates_witness :
  let mine := [(2%Q, 1%Z); (3%Q, 1%Z); (4%Q, 1%Z)] in
  let others := [[(2%Q, 5%Z)]] in
  weight_sum (mine ++ concat others) <> 0%Z /\
  exists g,
    SmoothedValue.global_avg
      (fst (SmoothedValue.synchronize_between_processes 0
              (map sync_tensor (map (statistic_of (Some 20%nat) None) others))
              (statistic_of (Some 20%nat) None mine))) = Ok g /\
    (g == weighted_sum (mine ++ concat others)
          / inject_Z (weight_sum (mine ++ concat others)))%Q.
Proof.
  cbv zeta. split; [vm_compute; discriminate|].
  apply (synchronized_global_avg_pools_updates 0 (Some 20%nat) None
           [(2%Q, 1%Z); (3%Q, 1%Z); (4%Q, 1%Z)] [[(2%Q, 5%Z)]]).
  vm_compute; discriminate.
Defined.

(** ** The registry of a [MetricLogger] *)
Section Registry.

Import MetricLogger.

Lemma dict_get_set_eq {V} k (v : V) d : dict_get k (dict_set k v d) = Some v.
Proof.
  induction d as [|[k' v'] d IH]; simpl.
  - by rewrite String.eqb_refl.
  - destruct (String.eqb k k') eqn:E; simpl; rewrite ?String.eqb_refl, ?E; done.
Qed.

Lemma dict_get_set_ne {V} k k' (v : V) d :
  k' <> k -> dict_get k' (dict_set k v d) = dict_get k' d.
Proof.
  intros Hne. induction d as [|[k0 v0] d IH]; simpl.
  - apply String.eqb_neq in Hne. by rewrite Hne.
  - destruct (String.eqb_spec k k0) as [->|Hk]; simpl.
    + apply String.eqb_neq in Hne. by rewrite Hne.
    + by rewrite IH.
Qed.

Lemma dict_get_set {V} k k' (v : V) d :
  dict_get k' (dict_set k v d)
  = if String.eqb k' k then Some v else dict_get k' d.
Proof.
  destruct (String.eqb_spec k' k) as [->|Hne].
  - apply dict_get_set_eq.
  - by apply dict_get_set_ne.
Qed.

Lemma dict_get_None {V} k (d : list (string * V)) :
  dict_get k d = None <-> k ∉ map fst d.
Proof.
  induction d as [|[k' v'] d IH]; simpl.
  - split; [intros _; apply not_elem_of_nil|done].
  - rewrite not_elem_of_cons.
    destruct (String.eqb_spec k k') as [->|Hne]; split; try done.
    + by intros [? _].
    + intros H. split; [done|]. by apply IH.
    + intros [_ H]. by apply IH.
Qed.

(** Setting a key keeps the keys that are there, in their order, and adds
    the key last when it is new. *)
Lemma dict_set_keys {V} k (v : V) d :
  map fst (dict_set k v d)
  = match dict_get k d with
    | Some _ => map fst d
    | None => map fst d ++ [k]
    end.
Proof.
  induction d as [|[k' v'] d IH]; simpl; [done|].
  destruct (String.eqb_spec k k') as [->|Hne]; simpl; [done|].
  rewrite IH. by destruct (dict_get k d).
Qed.

Lemma dict_set_keys_NoDup {V} k (v : V) d :
  NoDup (map fst d) -> NoDup (map fst (dict_set k v d)).
Proof.
  intros Hnd. rewrite dict_set_keys.
  destruct (dict_get k d) eqn:E; [done|].
  apply NoDup_app. split; [done|]. split.
  - intros x Hx Hin. apply list_elem_of_singleton in Hin as ->.
    by apply dict_get_None in E.
  - apply NoDup_singleton.
Qed.

Lemma update_cons kv kwargs ml :
  update (kv :: kwargs) ml = update kwargs (metric_update_one kv ml).
Proof. reflexivity. Qed.

Lemma update_one_get kv ml k :
  dict_get k (meters (metric_update_one kv ml))
  = if String.eqb k (fst kv)
    then Some (SmoothedValue.update (snd kv) 1
                 (default SmoothedValue.default (dict_get (fst kv) (meters ml))))
    else dict_get k (meters ml).
Proof.
  unfold metric_update_one, meters_getitem.
  destruct (dict_get (fst kv) (meters ml)) as [m|] eqn:E; simpl.
  - rewrite dict_get_set. by destruct (String.eqb k (fst kv)).
  - rewrite !dict_get_set. by destruct (String.eqb k (fst kv)).
Qed.

Lemma update_one_keys kv ml :
  exists new,
    meter_names (metric_update_one kv ml) = meter_names ml ++ new /\
    new ⊆ [fst kv].
Proof.
  unfold meter_names, metric_update_one, meters_getitem.
  destruct (dict_get (fst kv) (meters ml)) as [m|] eqn:E; simpl.
  - rewrite dict_set_keys, E. exists []. rewrite app_nil_r.
    split; [done|]. apply list_subseteq_nil.
  - rewrite dict_set_keys, dict_get_set_eq, dict_set_keys, E.
    exists [fst kv]. done.
Qed.

Lemma update_one_NoDup kv ml :
  NoDup (meter_names ml) -> NoDup (meter_names (metric_update_one kv ml)).
Proof.
  unfold meter_names, metric_update_one, meters_getitem. intros Hnd.
  destruct (dict_get (fst kv) (meters ml)) as [m|] eqn:E; simpl;
    repeat apply dict_set_keys_NoDup; done.
Qed.

(** Which names are the logger's own does not depend on its state. *)
Lemma ordinary_attribute_fixed ml ml' attr :
  ordinary_attribute ml' attr = ordinary_attribute ml attr.
Proof.
  unfold ordinary_attribute, __dict__. cbn [dict_get].
  by repeat destruct (String.eqb attr _).
Qed.

End Registry.

(** X15: [update] called with distinct keyword names leaves, under each
    name it is given, the statistic that was there (a fresh
    [SmoothedValue()] when the name is new) updated once with the value
    and weight 1, and leaves every other name as it was. *)
Theorem update_lookup (kwargs : list (string * Q)) (ml : MetricLogger.t) :
  NoDup (map fst kwargs) ->
  forall k,
    MetricLogger.dict_get k (MetricLogger.meters (MetricLogger.update kwargs ml))
    = match MetricLogger.dict_get k kwargs with
      | Some v =>
          Some (SmoothedValue.update v 1
                  (default SmoothedValue.default
                     (MetricLogger.dict_get k (MetricLogger.meters ml))))
      | None => MetricLogger.dict_get k (MetricLogger.meters ml)
      end.
Proof.
  revert ml; induction kwargs as [|[k0 v0] kwargs IH]; intros ml Hnd k.
  - done.
  - rewrite update_cons. simpl in Hnd. apply NoDup_cons in Hnd as [Hk0 Hnd].
    rewrite (IH _ Hnd), !update_one_get. cbn [fst snd MetricLogger.dict_get].
    destruct (String.eqb_spec k k0) as [->|Hne].
    + apply dict_get_None in Hk0. by rewrite Hk0.
    + done.
Qed.

Lemma update_lookup_witness :
  NoDup (map fst [("loss"%string, 3%Q); ("lr"%string, (1 # 10)%Q)]) /\
  MetricLogger.dict_get "lr"
    (MetricLogger.meters
       (MetricLogger.update [("loss"%string, 3%Q); ("lr"%string, (1 # 10)%Q)]
          logger_rank0))
  = Some (SmoothedValue.update (1 # 10) 1 SmoothedValue.default).
Proof.
  split; [apply (bool_decide_unpack _); reflexivity|].
  rewrite (update_lookup [("loss"%string, 3%Q); ("lr"%string, (1 # 10)%Q)]
             logger_rank0);
    [reflexivity|apply (bool_decide_unpack _); reflexivity].
Defined.

(** X16: the registered names stay distinct and keep their order:
    [update] and [add_meter] leave the names that are there where they
    are and put new names after them, and synchronizing changes no name. *)
Theorem registered_names_keep_order
    (ml : MetricLogger.t) (kwargs : list (string * Q))
    (name : string) (meter : SmoothedValue.t)
    (rank : nat) (peers : nat -> list (Q * Q)) :
  NoDup (meter_names ml) ->
  (NoDup (meter_names (MetricLogger.update kwargs ml)) /\
   exists new,
     meter_names (MetricLogger.update kwargs ml) = meter_names ml ++ new /\
     new ⊆ map fst kwargs) /\
  (NoDup (meter_names (MetricLogger.add_meter name meter ml)) /\
   exists new,
     meter_names (MetricLogger.add_meter name meter ml) = meter_names ml ++ new /\
     new ⊆ [name]) /\
  meter_names (fst (MetricLogger.synchronize_between_processes rank peers ml))
  = meter_names ml.
Proof.
  intros Hnd. split; [|split].
  - revert ml Hnd; induction kwargs as [|kv kwargs IH]; intros ml Hnd.
    + split; [done|]. exists []. by rewrite app_nil_r.
    + rewrite update_cons.
      destruct (IH _ (update_one_NoDup kv ml Hnd)) as (Hnd' & new & Hnew & Hsub).
      split; [done|].
      destruct (update_one_keys kv ml) as (new1 & Hnew1 & Hsub1).
      exists (new1 ++ new). rewrite Hnew, Hnew1, <- app_assoc. split; [done|].
      intros x Hx. apply elem_of_app in Hx as [Hx|Hx].
      * apply Hsub1, list_elem_of_singleton in Hx as ->. apply list_elem_of_here.
      * apply list_elem_of_further, Hsub, Hx.
  - unfold meter_names, MetricLogger.add_meter. simpl. split.
    + by apply dict_set_keys_NoDup.
    + rewrite dict_set_keys.
      destruct (MetricLogger.dict_get name (MetricLogger.meters ml)).
      * exists []. rewrite app_nil_r. split; [done|apply list_subseteq_nil].
      * by exists [name].
  - destruct (synchronize_logger rank peers ml) as [H _].
    unfold meter_names. rewrite H, (fmap_imap _ fst).
    rewrite <- (imap_const fst). by apply imap_ext.
Qed.

Lemma registered_names_keep_order_witness :
  NoDup (meter_names logger_rank0) /\
  meter_names
    (MetricLogger.update [("acc1"%string, 3%Q); ("loss"%string, 1%Q)] logger_rank0)
  = ["loss"; "acc1"]%string.
Proof.
  split; [apply (bool_decide_unpack _); reflexivity|].
  pose proof (registered_names_keep_order logger_rank0
                [("acc1"%string, 3%Q); ("loss"%string, 1%Q)]
                "lr" SmoothedValue.default 0 (fun _ => [])) as H.
  destruct H as [_ _]; [apply (bool_decide_unpack _); reflexivity|].
  reflexivity.
Defined.

(** X17: [add_meter(name, meter)] puts exactly [meter] under [name],
    replacing what was registered there, and touches no other name;
    unless [name] is one of the logger's own attributes, [logger.name]
    then returns [meter]. *)
Theorem add_meter_lookup
    (ml : MetricLogger.t) (name : string) (meter : SmoothedValue.t) :
  MetricLogger.ordinary_attribute ml name = false ->
  MetricLogger.getattr (MetricLogger.add_meter name meter ml) name
  = Ok (MetricLogger.AMeter meter) /\
  forall k,
    MetricLogger.dict_get k
      (MetricLogger.meters (MetricLogger.add_meter name meter ml))
    = if String.eqb k name then Some meter
      else MetricLogger.dict_get k (MetricLogger.meters ml).
Proof.
  intros Hord. split.
  - rewrite getattr_not_ordinary
      by (by rewrite (ordinary_attribute_fixed ml)).
    apply __getattr___registered. simpl. apply dict_get_set_eq.
  - intros k. simpl. apply dict_get_set.
Qed.

Lemma add_meter_lookup_witness :
  MetricLogger.ordinary_attribute logger_rank0 "lr" = false /\
  MetricLogger.getattr
    (MetricLogger.add_meter "lr"
       (SmoothedValue.__init__ (Some 1%nat) (Some "{value:.6f}"%string))
       logger_rank0) "lr"
  = Ok (MetricLogger.AMeter
          (SmoothedValue.__init__ (Some 1%nat) (Some "{value:.6f}"%string))).
Proof.
  split; [reflexivity|].
  apply (add_meter_lookup logger_rank0 "lr"
           (SmoothedValue.__init__ (Some 1%nat) (Some "{value:.6f}"%string))).
  reflexivity.
Defined.

(** ** Rendering *)
Section Rendering.

Import logging.

Variable format : string -> SmoothedValue.views -> string.

Lemma str_args_cases (s : SmoothedValue.t) :
  (renderable s /\ exists v, SmoothedValue.__str__args s = Ok v) \/
  (SmoothedValue.count s = 0%Z /\
   SmoothedValue.__str__args s = Raise ZeroDivisionError) \/
  (SmoothedValue.count s <> 0%Z /\ Deque.items (SmoothedValue.deque s) = [] /\
   SmoothedValue.__str__args s = Raise ValueError).
Proof.
  unfold SmoothedValue.__str__args, SmoothedValue.global_avg, renderable.
  destruct (Z.eqb_spec (SmoothedValue.count s) 0) as [Hc|Hc].
  - right; left. done.
  - cbn [rbind]. unfold SmoothedValue.max, SmoothedValue.value.
    destruct (Deque.items (SmoothedValue.deque s)) as [|x d] eqn:E.
    + right; right. done.
    + left. split; [done|]. cbn [rbind].
      destruct (last (x :: d)) as [y|] eqn:El.
      * cbn [rbind]. by eexists.
      * apply last_None in El. done.
Qed.

Lemma str_cases (s : SmoothedValue.t) :
  (renderable s /\ exists str, SmoothedValue__str__ format s = Ok str) \/
  (~ renderable s /\
   (SmoothedValue__str__ format s = Raise ZeroDivisionError \/
    SmoothedValue__str__ format s = Raise ValueError)).
Proof.
  unfold SmoothedValue__str__.
  destruct (str_args_cases s) as [[Hr [v ->]]|[[Hc ->]|(Hc & Hd & ->)]].
  - left. split; [done|]. by eexists.
  - right. split; [|by left]. intros [? _]. done.
  - right. split; [|by right]. intros [_ ?]. done.
Qed.

Lemma loss_str_cases (meters : list (string * SmoothedValue.t)) :
  (Forall (fun kv => renderable (snd kv)) meters /\
   exists l, loss_str format meters = Ok l) \/
  (~ Forall (fun kv => renderable (snd kv)) meters /\
   (loss_str format meters = Raise ZeroDivisionError \/
    loss_str format meters = Raise ValueError)).
Proof.
  induction meters as [|[name m] meters IH]; simpl.
  - left. split; [constructor|by eexists].
  - destruct (str_cases m) as [[Hr [str ->]]|[Hn [->| ->]]]; cbn [rbind].
    + destruct IH as [[Hall [l ->]]|[Hn [->| ->]]]; cbn [rbind].
      * left. split; [by constructor|by eexists].
      * right. split; [|by left]. intros H. by inversion H.
      * right. split; [|by right]. intros H. by inversion H.
    + right. split; [|by left]. intros H. by inversion H.
    + right. split; [|by right]. intros H. by inversion H.
Qed.

End Rendering.

(** X18: rendering a logger can only succeed when every registered
    statistic has a non zero count and a non empty window. A statistic
    whose count is zero makes its own rendering raise the
    [ZeroDivisionError] of [global_avg], and one with a non zero count
    and an empty window the [ValueError] of [max]: the views are read
    before the template is filled in, whatever the template is, and
    [max] is read before [value], whose [IndexError] is never seen. *)
Theorem metric_logger_str_renders
    (format : string -> SmoothedValue.views -> string) (ml : MetricLogger.t) :
  ((exists str, logging.MetricLogger__str__ format ml = Ok str) ->
   Forall (fun kv => renderable (snd kv)) (MetricLogger.meters ml)) /\
  (forall s, SmoothedValue.count s = 0%Z ->
             logging.SmoothedValue__str__ format s = Raise ZeroDivisionError) /\
  (forall s, SmoothedValue.count s <> 0%Z ->
             Deque.items (SmoothedValue.deque s) = [] ->
             logging.SmoothedValue__str__ format s = Raise ValueError).
Proof.
  split; [|split].
  - unfold logging.MetricLogger__str__.
    destruct (loss_str_cases format (MetricLogger.meters ml))
      as [[Hall _]|[_ [->| ->]]]; cbn [rbind]; [done|..];
      intros [? ?]; done.
  - intros s Hc. unfold logging.SmoothedValue__str__.
    destruct (str_args_cases s) as [[[Hr _] _]|[[_ ->]|(Hn & _)]]; done.
  - intros s Hc Hd. unfold logging.SmoothedValue__str__.
    destruct (str_args_cases s) as [[[_ Hr] _]|[[Hz _]|(_ & _ & ->)]]; done.
Qed.

(** ** [log_every] *)
Section LogEvery.

Import logging.

Variable format : string -> SmoothedValue.views -> string.
Variable clock : nat -> Q.
Variable cuda : bool.
Variable memory : nat -> Q.
Context {A St : Type}.
Variable body : A -> MetricLogger.t * St -> (MetricLogger.t * St) * result unit.

(** One turn: the item is handed to the body; when the turn completes,
    the index advances by one and a progress line is written exactly when
    one is due. *)
Lemma log_every_step_spec len pf obj (g : generator) :
  let r := log_every_step format clock cuda memory body len pf obj g in
  yielded (fst r) = yielded g ++ [obj] /\
  user (fst r) = fst (body obj (user g)) /\
  ((exists e, snd r = Raise e /\ lines (fst r) = lines g) \/
   (snd r = Ok tt /\ snd (body obj (user g)) = Ok tt /\ pf <> 0%Z /\
    i (fst r) = S (i g) /\
    exists new,
      lines (fst r) = lines g ++ new /\
      map progress_index new
      = map Some (List.filter (progress_due pf len) [i g]))).
Proof.
  cbv zeta. unfold log_every_step.
  destruct (body obj (user g)) as [u [[]|e]]; cbn [fst snd].
  2:{ split; [done|]. split; [done|]. left. by eexists. }
  unfold due. cbn [i].
  destruct (Z.eqb_spec pf 0) as [->|Hpf]; cbn [fst snd].
  { split; [done|]. split; [done|]. left. by eexists. }
  cbn [List.filter]. fold (progress_due pf len (i g)).
  destruct (progress_due pf len (i g)).
  - destruct (progress_line _ _ _ _ _) as [l|e] eqn:El; cbn [rbind fst snd].
    + split; [done|]. split; [done|]. right. repeat split; try done.
      exists [l]. split; [done|].
      unfold progress_line in El. cbn [i] in El.
      destruct (SmoothedValue.global_avg _); [|done]. cbn [rbind] in El.
      destruct (MetricLogger.log _); [|done].
      destruct (MetricLogger__str__ _ _); [|done]. cbn [rbind] in El.
      destruct (SmoothedValue__str__ _ _); [|done]. cbn [rbind] in El.
      destruct (SmoothedValue__str__ _ _); [|done]. cbn [rbind] in El.
      by injection El as <-.
    + split; [done|]. split; [done|]. left. by eexists.
  - cbn [fst snd]. split; [done|]. split; [done|]. right.
    repeat split; try done. exists []. by rewrite app_nil_r.
Qed.

(** The loop hands the items to the body in order, and stops at the first
    exception. *)
Lemma log_every_loop_yields len pf items (g : generator) :
  let r := log_every_loop format clock cuda memory body len pf items g in
  exists done_,
    yielded (fst r) = yielded g ++ done_ /\
    done_ `prefix_of` items /\
    (done_ = items \/ exists e, snd r = Raise e).
Proof.
  revert g; induction items as [|obj items IH]; intros g; cbv zeta.
  - exists []. rewrite app_nil_r. repeat split; [done|by left].
  - cbn [log_every_loop].
    destruct (log_every_step_spec len pf obj g) as (Hy & _ & Hr).
    destruct (log_every_step format clock cuda memory body len pf obj g) as [g1 [[]|e]]; cbn [fst snd] in *.
    + destruct (IH g1) as (d & Hd & Hp & Hor).
      exists (obj :: d). rewrite Hd, Hy, <- app_assoc. split; [done|].
      split; [by apply prefix_cons|].
      destruct Hor as [->|He]; [by left|by right].
    + exists [obj]. split; [done|]. split.
      * apply (prefix_app_r [obj] [obj] items). done.
      * right. by eexists.
Qed.

(** A loop that completes has advanced the index by the number of items
    and has written the progress lines that were due, and only those. *)
Lemma log_every_loop_lines len pf items (g g' : generator) :
  log_every_loop format clock cuda memory body len pf items g = (g', Ok tt) ->
  i g' = (i g + length items)%nat /\
  exists new,
    lines g' = lines g ++ new /\
    map progress_index new
    = map Some (List.filter (progress_due pf len) (seq (i g) (length items))).
Proof.
  revert g; induction items as [|obj items IH]; intros g; cbn [log_every_loop].
  - intros [= <-]. split; [simpl; lia|]. exists []. by rewrite app_nil_r.
  - destruct (log_every_step_spec len pf obj g) as (_ & _ & Hr).
    destruct (log_every_step format clock cuda memory body len pf obj g) as [g1 [[]|e]]; cbn [fst snd] in *; [|done].
    intros Hloop. destruct Hr as [(e & He & _)|(_ & _ & _ & Hi & new1 & Hn1 & Hp1)];
      [done|].
    destruct (IH g1 Hloop) as (Hi' & new & Hn & Hp).
    split; [rewrite Hi', Hi; simpl; lia|].
    exists (new1 ++ new). rewrite Hn, Hn1, <- app_assoc. split; [done|].
    rewrite map_app, Hp1, Hp, Hi. cbn [length seq].
    change (i g :: seq (S (i g)) (length items))
      with ([i g] ++ seq (S (i g)) (length items)).
    by rewrite List.filter_app, map_app.
Qed.

End LogEvery.

(** X19: over an empty iterable [log_every] never runs the body and
    writes no progress line, and then fails on its summary line: with
    [ZeroDivisionError], from the seconds per iteration, when the logger
    has a [log], and with [AttributeError] when it has none. *)
Theorem log_every_empty
    (format : string -> SmoothedValue.views -> string) (clock : nat -> Q)
    (cuda : bool) (memory : nat -> Q) {A St : Type}
    (body : A -> MetricLogger.t * St -> (MetricLogger.t * St) * result unit)
    (print_freq : Z) (header : option string) (u : MetricLogger.t * St) :
  let r := logging.log_every format clock cuda memory body [] print_freq header u in
  snd r = Raise (match MetricLogger.log (fst u) with
                 | Some _ => ZeroDivisionError
                 | None => AttributeError
                 end) /\
  logging.yielded (fst r) = [] /\
  logging.lines (fst r) = [] /\
  logging.user (fst r) = u.
Proof.
  cbv zeta. unfold logging.log_every, logging.summary_line.
  cbn [logging.log_every_loop logging.user fst length].
  by destruct (MetricLogger.log (fst u)).
Qed.

(** X20: with [print_freq = 0] the generator fails with
    [ZeroDivisionError] as soon as the body has run on the first item:
    no line is written and no other item is yielded. *)
Theorem log_every_zero_print_freq
    (format : string -> SmoothedValue.views -> string) (clock : nat -> Q)
    (cuda : bool) (memory : nat -> Q) {A St : Type}
    (body : A -> MetricLogger.t * St -> (MetricLogger.t * St) * result unit)
    (obj : A) (rest : list A) (header : option string)
    (u u' : MetricLogger.t * St) :
  body obj u = (u', Ok tt) ->
  let r :=
    logging.log_every format clock cuda memory body (obj :: rest) 0 header u in
  snd r = Raise ZeroDivisionError /\
  logging.yielded (fst r) = [obj] /\
  logging.lines (fst r) = [] /\
  logging.user (fst r) = u'.
Proof.
  intros Hb. cbv zeta. unfold logging.log_every.
  cbn [logging.log_every_loop]. unfold logging.log_every_step.
  cbn [logging.user]. rewrite Hb. done.
Qed.

(** X21: the body is run on the items of the iterable in their order,
    without skipping any: what has been yielded is always a prefix of
    the iterable, and it is the whole iterable unless an exception
    stopped the loop. *)
Theorem log_every_yields_in_order
    (format : string -> SmoothedValue.views -> string) (clock : nat -> Q)
    (cuda : bool) (memory : nat -> Q) {A St : Type}
    (body : A -> MetricLogger.t * St -> (MetricLogger.t * St) * result unit)
    (iterable : list A) (print_freq : Z) (header : option string)
    (u : MetricLogger.t * St) :
  let r :=
    logging.log_every format clock cuda memory body iterable print_freq header u in
  logging.yielded (fst r) `prefix_of` iterable /\
  (logging.yielded (fst r) = iterable \/ exists e, snd r = Raise e).
Proof.
  cbv zeta. unfold logging.log_every.
  match goal with
  | |- context [logging.log_every_loop _ _ _ _ _ ?len ?pf ?it ?g] =>
      destruct (log_every_loop_yields format clock cuda memory body len pf it g)
        as (d & Hd & Hp & Hor);
      destruct (logging.log_every_loop format clock cuda memory body len pf it g)
        as [g1 [[]|e]]
  end; cbn [fst snd logging.yielded] in *.
  - destruct (logging.summary_line _ _ _ _ _);
      cbn [fst snd logging.yielded]; rewrite Hd; simpl;
      (split; [done|]); destruct Hor as [->|[e' He]]; try done; by left.
  - rewrite Hd. simpl. split; [done|]. right. by eexists.
Qed.

(** X22: when [log_every] completes, it has written one progress line
    for each iteration [i] with [i % print_freq == 0] or
    [i == len - 1], in increasing order of [i], and no other, followed by
    the summary line. *)
Theorem log_every_progress_lines
    (format : string -> SmoothedValue.views -> string) (clock : nat -> Q)
    (cuda : bool) (memory : nat -> Q) {A St : Type}
    (body : A -> MetricLogger.t * St -> (MetricLogger.t * St) * result unit)
    (iterable : list A) (print_freq : Z) (header : option string)
    (u : MetricLogger.t * St) :
  let r :=
    logging.log_every format clock cuda memory body iterable print_freq header u in
  snd r = Ok tt ->
  exists progress total_seconds seconds_per_it,
    logging.lines (fst r)
    = progress
      ++ [logging.Summary (default ""%string header) total_seconds seconds_per_it] /\
    map logging.progress_index progress
    = map Some
        (List.filter (progress_due print_freq (length iterable))
           (seq 0 (length iterable))).
Proof.
  cbv zeta. unfold logging.log_every.
  match goal with
  | |- context [logging.log_every_loop _ _ _ _ _ ?len ?pf ?it ?g] =>
      pose proof (log_every_loop_lines format clock cuda memory body len pf it g)
        as Hl;
      destruct (logging.log_every_loop format clock cuda memory body len pf it g)
        as [g1 [[]|e]]
  end; cbn [fst snd]; [|done].
  destruct (Hl g1 eq_refl) as (_ & new & Hn & Hp). cbn [logging.lines logging.i] in *.
  unfold logging.summary_line.
  destruct (MetricLogger.log (fst (logging.user g1))); [|done].
  destruct (length iterable =? 0)%nat; [done|].
  cbn [fst snd logging.lines]. intros _.
  exists new. eexists. eexists. rewrite Hn. split; [reflexivity|]. exact Hp.
Qed.

(** ** [log_every] completes when the body keeps the logger renderable *)
Section LogEveryCompletes.

Import logging.

Variable format : string -> SmoothedValue.views -> string.
Variable clock : nat -> Q.
Variable cuda : bool.
Variable memory : nat -> Q.
Context {A St : Type}.
Variable body : A -> MetricLogger.t * St -> (MetricLogger.t * St) * result unit.

Lemma value_after_update_items v n s :
  Deque.maxlen (SmoothedValue.deque s) <> Some 0%nat ->
  last (Deque.items (SmoothedValue.deque (SmoothedValue.update v n s))) = Some v.
Proof.
  intros Hc. unfold SmoothedValue.update, Deque.append.
  cbn [SmoothedValue.deque Deque.items].
  destruct (Deque.maxlen (SmoothedValue.deque s)) as [c|].
  - destruct (Nat.ltb_spec c
                (length (Deque.items (SmoothedValue.deque s) ++ [v]))) as [Hlt|_].
    + rewrite last_snoc_drop; [done|]. destruct c; [done|lia].
    + by rewrite last_snoc.
  - by rewrite last_snoc.
Qed.

Lemma healthy_update v n s :
  healthy s -> (0 <= n)%Z -> healthy (SmoothedValue.update v n s).
Proof.
  intros [Hc Hm] Hn. split; simpl; [lia|done].
Qed.

Lemma healthy_renderable_update v n s :
  healthy s -> (0 < n)%Z -> renderable (SmoothedValue.update v n s).
Proof.
  intros [Hc Hm] Hn. split; [simpl; lia|].
  pose proof (value_after_update_items v n s Hm) as H.
  intros E. rewrite E in H. done.
Qed.

Lemma renderable_str s :
  renderable s -> exists str, SmoothedValue__str__ format s = Ok str.
Proof.
  intros Hr. destruct (str_cases format s) as [[_ H]|[Hn _]]; done.
Qed.

Lemma renderable_logger_str ml :
  Forall (fun kv => renderable (snd kv)) (MetricLogger.meters ml) ->
  exists str, MetricLogger__str__ format ml = Ok str.
Proof.
  intros Hr. unfold MetricLogger__str__.
  destruct (loss_str_cases format (MetricLogger.meters ml))
    as [[_ [l ->]]|[Hn _]]; [|done].
  by eexists.
Qed.

(** One turn completes when the body does and leaves a logger that has a
    [log] and can be rendered. *)
Lemma log_every_step_completes len pf obj (g : generator) u' :
  pf <> 0%Z ->
  body obj (user g) = (u', Ok tt) ->
  is_Some (MetricLogger.log (fst u')) ->
  Forall (fun kv => renderable (snd kv)) (MetricLogger.meters (fst u')) ->
  healthy (iter_time g) -> healthy (data_time g) ->
  exists g',
    log_every_step format clock cuda memory body len pf obj g = (g', Ok tt) /\
    user g' = u' /\ healthy (iter_time g') /\ healthy (data_time g').
Proof.
  intros Hpf Hb [lg Hlog] Hr Hit Hdt. unfold log_every_step.
  rewrite Hb. cbn [user i end_ iter_time data_time ticks lines yielded].
  unfold due. destruct (Z.eqb_spec pf 0) as [|_]; [done|].
  set (it := SmoothedValue.update _ 1 (iter_time g)).
  set (dt := SmoothedValue.update _ 1 (data_time g)).
  assert (Hit' : healthy it) by (by apply healthy_update).
  assert (Hdt' : healthy dt) by (by apply healthy_update).
  assert (Hrit : renderable it) by (by apply healthy_renderable_update).
  assert (Hrdt : renderable dt) by (by apply healthy_renderable_update).
  destruct (_ || _).
  - unfold progress_line. cbn [user i iter_time data_time].
    rewrite (global_avg_ok it) by apply Hrit. cbn [rbind]. rewrite Hlog.
    destruct (renderable_logger_str _ Hr) as [s1 ->].
    destruct (renderable_str _ Hrit) as [s2 ->].
    destruct (renderable_str _ Hrdt) as [s3 ->].
    cbn [rbind]. eexists. split; [reflexivity|]. split; [reflexivity|].
    split; assumption.
  - eexists. split; [reflexivity|]. split; [reflexivity|]. split; assumption.
Qed.

(** The loop completes when every turn does, and leaves the consumer's
    state as the bodies made it. *)
Lemma log_every_loop_completes (P : A -> Prop) (Inv : MetricLogger.t * St -> Prop)
    len pf items (g : generator) :
  pf <> 0%Z ->
  (forall u, Inv u -> is_Some (MetricLogger.log (fst u))) ->
  (forall x u, P x -> Inv u ->
     exists u', body x u = (u', Ok tt) /\ Inv u' /\
                Forall (fun kv => renderable (snd kv)) (MetricLogger.meters (fst u'))) ->
  Forall P items -> Inv (user g) ->
  healthy (iter_time g) -> healthy (data_time g) ->
  exists g',
    log_every_loop format clock cuda memory body len pf items g = (g', Ok tt) /\
    user g' = fold_left (fun u x => fst (body x u)) items (user g) /\
    Inv (user g').
Proof.
  intros Hpf Hlog Hbody Hitems. revert g.
  induction Hitems as [|x items Hx _ IH]; intros g Hinv Hit Hdt.
  - eexists. by repeat split.
  - cbn [log_every_loop fold_left].
    destruct (Hbody x (user g) Hx Hinv) as (u' & Hb & Hinv' & Hr).
    destruct (log_every_step_completes len pf x g u' Hpf Hb (Hlog _ Hinv') Hr Hit Hdt)
      as (g1 & -> & Hu & Hit1 & Hdt1).
    rewrite Hb. cbn [fst]. rewrite <- Hu.
    apply IH; [by rewrite Hu|done|done].
Qed.

Lemma log_every_completes (P : A -> Prop) (Inv : MetricLogger.t * St -> Prop)
    pf items header u :
  pf <> 0%Z -> items <> [] ->
  (forall u, Inv u -> is_Some (MetricLogger.log (fst u))) ->
  (forall x u, P x -> Inv u ->
     exists u', body x u = (u', Ok tt) /\ Inv u' /\
                Forall (fun kv => renderable (snd kv)) (MetricLogger.meters (fst u'))) ->
  Forall P items -> Inv u ->
  exists g,
    log_every format clock cuda memory body items pf header u = (g, Ok tt) /\
    user g = fold_left (fun u x => fst (body x u)) items u.
Proof.
  intros Hpf Hne Hlog Hbody Hitems Hinv. unfold log_every.
  match goal with
  | |- context [log_every_loop _ _ _ _ _ ?len _ _ ?g] =>
      destruct (log_every_loop_completes P Inv len pf items g Hpf Hlog Hbody
                  Hitems Hinv)
        as (g' & -> & Hu & Hinv')
  end.
  - split; [simpl; lia|discriminate].
  - split; [simpl; lia|discriminate].
  - unfold summary_line. destruct (Hlog _ Hinv') as [lg ->].
    destruct (Nat.eqb_spec (length items) 0) as [E|_].
    { destruct items; [done|discriminate E]. }
    eexists. split; [reflexivity|]. exact Hu.
Qed.

End LogEveryCompletes.

(** ** [evaluate] *)
Section Evaluate.

Import evaluation.

Context {Images Target Output : Type}.
Variable C : collaborators Images Target Output.

Lemma statistic_of_snoc ws f us u :
  statistic_of ws f (us ++ [u])
  = SmoothedValue.update (fst u) (snd u) (statistic_of ws f us).
Proof. unfold statistic_of, SmoothedValue.updates. by rewrite fold_left_app. Qed.

Lemma eval_logger_snoc log done b :
  eval_logger C log (done ++ [b])
  = fst (fst (evaluate_body C b (eval_logger C log done, tt))).
Proof. unfold eval_logger. by rewrite fold_left_app. Qed.

Lemma eval_logger_log log done :
  MetricLogger.log (eval_logger C log done) = log.
Proof.
  induction done as [|b done IH] using rev_ind; [done|].
  rewrite eval_logger_snoc. unfold evaluate_body. destruct b as [images target].
  destruct (accuracy C _ _) as [acc1 acc5]. cbn [fst].
  unfold meter_update, MetricLogger.meters_getitem.
  repeat (match goal with
          | |- context [MetricLogger.dict_get ?k ?d] =>
              destruct (MetricLogger.dict_get k d)
          end; cbn [MetricLogger.log MetricLogger.meters]);
    simpl; unfold MetricLogger.meters_getitem;
    destruct (MetricLogger.dict_get _ _); simpl; exact IH.
Qed.

(** What the body does to the three statistics. *)
Lemma evaluate_body_meters images target (ml : MetricLogger.t) s1 s2 s3 :
  MetricLogger.meters ml = [] /\
  s1 = SmoothedValue.default /\ s2 = SmoothedValue.default /\
  s3 = SmoothedValue.default \/
  MetricLogger.meters ml
  = [("loss"%string, s1); ("acc1"%string, s2); ("acc5"%string, s3)] ->
  MetricLogger.meters (fst (fst (evaluate_body C (images, target) (ml, tt))))
  = [("loss"%string,
      SmoothedValue.update (criterion C (model_call C images) target) 1 s1);
     ("acc1"%string,
      SmoothedValue.update (fst (accuracy C (model_call C images) target))
        (Z.of_nat (batch_size C images)) s2);
     ("acc5"%string,
      SmoothedValue.update (snd (accuracy C (model_call C images) target))
        (Z.of_nat (batch_size C images)) s3)].
Proof.
  unfold evaluate_body.
  destruct (accuracy C (model_call C images) target) as [acc1 acc5].
  destruct ml as [ms d lg]. cbn [MetricLogger.meters fst snd].
  intros [(-> & -> & -> & ->)| ->]; reflexivity.
Qed.

(** The three statistics of the logger, once a batch has been seen. *)
Lemma eval_logger_meters log done :
  done <> [] ->
  MetricLogger.meters (eval_logger C log done)
  = [("loss"%string, statistic_of (Some 20%nat) None (loss_updates C done));
     ("acc1"%string, statistic_of (Some 20%nat) None (acc1_updates C done));
     ("acc5"%string, statistic_of (Some 20%nat) None (acc5_updates C done))].
Proof.
  induction done as [|b done IH] using rev_ind; [done|]. intros _.
  rewrite eval_logger_snoc.
  unfold loss_updates, acc1_updates, acc5_updates.
  rewrite !map_app. cbn [map]. rewrite !statistic_of_snoc. cbn [fst snd].
  destruct b as [images target]. cbn [fst snd].
  apply evaluate_body_meters.
  destruct done as [|b0 done0].
  - left. by repeat split.
  - right. by apply IH.
Qed.

Lemma fold_evaluate_body (done : list (Images * Target)) (ml : MetricLogger.t) :
  fold_left (fun u x => fst (evaluate_body C x u)) done (ml, tt)
  = (fold_left (fun ml b => fst (fst (evaluate_body C b (ml, tt)))) done ml, tt).
Proof.
  revert ml; induction done as [|b done IH]; intros ml; [done|].
  cbn [fold_left]. rewrite <- IH. f_equal.
  unfold evaluate_body. destruct b. by destruct (accuracy C _ _).
Qed.

Lemma weight_sum_loss_updates done :
  weight_sum (loss_updates C done) = Z.of_nat (length done).
Proof.
  unfold loss_updates. induction done as [|b done IH]; [done|].
  cbn [map weight_sum fold_right length] in *. unfold weight_sum in IH.
  rewrite IH. cbn [snd]. lia.
Qed.

Lemma weight_sum_positive (us : list (Q * Z)) :
  us <> [] -> Forall (fun u => (0 < snd u)%Z) us -> (0 < weight_sum us)%Z.
Proof.
  intros Hne Hall. induction Hall as [|u us Hu Hall IH]; [done|].
  simpl. destruct us as [|u' us'].
  - simpl. lia.
  - assert (0 < weight_sum (u' :: us'))%Z by (by apply IH). simpl in *. lia.
Qed.

Lemma statistic_renderable (us : list (Q * Z)) :
  us <> [] -> Forall (fun u => (0 < snd u)%Z) us ->
  renderable (statistic_of (Some 20%nat) None us).
Proof.
  intros Hne Hall. split.
  - rewrite count_statistic_of.
    pose proof (weight_sum_positive us Hne Hall). lia.
  - unfold statistic_of. intros E.
    apply (f_equal length) in E. rewrite window_updates in E.
    rewrite last_values_length, length_map in E. simpl in E.
    destruct us; [done|]. simpl in E. lia.
Qed.

End Evaluate.

(** X23: on an empty data loader [evaluate] raises before it
    synchronizes or returns anything: [ZeroDivisionError], from the
    summary line of [log_every], when a [log] is given, and
    [AttributeError] when [log] is [None]. *)
Theorem evaluate_empty
    (format : string -> SmoothedValue.views -> string) (clock : nat -> Q)
    (cuda : bool) (memory : nat -> Q) {Images Target Output : Type}
    (C : evaluation.collaborators Images Target Output)
    (log : option MetricLogger.logger) (rank : nat) (peers : nat -> list (Q * Q)) :
  evaluation.evaluate format clock cuda memory C [] log rank peers
  = ([], Raise (match log with
                | Some _ => ZeroDivisionError
                | None => AttributeError
                end)).
Proof. unfold evaluation.evaluate. by destruct log. Qed.

(** X24: on a non empty data loader whose batches are not empty, with a
    [log] and a single process, [evaluate] returns the three averages
    [loss], [acc1] and [acc5], in that order: the loss is the mean of the
    batch losses, each batch counting once, and the accuracies are the
    means of the batch accuracies weighted by the batch sizes. *)
Theorem evaluate_returns_averages
    (format : string -> SmoothedValue.views -> string) (clock : nat -> Q)
    (cuda : bool) (memory : nat -> Q) {Images Target Output : Type}
    (C : evaluation.collaborators Images Target Output)
    (data_loader : list (Images * Target)) (lg : MetricLogger.logger) :
  data_loader <> [] ->
  Forall (fun b => (0 < evaluation.batch_size C (fst b))%nat) data_loader ->
  exists lines loss acc1 acc5,
    evaluation.evaluate format clock cuda memory C data_loader (Some lg) 0
      (fun _ => [])
    = (lines, Ok [("loss"%string, loss); ("acc1"%string, acc1);
                  ("acc5"%string, acc5)]) /\
    (loss == weighted_sum (loss_updates C data_loader)
             / inject_Z (Z.of_nat (length data_loader)))%Q /\
    (acc1 == weighted_sum (acc1_updates C data_loader)
             / inject_Z (weight_sum (acc1_updates C data_loader)))%Q /\
    (acc5 == weighted_sum (acc5_updates C data_loader)
             / inject_Z (weight_sum (acc5_updates C data_loader)))%Q.
Proof.
  intros Hne Hall.
  set (P := fun b : Images * Target => (0 < evaluation.batch_size C (fst b))%nat).
  set (Inv := fun u : MetricLogger.t * unit =>
                exists done, Forall P done /\ u = (eval_logger C (Some lg) done, tt)).
  assert (Hloss : forall done,
             Forall (fun u : Q * Z => (0 < snd u)%Z) (loss_updates C done)).
  { intros done. unfold loss_updates. apply Forall_fmap, Forall_forall.
    intros b _. simpl. lia. }
  assert (Hacc1 : forall done, Forall P done ->
             Forall (fun u : Q * Z => (0 < snd u)%Z) (acc1_updates C done)).
  { intros done Hd. unfold acc1_updates. apply Forall_fmap.
    eapply Forall_impl; [exact Hd|]. intros b Hb. unfold P in Hb. simpl. lia. }
  assert (Hacc5 : forall done, Forall P done ->
             Forall (fun u : Q * Z => (0 < snd u)%Z) (acc5_updates C done)).
  { intros done Hd. unfold acc5_updates. apply Forall_fmap.
    eapply Forall_impl; [exact Hd|]. intros b Hb. unfold P in Hb. simpl. lia. }
  assert (Hmeters : forall done, done <> [] -> Forall P done ->
             Forall (fun kv => renderable (snd kv))
               (MetricLogger.meters (eval_logger C (Some lg) done))).
  { intros done Hd HP. rewrite (eval_logger_meters C _ _ Hd).
    assert (Hn : forall f : Images * Target -> Q * Z, map f done <> [])
      by (intros f E; apply Hd; by destruct done).
    repeat constructor; cbn [snd]; apply statistic_renderable;
      auto; apply Hn. }
  destruct (log_every_completes format clock cuda memory
              (evaluation.evaluate_body C) P Inv 10 data_loader
              (Some "Test:"%string) (MetricLogger.__init__ "  " (Some lg), tt))
    as (g & Hg & Hu).
  - done.
  - exact Hne.
  - intros u (done & _ & ->). cbn [fst]. rewrite eval_logger_log. by eexists.
  - intros x u Hx (done & Hd & ->).
    exists (eval_logger C (Some lg) (done ++ [x]), tt). split; [|split].
    + rewrite eval_logger_snoc. unfold evaluation.evaluate_body.
      destruct x. by destruct (evaluation.accuracy C _ _).
    + exists (done ++ [x]). split; [|done]. apply Forall_app. by repeat constructor.
    + cbn [fst]. apply Hmeters.
      * by destruct done.
      * apply Forall_app. by repeat constructor.
  - exact Hall.
  - exists []. split; [constructor|done].
  - unfold evaluation.evaluate. rewrite Hg, Hu.
    rewrite fold_evaluate_body. cbn [fst].
    fold (eval_logger C (Some lg) data_loader).
    destruct (synchronize_logger 0 (fun _ => []) (eval_logger C (Some lg) data_loader))
      as [Hsync _].
    rewrite (eval_logger_meters C _ _ Hne) in Hsync. cbn [imap fst snd compose] in Hsync.
    set (ml' := fst (MetricLogger.synchronize_between_processes 0 _ _)) in *.
    set (s1 := statistic_of (Some 20%nat) None (loss_updates C data_loader)) in *.
    set (s2 := statistic_of (Some 20%nat) None (acc1_updates C data_loader)) in *.
    set (s3 := statistic_of (Some 20%nat) None (acc5_updates C data_loader)) in *.
    assert (Hs : forall s, renderable s ->
              let s' := fst (SmoothedValue.synchronize_between_processes 0 [] s) in
              exists g, SmoothedValue.global_avg s' = Ok g /\
                        (g == SmoothedValue.total s
                              / inject_Z (SmoothedValue.count s))%Q).
    { intros s [Hc _] s'.
      destruct (synchronize_statistic 0 [] s) as (_ & _ & _ & Hc' & Ht').
      change (SmoothedValue.count s' = (SmoothedValue.count s + 0)%Z) in Hc'.
      change (SmoothedValue.total s' == SmoothedValue.total s + 0)%Q in Ht'.
      exists (SmoothedValue.total s' / inject_Z (SmoothedValue.count s'))%Q. split.
      - apply global_avg_ok. rewrite Hc'. lia.
      - rewrite Hc', Ht'. rewrite Z.add_0_r, Qplus_0_r. reflexivity. }
    assert (Hd : data_loader <> []) by exact Hne.
    assert (Hf : forall f : Images * Target -> Q * Z, map f data_loader <> [])
      by (intros f E; apply Hd; by destruct data_loader).
    destruct (Hs s1) as (g1 & Hg1 & He1);
      [apply statistic_renderable; [apply Hf|apply Hloss]|].
    destruct (Hs s2) as (g2 & Hg2 & He2);
      [apply statistic_renderable; [apply Hf|by apply Hacc1]|].
    destruct (Hs s3) as (g3 & Hg3 & He3);
      [apply statistic_renderable; [apply Hf|by apply Hacc5]|].
    unfold evaluation.meter_global_avg, MetricLogger.getattr,
      MetricLogger.__getattr__.
    rewrite Hsync.
    cbn [MetricLogger.__dict__ MetricLogger.dict_get String.eqb Ascii.eqb
         Bool.eqb MetricLogger.in_names MetricLogger.class_dict
         MetricLogger.object_dict existsb orb andb fst snd].
    cbv zeta in Hg1, Hg2, Hg3.
    rewrite Hg1, Hg2, Hg3. cbn [rbind evaluation.global_avgs].
    rewrite Hg1, Hg2, Hg3. cbn [rbind].
    eexists. exists g1, g2, g3. split; [reflexivity|].
    unfold s1, s2, s3 in *.
    rewrite He1, He2, He3.
    rewrite !count_statistic_of, !total_statistic_of.
    rewrite weight_sum_loss_updates. repeat split; reflexivity.
Qed.

Lemma evaluate_returns_averages_witness :
  three_batches <> [] /\
  Forall (fun b => (0 < evaluation.batch_size triple_collaborators (fst b))%nat)
    three_batches /\
  exists lines loss acc1 acc5,
    evaluation.evaluate plain_format second_clock false second_clock
      triple_collaborators three_batches (Some 0%nat) 0 (fun _ => [])
    = (lines, Ok [("loss"%string, loss); ("acc1"%string, acc1);
                  ("acc5"%string, acc5)]) /\
    (loss == 2)%Q /\ (acc1 == 70)%Q /\ (acc5 == 100)%Q.
Proof.
  split; [discriminate|].
  split; [repeat constructor; simpl; lia|].
  destruct (evaluate_returns_averages plain_format second_clock false
              second_clock triple_collaborators three_batches 0%nat)
    as (lines & loss & acc1 & acc5 & H & H1 & H2 & H3).
  - discriminate.
  - repeat constructor; simpl; lia.
  - exists lines, loss, acc1, acc5. split; [exact H|].
    rewrite H1, H2, H3. repeat split; vm_compute; reflexivity.
Defined.

Lemma log_every_zero_print_freq_witness :
  let u := (MetricLogger.__init__ "  " (Some 0%nat), tt) in
  let u' := (eval_logger triple_collaborators (Some 0%nat) (take 1 three_batches), tt) in
  let r := logging.log_every plain_format second_clock false second_clock
             (evaluation.evaluate_body triple_collaborators) three_batches 0
             (Some "Test:"%string) u in
  evaluation.evaluate_body triple_collaborators (1%Q, 50%Q, 2%nat, tt) u
  = (u', Ok tt) /\
  snd r = Raise ZeroDivisionError /\
  logging.yielded (fst r) = [(1%Q, 50%Q, 2%nat, tt)] /\
  logging.lines (fst r) = [] /\
  logging.user (fst r) = u'.
Proof.
  cbv zeta. split; [reflexivity|].
  apply (log_every_zero_print_freq plain_format second_clock false second_clock
           (evaluation.evaluate_body triple_collaborators)
           (1%Q, 50%Q, 2%nat, tt) (drop 1 three_batches) (Some "Test:"%string)
           (MetricLogger.__init__ "  " (Some 0%nat), tt)).
  reflexivity.
Defined.

Lemma log_every_progress_lines_witness :
  let r := logging.log_every plain_format second_clock false second_clock
             (evaluation.evaluate_body triple_collaborators) three_batches 2
             (Some "Test:"%string) (MetricLogger.__init__ "  " (Some 0%nat), tt) in
  snd r = Ok tt /\
  exists progress total_seconds seconds_per_it,
    logging.lines (fst r)
    = progress ++ [logging.Summary "Test:" total_seconds seconds_per_it] /\
    map logging.progress_index progress = [Some 0%nat; Some 2%nat].
Proof.
  cbv zeta. split; [vm_compute; reflexivity|].
  apply (log_every_progress_lines plain_format second_clock false second_clock
           (evaluation.evaluate_body triple_collaborators) three_batches 2
           (Some "Test:"%string) (MetricLogger.__init__ "  " (Some 0%nat), tt)).
  vm_compute; reflexivity.
Defined.

(** ** The training loop, call by call *)

Section TrainCalls.

Import engine.

Context {Model Optimizer Ema Params Samples Targets Outputs : Type}.
Variable C : collaborators Model Optimizer Ema Params Samples Targets Outputs.
Variable A : args.

Lemma count_if_forward (p : call -> bool) (new : list call) :
  (forall c, forward_call c = true -> p c = false) ->
  Forall (fun c => forward_call c = true) new ->
  count_if p new = 0%nat.
Proof.
  intros Hp Hnew. unfold count_if.
  induction Hnew as [|c new Hc _ IH]; [done|].
  simpl. by rewrite (Hp c Hc).
Qed.

Lemma forward_call_loss_meter (c : call) :
  forward_call c = true -> loss_meter_finite c = true.
Proof.
  destruct c; try done. simpl. intros H.
  apply String.eqb_eq in H. by subst.
Qed.

(** Before the finiteness test the body only makes forward calls. *)
Lemma forward_losses_calls epoch len i (b : batch Samples Targets)
    (w : world Model Optimizer Ema) :
  let r := forward_losses C A epoch len i b w in
  model_ema (fst r) = model_ema w /\
  exists new, calls (fst r) = calls w ++ new /\
              Forall (fun c => forward_call c = true) new.
Proof.
  cbv zeta. unfold forward_losses.
  destruct (kaiming_sched A);
    destruct (match mixup_fn C with
              | Some mix => mix (samples b) (targets b)
              | None => (samples b, targets b)
              end) as [samples1 targets1];
    cbn [model optimizer with_optimizer with_model record];
    destruct (model_call C (model w) samples1) as [m outputs];
    (destruct (negb (Qle_bool (moe_contrastive_weight A) 0));
     [ cbn [model optimizer with_optimizer with_model record];
       destruct (model_call C m (samples_second b)) as [m2 o2];
       destruct (gate_losses C A 0 _ _ _ None) as [[g|]|e]
     | ]);
    destruct (String.prefix "moe_vit" (arch A));
    cbn [fst snd model optimizer model_ema calls with_optimizer with_model record];
    (split; [reflexivity|]);
    rewrite <- ?app_assoc; eexists; (split; [reflexivity|]);
    repeat constructor.
Qed.

(** What one turn of the loop adds to the calls. *)
Lemma train_step_calls epoch max_norm len i (b : batch Samples Targets)
    (w : world Model Optimizer Ema) :
  let r := train_step C A epoch max_norm len i b w in
  (is_Some (model_ema (fst r)) <-> is_Some (model_ema w)) /\
  exists new,
    calls (fst r) = calls w ++ new /\
    Forall (fun c => loss_meter_finite c = true) new /\
    let n := match snd r with Ok _ => 1%nat | Raise _ => 0%nat end in
    count_if is_zero_grad new = n /\
    count_if is_loss_scaler new = n /\
    count_if is_ema_update new
    = match model_ema w with Some _ => n | None => 0%nat end.
Proof.
  cbv zeta. unfold train_step.
  destruct (forward_losses_calls epoch len i b w) as (Hema & new & Hnew & Hf).
  destruct (forward_losses C A epoch len i b w) as [w1 [[lv l]|e]];
    cbn [fst snd] in *.
  - destruct (torch.isfinite lv) eqn:Hfin; cbn [negb fst snd].
    + unfold optimize.
      cbn [model optimizer model_ema with_optimizer with_model record].
      destruct (loss_scaler C l _ max_norm (model w1) _) as [m o].
      cbn [model optimizer model_ema with_optimizer with_model record].
      rewrite <- Hema.
      destruct (model_ema w1) as [e1|] eqn:E;
        cbn [model optimizer model_ema calls with_optimizer with_model
             with_ema record]; rewrite ?E;
        (split; [split; intros H; first [exact H | by eexists]|]);
        rewrite Hnew, <- ?app_assoc; eexists; (split; [reflexivity|]);
        (split;
         [ apply Forall_app; split;
           [ eapply Forall_impl; [exact Hf|apply forward_call_loss_meter]
           | repeat constructor; simpl; exact Hfin ]
         | rewrite !count_if_app,
             !(count_if_forward _ new) by (assumption || by intros []);
           done ]).
    + split; [by rewrite Hema|]. exists new. split; [exact Hnew|]. split.
      * eapply Forall_impl; [exact Hf|apply forward_call_loss_meter].
      * rewrite !(count_if_forward _ new) by (assumption || by intros []).
        by destruct (model_ema w).
  - split; [by rewrite Hema|]. exists new. split; [exact Hnew|]. split.
    + eapply Forall_impl; [exact Hf|apply forward_call_loss_meter].
    + rewrite !(count_if_forward _ new) by (assumption || by intros []).
      by destruct (model_ema w).
Qed.

End TrainCalls.

Section TrainLoopCalls.

Import engine.

Context {Model Optimizer Ema Params Samples Targets Outputs : Type}.
Variable C : collaborators Model Optimizer Ema Params Samples Targets Outputs.
Variable A : args.

(** What the loop adds to the calls, whatever its outcome. *)
Lemma train_loop_calls epoch max_norm len i
    (data_loader : list (batch Samples Targets)) (w : world Model Optimizer Ema) :
  let r := train_loop C A epoch max_norm len i data_loader w in
  exists new n,
    calls (fst r) = calls w ++ new /\
    Forall (fun c => loss_meter_finite c = true) new /\
    count_if is_zero_grad new = n /\
    count_if is_loss_scaler new = n /\
    count_if is_ema_update new
    = match model_ema w with Some _ => n | None => 0%nat end /\
    match snd r with
    | Ok _ => n = length data_loader
    | Raise _ => (n < length data_loader)%nat
    end.
Proof.
  cbv zeta. revert i w. induction data_loader as [|b rest IH]; intros i w.
  - exists [], 0%nat. cbn [train_loop fst snd calls length].
    rewrite app_nil_r. repeat split; try done. by destruct (model_ema w).
  - cbn [train_loop].
    destruct (train_step_calls C A epoch max_norm len i b w)
      as (Hema & new & Hnew & Hfin & Hz & Hs & He).
    destruct (train_step C A epoch max_norm len i b w) as [w1 [[]|e]];
      cbn [fst snd] in *.
    + destruct (IH (S i) w1) as (new' & n & Hnew' & Hfin' & Hz' & Hs' & He' & Hn).
      exists (new ++ new'), (S n).
      rewrite Hnew', Hnew, <- app_assoc. split; [done|].
      split; [by apply Forall_app|].
      rewrite !count_if_app, Hz, Hs, He, Hz', Hs', He'.
      repeat split; try done.
      * destruct (model_ema w) as [e0|], (model_ema w1) as [e1|]; try done.
        -- destruct Hema as [_ Hema]. by destruct Hema.
        -- destruct Hema as [Hema _]. by destruct Hema.
      * destruct (snd (train_loop C A epoch max_norm len (S i) rest w1));
          cbn [length]; lia.
    + exists new, 0%nat. cbn [length].
      repeat split; try done; try lia; by destruct (model_ema w).
Qed.

End TrainLoopCalls.

(** X25: with a positive contrastive weight and a model that has no
    gating activation to collect, the first turn of the loop raises
    [AttributeError], from [loss_gate.item()] on the integer [loss_gate]
    starts as: both forward passes have run, and neither
    [optimizer.zero_grad] nor the loss scaler is reached. *)
Theorem empty_gates_raise_attribute_error
    {Model Optimizer Ema Params Samples Targets Outputs : Type}
    (C : engine.collaborators Model Optimizer Ema Params Samples Targets Outputs)
    (A : engine.args) (epoch : nat) (max_norm : Q) (len i : nat)
    (b : engine.batch Samples Targets) (w : engine.world Model Optimizer Ema) :
  Qle_bool (engine.moe_contrastive_weight A) 0 = false ->
  (forall m, engine.collect_moe_activation C m = []) ->
  exists w',
    engine.train_step C A epoch max_norm len i b w = (w', Raise AttributeError) /\
    engine.calls w'
    = engine.calls w ++ schedule_calls A epoch len i
      ++ [engine.ModelForward false; engine.Criterion;
          engine.CollectMoeActivation; engine.ModelForward true;
          engine.CollectMoeActivation].
Proof.
  intros Hw Hnone.
  unfold engine.train_step, engine.forward_losses, schedule_calls.
  rewrite Hw. cbn [negb].
  destruct (engine.kaiming_sched A);
    destruct (match engine.mixup_fn C with
              | Some mix => mix (engine.samples b) (engine.targets b)
              | None => (engine.samples b, engine.targets b)
              end) as [samples1 targets1];
    cbn [engine.model engine.optimizer engine.with_optimizer engine.with_model
         engine.record];
    destruct (engine.model_call C (engine.model w) samples1) as [m outputs];
    cbn [engine.model engine.optimizer engine.with_optimizer engine.with_model
         engine.record];
    destruct (engine.model_call C m (engine.samples_second b)) as [m2 o2];
    rewrite !Hnone; cbn [engine.gate_losses];
    eexists; (split; [reflexivity|]);
    cbn [engine.calls engine.model engine.optimizer engine.with_optimizer
         engine.with_model engine.record];
    by rewrite <- !app_assoc.
Qed.

Lemma empty_gates_raise_attribute_error_witness :
  let C := example.collaborators_of (torch.Finite 0) in
  let b := example.batch_with (torch.Finite 1) in
  Qle_bool (engine.moe_contrastive_weight args_contrastive) 0 = false /\
  (forall m, engine.collect_moe_activation C m = []) /\
  exists w',
    engine.train_step C args_contrastive 0 0 1 0 b example.initial_world
    = (w', Raise AttributeError) /\
    engine.calls w'
    = [engine.AdjustLearningRate 0; engine.ModelForward false; engine.Criterion;
       engine.CollectMoeActivation; engine.ModelForward true;
       engine.CollectMoeActivation].
Proof.
  cbv zeta. split; [reflexivity|]. split; [reflexivity|].
  destruct (empty_gates_raise_attribute_error
              (example.collaborators_of (torch.Finite 0)) args_contrastive
              0 0 1 0 (example.batch_with (torch.Finite 1)) example.initial_world)
    as (w' & Hstep & Hcalls); [reflexivity|reflexivity|].
  exists w'. split; [exact Hstep|]. rewrite Hcalls. reflexivity.
Defined.

(** X26: the loop calls [optimizer.zero_grad] and the loss scaler as
    often as each other, once for each batch it completes and so never
    more often than there are batches, and [model_ema.update] as often
    when there is a shadow model and never otherwise; when the loop ends
    without an exception they have been called once for every batch. *)
Theorem train_loop_steps
    {Model Optimizer Ema Params Samples Targets Outputs : Type}
    (C : engine.collaborators Model Optimizer Ema Params Samples Targets Outputs)
    (A : engine.args) (epoch : nat) (max_norm : Q) (len i : nat)
    (data_loader : list (engine.batch Samples Targets))
    (w : engine.world Model Optimizer Ema) :
  let r := engine.train_loop C A epoch max_norm len i data_loader w in
  exists new,
    engine.calls (fst r) = engine.calls w ++ new /\
    count_if is_zero_grad new = count_if is_loss_scaler new /\
    count_if is_ema_update new
    = match engine.model_ema w with
      | Some _ => count_if is_loss_scaler new
      | None => 0%nat
      end /\
    (count_if is_loss_scaler new <= length data_loader)%nat /\
    (snd r = Ok tt -> count_if is_loss_scaler new = length data_loader).
Proof.
  cbv zeta.
  destruct (train_loop_calls C A epoch max_norm len i data_loader w)
    as (new & n & Hnew & _ & Hz & Hs & He & Hn).
  exists new. rewrite Hz, Hs, He. repeat split; try done.
  - destruct (snd (engine.train_loop C A epoch max_norm len i data_loader w));
      lia.
  - intros Hok. by rewrite Hok in Hn.
Qed.

(** X27: whatever the loop does, every value it puts on the [loss]
    meter is finite. *)
Theorem loss_meter_stays_finite
    {Model Optimizer Ema Params Samples Targets Outputs : Type}
    (C : engine.collaborators Model Optimizer Ema Params Samples Targets Outputs)
    (A : engine.args) (epoch : nat) (max_norm : Q) (len i : nat)
    (data_loader : list (engine.batch Samples Targets))
    (w : engine.world Model Optimizer Ema) :
  let r := engine.train_loop C A epoch max_norm len i data_loader w in
  exists new,
    engine.calls (fst r) = engine.calls w ++ new /\
    forall name v, In (engine.MetricUpdateLoss name v) new ->
                   name = "loss"%string -> torch.isfinite v = true.
Proof.
  cbv zeta.
  destruct (train_loop_calls C A epoch max_norm len i data_loader w)
    as (new & n & Hnew & Hfin & _).
  exists new. split; [exact Hnew|]. intros name v Hin ->.
  rewrite Forall_forall in Hfin.
  apply list_elem_of_In in Hin. exact (Hfin _ Hin).
Qed.

(** ** The sign of the contrastive losses *)

Section CrossEntropy.

Import torch.

Local Open Scope R_scope.

Lemma exp_logit_nonneg (l : logit) : 0 <= exp_logit l.
Proof. destruct l; simpl; [left; apply exp_pos|lra]. Qed.

Lemma sum_exp_nonneg (row : list logit) : 0 <= sum (map exp_logit row).
Proof.
  induction row as [|l row IH]; simpl; [lra|].
  pose proof (exp_logit_nonneg l). lra.
Qed.

(** The sum of the exponentials of a row is at least that of any of its
    finite entries. *)
Lemma sum_exp_ge_entry (row : list logit) (n : nat) (v : R) :
  row !! n = Some (Fin v) -> exp v <= sum (map exp_logit row).
Proof.
  revert n; induction row as [|l row IH]; intros [|n] Hn; try done;
    simpl in *.
  - injection Hn as ->. simpl. pose proof (sum_exp_nonneg row). lra.
  - pose proof (IH n Hn). pose proof (exp_logit_nonneg l). lra.
Qed.



Lemma ln_le (x y : R) : 0 < x -> x <= y -> ln x <= ln y.
Proof.
  intros Hx [Hlt| ->]; [left; by apply ln_increasing|lra].
Qed.

Lemma nll_row_nonneg (row : list logit) (target : nat) (x : R) :
  nll_row row target = Ok (Finite x) -> 0 <= x.
Proof.
  unfold nll_row. destruct (row !! target) as [[v|]|] eqn:Hv; try done.
  intros [= <-]. pose proof (sum_exp_ge_entry row target v Hv) as Hge.
  pose proof (ln_le _ _ (exp_pos v) Hge) as Hln. rewrite ln_exp in Hln. lra.
Qed.

Lemma nll_rows_nonneg (rows : list (list logit)) (targets : list nat) ls :
  nll_rows rows targets = Ok ls -> Forall not_negative ls.
Proof.
  revert targets ls; induction rows as [|row rows IH]; intros [|y targets] ls;
    cbn [nll_rows]; try (intros [= <-]; constructor).
  destruct (nll_row row y) as [l|e] eqn:Hl; [|done]. cbn [rbind].
  destruct (nll_rows rows targets) as [ls'|e] eqn:Hls; [|done]. cbn [rbind].
  intros [= <-]. constructor; [|by eapply IH].
  destruct l as [x|]; [|done]. by eapply nll_row_nonneg.
Qed.

Lemma loss_sum_nonneg (ls : list loss) :
  Forall not_negative ls -> not_negative (fold_right loss_add (Finite 0) ls).
Proof.
  induction 1 as [|l ls Hl _ IH]; simpl; [lra|].
  destruct l as [x|]; [|done].
  destruct (fold_right loss_add (Finite 0) ls) as [s|]; [|done].
  simpl in *. lra.
Qed.

Lemma loss_scale_nonneg (l : loss) (c : R) :
  0 <= c -> not_negative l -> not_negative (loss_scale l c).
Proof.
  intros Hc. destruct l as [x|]; [|done]. simpl. intros Hx.
  by apply Rmult_le_pos.
Qed.

Lemma cross_entropy_nonneg logits targets ce :
  CrossEntropyLoss logits targets = Ok ce -> not_negative ce.
Proof.
  unfold CrossEntropyLoss.
  destruct (nll_rows logits targets) as [ls|e] eqn:Hls; [|done].
  cbn [rbind]. intros [= <-].
  destruct ls as [|l ls]; [done|].
  apply loss_scale_nonneg.
  - left. apply Rinv_0_lt_compat, lt_0_INR. simpl. lia.
  - apply loss_sum_nonneg. by eapply nll_rows_nonneg.
Qed.

End CrossEntropy.

(** X28: with a temperature that is not negative, a finite value of
    [contrastive_loss] or of [supervised_contrastive_loss] is never
    negative. *)
Theorem contrastive_losses_not_negative
    (d : distributed) (q k : torch.matrix) (label : list Z) (temp x : R) :
  (0 <= temp)%R ->
  contrastive_loss d q k temp = Ok (torch.Finite x) \/
  supervised_contrastive_loss d q k label temp = Ok (torch.Finite x) ->
  (0 <= x)%R.
Proof.
  intros Ht H.
  assert (Hscale : forall ce, not_negative ce ->
                     torch.loss_scale ce (2 * temp) = torch.Finite x -> (0 <= x)%R).
  { intros ce Hce Hx.
    pose proof (loss_scale_nonneg ce (2 * temp)%R ltac:(lra) Hce) as Hn.
    by rewrite Hx in Hn. }
  destruct H as [H|H].
  - unfold contrastive_loss in H. destruct d as [pg|]; [|done].
    cbv zeta in H.
    destruct (torch.CrossEntropyLoss _ _) as [ce|e] eqn:Hce; [|done].
    cbn [rbind] in H. injection H as H.
    eapply Hscale; [|exact H]. by eapply cross_entropy_nonneg.
  - unfold supervised_contrastive_loss in H.
    destruct (supervised_logits d q k label temp) as [lr|e]; [|done].
    cbn [rbind] in H. cbv zeta in H.
    destruct (torch.CrossEntropyLoss _ _) as [ce|e] eqn:Hce; [|done].
    cbn [rbind] in H. injection H as H.
    eapply Hscale; [|exact H]. by eapply cross_entropy_nonneg.
Qed.

Lemma contrastive_losses_not_negative_witness :
  (0 <= 2 / 10)%R /\
  exists x,
    contrastive_loss (Some single_process) q_example k_example (2 / 10)
    = Ok (torch.Finite x) /\
    (0 <= x)%R.
Proof.
  split; [lra|]. eexists. split; [reflexivity|].
  apply (contrastive_losses_not_negative (Some single_process)
           q_example k_example [] (2 / 10)); [lra|].
  left. reflexivity.
Defined.

(** ** A batch of one class *)

Section OneClass.

Import torch.

Local Open Scope R_scope.



End OneClass.


